(** * Companion memory server: a shallow embedding of [memory_server.py]

    The server keeps two SQLite databases: the memory database (entities and
    their observations) and the Void (journal entries with a full-text
    index).  Every tool opens a connection, runs a few statements and closes
    the connection again.

    The embedding follows the Python text:
    - a table is the list of its rows in rowid order;
    - a connection carries the committed database, the view of the open
      transaction, and a fault plan telling which storage call raises;
    - a tool is a computation in the connection monad [Db];
    - a Python exception is the outcome [Raised]; the clock ([now_iso]) is
      an argument of the tool.

    Text is [string]: a sequence of characters, each with a code point
    below 256 (the characters of [ascii]); [len], slices and the [_] of
    [LIKE] count characters.  Text with other characters is outside the
    model.

    Integers are Python integers, unbounded [Z].  An INTEGER column of
    SQLite holds 64 bits: binding a Python integer outside [Sql.int64]
    raises [OverflowError] in the driver, and a table whose largest rowid
    is the last 64-bit integer takes no further AUTOINCREMENT row.  The
    statements below are defined on all of [Z]; they are the statements of
    the program for arguments and rowids within [Sql.int64]. *)

From Stdlib Require Import List ZArith Lia Bool String Ascii.
From Stdlib Require Import Sorting.Sorted.
From Stdlib Require Import Decimal DecimalString DecimalZ.
Import ListNotations.

Set Implicit Arguments.
Set Warnings "-register-all".
Local Open Scope string_scope.
Local Open Scope Z_scope.

(* ================================================================= *)
(** ** Python values *)

Module Py.

(** Truthiness of a [str]: only the empty string is falsy. *)
Definition truthy (s : string) : bool :=
  match s with EmptyString => false | String _ _ => true end.

(** Truthiness of an [Optional[str]]. *)
Definition truthy_opt (o : option string) : bool :=
  match o with None => false | Some s => truthy s end.

(** Truthiness of an [Optional[List[_]]]: [None] and [[]] are falsy. *)
Definition truthy_list {A : Type} (o : option (list A)) : bool :=
  match o with None | Some [] => false | Some (_ :: _) => true end.

(** [xs or default] on an optional list. *)
Definition or_list {A : Type} (o : option (list A)) (default : list A) : list A :=
  match o with
  | Some (x :: xs) => x :: xs
  | _ => default
  end.

(** [len(s)]: the number of characters. *)
Definition len (s : string) : Z := Z.of_nat (String.length s).

(** The first [n] characters of [s]. *)
Fixpoint take (n : nat) (s : string) : string :=
  match n, s with
  | O, _ => ""
  | S _, EmptyString => ""
  | S k, String c t => String c (take k t)
  end.

(** The slice [s[:k]]; a negative [k] counts from the end. *)
Definition slice_to (s : string) (k : Z) : string :=
  if k <? 0 then take (Z.to_nat (len s + k)) s else take (Z.to_nat k) s.

(** [sep.join(parts)]. *)
Fixpoint join (sep : string) (parts : list string) : string :=
  match parts with
  | [] => ""
  | [p] => p
  | p :: ps => p ++ sep ++ join sep ps
  end.

(** The line feed. *)
Definition nl : string := String (ascii_of_nat 10) "".

End Py.

(* ================================================================= *)
(** ** Outcomes and the connection monad *)

(** What a call does: it returns a value or raises an exception, of which
    only the message is kept. *)
Inductive outcome (A : Type) : Type :=
| Returned (a : A)
| Raised (e : string).
Arguments Returned {A} a.
Arguments Raised {A} e.

Definition returned {A : Type} (o : outcome A) : bool :=
  match o with Returned _ => true | Raised _ => false end.

(** A fault plan: [p k = Some e] says that the [k]-th storage call made on
    the connection (opening it is call 0) raises [e]. *)
Definition plan := nat -> option string.

Definition no_faults : plan := fun _ => None.

Section Connection.

(** The database behind the connection. *)
Variable S : Type.

(** [disk] is the committed database, [work] what the statements of the
    open transaction see; [calls] counts the storage calls made so far. *)
Record conn : Type := Conn {
  disk : S;
  work : S;
  calls : nat;
  faults : plan
}.

Definition tick (c : conn) : conn :=
  Conn (disk c) (work c) (Datatypes.S (calls c)) (faults c).

Definition Db (A : Type) : Type := conn -> outcome A * conn.

Definition ret {A : Type} (a : A) : Db A := fun c => (Returned a, c).

Definition bind {A B : Type} (m : Db A) (k : A -> Db B) : Db B :=
  fun c =>
    match m c with
    | (Returned a, c') => k a c'
    | (Raised e, c') => (Raised e, c')
    end.

(** [sqlite3.connect]: a storage call that touches no row. *)
Definition connect : Db unit :=
  fun c =>
    match faults c (calls c) with
    | Some e => (Raised e, tick c)
    | None => (Returned tt, tick c)
    end.

(** [conn.execute]: one statement.  A statement that raises, by the fault
    plan or by itself (a violated constraint), changes no row. *)
Definition execute {A : Type} (stmt : S -> outcome (A * S)) : Db A :=
  fun c =>
    match faults c (calls c) with
    | Some e => (Raised e, tick c)
    | None =>
        match stmt (work c) with
        | Raised e => (Raised e, tick c)
        | Returned (a, w) =>
            (Returned a, Conn (disk c) w (Datatypes.S (calls c)) (faults c))
        end
    end.

(** A statement that only reads. *)
Definition query {A : Type} (q : S -> A) : Db A :=
  execute (fun s => Returned (q s, s)).

(** [conn.commit()]: the transaction's view becomes the database. *)
Definition commit : Db unit :=
  fun c =>
    match faults c (calls c) with
    | Some e => (Raised e, tick c)
    | None =>
        (Returned tt, Conn (work c) (work c) (Datatypes.S (calls c)) (faults c))
    end.

(** [conn.close()]: what was not committed is rolled back. *)
Definition close : Db unit :=
  fun c => (Returned tt, Conn (disk c) (disk c) (calls c) (faults c)).

(** [try: body  except Exception as e: handler(str(e))]. *)
Definition try_except {A : Type} (body : Db A) (handler : string -> Db A) : Db A :=
  fun c =>
    match body c with
    | (Returned a, c') => (Returned a, c')
    | (Raised e, c') => handler e c'
    end.

(** [try: body  finally: final]. *)
Definition try_finally {A : Type} (body : Db A) (final : Db unit) : Db A :=
  fun c =>
    let (r, c') := body c in
    match final c' with
    | (Returned _, c'') => (r, c'')
    | (Raised e, c'') => (Raised e, c'')
    end.

(** Running a tool on the database [s] under the plan [p]: the outcome
    of the call and the database it leaves behind. *)
Definition run {A : Type} (tool : Db A) (p : plan) (s : S) : outcome A * S :=
  let (r, c) := tool (Conn s s 0 p) in (r, disk c).

End Connection.

Arguments ret {S A} a.
Arguments bind {S A B} m k.
Arguments connect {S}.
Arguments execute {S A} stmt.
Arguments query {S A} q.
Arguments commit {S}.
Arguments close {S}.
Arguments try_except {S A} body handler.
Arguments try_finally {S A} body final.
Arguments run {S A} tool p s.

Declare Scope db_scope.
Delimit Scope db_scope with db.
Notation "x <- m ;; k" := (bind m (fun x => k))
  (at level 61, m at next level, right associativity) : db_scope.
Notation "m ;; k" := (bind m (fun _ => k))
  (at level 61, right associativity) : db_scope.

(* ================================================================= *)
(** ** SQL on lists of rows *)

Module Sql.

(** The largest rowid of a table, 0 when it is empty. *)
Definition max_rowid (ids : list Z) : Z := fold_right Z.max 0 ids.

(** [INTEGER PRIMARY KEY AUTOINCREMENT]: one more than the largest rowid
    the table has ever held ([seq] is its [sqlite_sequence] entry). *)
Definition next_rowid (seq : Z) (ids : list Z) : Z :=
  Z.max seq (max_rowid ids) + 1.

(** [LIMIT n]; a negative [n] is no limit. *)
Definition limit {A : Type} (n : Z) (rows : list A) : list A :=
  if n <? 0 then rows else firstn (Z.to_nat n) rows.

(** ASCII upper case, the case folding of [LIKE]. *)
Definition upper (c : ascii) : ascii :=
  let n := nat_of_ascii c in
  if (97 <=? n)%nat && (n <=? 122)%nat then ascii_of_nat (n - 32) else c.

(** The text up to its first NUL character: what SQLite's functions on
    C strings read of a text. *)
Fixpoint c_string (s : string) : string :=
  match s with
  | EmptyString => ""
  | String c t => if (c =? Ascii.zero)%char then "" else String c (c_string t)
  end.

(** The matcher of [LIKE]: [%] stands for any run of characters, [_] for
    any one character, letters match without regard to case. *)
Fixpoint pattern_compare (p s : string) : bool :=
  match p with
  | EmptyString =>
      match s with EmptyString => true | String _ _ => false end
  | String c p' =>
      if (c =? "%")%char then
        (fix star (t : string) : bool :=
           pattern_compare p' t
           || match t with
              | EmptyString => false
              | String _ t' => star t'
              end) s
      else
        match s with
        | EmptyString => false
        | String d s' =>
            ((c =? "_")%char || (upper c =? upper d)%char) && pattern_compare p' s'
        end
  end.

(** [s LIKE p]: the matcher reads the pattern and the text as C strings,
    each up to its first NUL character.  This is the value of [LIKE] for
    a pattern within [like_pattern_limit]. *)
Definition like (p s : string) : bool :=
  pattern_compare (c_string p) (c_string s).

(** The number of bytes of a text in UTF-8, the encoding of the database:
    one for a character below U+0080, two for the others of the model. *)
Fixpoint utf8_size (s : string) : Z :=
  match s with
  | EmptyString => 0
  | String c t => (if (nat_of_ascii c <? 128)%nat then 1 else 2) + utf8_size t
  end.

(** The longest pattern [LIKE] takes, in bytes; with a longer one the
    statement raises "LIKE or GLOB pattern too complex". *)
Definition like_pattern_limit : Z := 50000.

(** The integers of SQLite: 64 bits, signed. *)
Definition int64 (z : Z) : Prop := - 2 ^ 63 <= z < 2 ^ 63.

(** The result columns of a [SELECT], computed row by row: an error in
    one row is the error of the statement. *)
Fixpoint result_rows {A B : Type} (columns : A -> outcome B) (rows : list A)
  : outcome (list B) :=
  match rows with
  | [] => Returned []
  | r :: rest =>
      match columns r with
      | Raised e => Raised e
      | Returned x =>
          match result_rows columns rest with
          | Raised e => Raised e
          | Returned xs => Returned (x :: xs)
          end
      end
  end.

(** [x IN (v1, ..., vn)] on text. *)
Definition is_in (x : string) (vs : list string) : bool :=
  existsb (String.eqb x) vs.

(** [ORDER BY key DESC]: a stable insertion sort, rows with equal keys
    stay in the order of the scan.  [leb] is the order of the column:
    [String.leb] on text, [Z.leb] on integers. *)
Section OrderBy.
Variables A K : Type.
Variable leb : K -> K -> bool.
Variable key : A -> K.

Fixpoint insert_desc (x : A) (rows : list A) : list A :=
  match rows with
  | [] => [x]
  | y :: rest =>
      if leb (key y) (key x) then x :: y :: rest
      else y :: insert_desc x rest
  end.

Definition order_by_desc (rows : list A) : list A :=
  fold_right insert_desc [] rows.
End OrderBy.

(** [SELECT DISTINCT]: the first of equal rows is kept. *)
Section Distinct.
Variable A : Type.
Variable eqb : A -> A -> bool.

Fixpoint distinct_from (seen : list A) (rows : list A) : list A :=
  match rows with
  | [] => []
  | r :: rest =>
      if existsb (eqb r) seen then distinct_from seen rest
      else r :: distinct_from (r :: seen) rest
  end.

Definition distinct (rows : list A) : list A := distinct_from [] rows.
End Distinct.

End Sql.

(* ================================================================= *)
(** ** The memory database *)

(** A row of [entities]. *)
Module Entity.
Record row : Type := Row {
  id : Z;
  name : string;
  entity_type : string;
  database : string;
  salience : string;
  created_at : string;
  updated_at : string
}.

Definition eqb (a b : row) : bool :=
  (id a =? id b) && String.eqb (name a) (name b)
  && String.eqb (entity_type a) (entity_type b)
  && String.eqb (database a) (database b)
  && String.eqb (salience a) (salience b)
  && String.eqb (created_at a) (created_at b)
  && String.eqb (updated_at a) (updated_at b).

(** The identity the [UNIQUE(name, database)] constraint is about. *)
Definition key (e : row) : string * string := (name e, database e).

Definition has_key (n d : string) (e : row) : bool :=
  String.eqb (name e) n && String.eqb (database e) d.
End Entity.

(** A row of [observations]. *)
Module Observation.
Record row : Type := Row {
  id : Z;
  entity_id : Z;
  content : string;
  added_at : string
}.
End Observation.

(** The memory database: the two tables the tools use, with the
    [sqlite_sequence] entries of their AUTOINCREMENT keys.  (The table
    [relations] is created by [init_memory_database] and used by no tool.) *)
Record memory_db : Type := MemoryDb {
  entities : list Entity.row;
  observations : list Observation.row;
  seq_entities : Z;
  seq_observations : Z
}.

(** The database after [init_memory_database] on a fresh file. *)
Definition empty_memory_db : memory_db := MemoryDb [] [] 0 0.

Module MemorySql.

(** [SELECT ... FROM entities WHERE name = ? AND database = ?], [fetchone()]. *)
Definition select_entity (n d : string) (s : memory_db) : option Entity.row :=
  find (Entity.has_key n d) (entities s).

(** [INSERT INTO observations (entity_id, content, added_at) VALUES (?, ?, ?)]. *)
Definition insert_observation (eid : Z) (c now : string) (s : memory_db)
  : outcome (Z * memory_db) :=
  let oid := Sql.next_rowid (seq_observations s)
                            (map Observation.id (observations s)) in
  Returned (oid, MemoryDb (entities s)
                          (observations s ++ [Observation.Row oid eid c now])
                          (seq_entities s) oid).

(** [INSERT INTO entities (name, entity_type, database, salience,
    created_at, updated_at) VALUES (?, ?, ?, ?, ?, ?)]; the value is
    [cursor.lastrowid]. *)
Definition insert_entity (n t d sal now : string) (s : memory_db)
  : outcome (Z * memory_db) :=
  if existsb (Entity.has_key n d) (entities s) then
    Raised "UNIQUE constraint failed: entities.name, entities.database"
  else
    let eid := Sql.next_rowid (seq_entities s) (map Entity.id (entities s)) in
    Returned (eid, MemoryDb (entities s ++ [Entity.Row eid n t d sal now now])
                            (observations s) eid (seq_observations s)).

(** [UPDATE entities SET updated_at = ? WHERE id = ?]. *)
Definition touch_entity (now : string) (eid : Z) (s : memory_db)
  : outcome (unit * memory_db) :=
  let touch (e : Entity.row) :=
    if Entity.id e =? eid then
      Entity.Row (Entity.id e) (Entity.name e) (Entity.entity_type e)
                 (Entity.database e) (Entity.salience e)
                 (Entity.created_at e) now
    else e in
  Returned (tt, MemoryDb (map touch (entities s)) (observations s)
                         (seq_entities s) (seq_observations s)).

(** [SELECT content, added_at FROM observations WHERE entity_id = ?
    ORDER BY added_at DESC]. *)
Definition select_observations (eid : Z) (s : memory_db) : list Observation.row :=
  Sql.order_by_desc String.leb Observation.added_at
    (filter (fun o => Observation.entity_id o =? eid) (observations s)).

End MemorySql.

(* ================================================================= *)
(** ** [store_memory] *)

Inductive action : Type := created | updated.

(** The dictionary [store_memory] returns. *)
Inductive store_reply : Type :=
| StoreSuccess (act : action) (entity_id : Z)
               (entity_name database observation : string)
| StoreFailure (error : string).

Definition store_success (r : store_reply) : bool :=
  match r with StoreSuccess _ _ _ _ _ => true | StoreFailure _ => false end.

Section StoreMemory.
Local Open Scope db_scope.

Definition store_memory (entity_name observation entity_type database salience : string)
                        (now : string) : Db memory_db store_reply :=
  connect ;;
  try_finally
    (try_except
       (entity <- query (MemorySql.select_entity entity_name database) ;;
        r <- match entity with
             | Some e =>
                 let entity_id := Entity.id e in
                 execute (MemorySql.insert_observation entity_id observation now) ;;
                 execute (MemorySql.touch_entity now entity_id) ;;
                 ret (updated, entity_id)
             | None =>
                 entity_id <- execute (MemorySql.insert_entity entity_name entity_type
                                                               database salience now) ;;
                 execute (MemorySql.insert_observation entity_id observation now) ;;
                 ret (created, entity_id)
             end ;;
        commit ;;
        ret (StoreSuccess (fst r) (snd r) entity_name database observation))
       (fun e => ret (StoreFailure e)))
    close.

End StoreMemory.

(* ================================================================= *)
(** ** [retrieve_memory] *)

(** The [entity] dictionary of a successful [retrieve_memory]. *)
Module EntityView.
Record t : Type := Make {
  name : string;
  type : string;
  database : string;
  salience : string;
  created : string;
  updated : string;
  observations : list (string * string)   (* content, added *)
}.
End EntityView.

Inductive retrieve_reply : Type :=
| RetrieveSuccess (entity : EntityView.t)
| RetrieveFailure (error : string).

Section RetrieveMemory.
Local Open Scope db_scope.

Definition retrieve_memory (entity_name database : string)
  : Db memory_db retrieve_reply :=
  connect ;;
  try_finally
    (entity <- query (MemorySql.select_entity entity_name database) ;;
     match entity with
     | None =>
         ret (RetrieveFailure
                ("Entity '" ++ entity_name ++ "' not found in database '"
                 ++ database ++ "'"))
     | Some e =>
         obs <- query (MemorySql.select_observations (Entity.id e)) ;;
         ret (RetrieveSuccess
                (EntityView.Make
                   (Entity.name e) (Entity.entity_type e) (Entity.database e)
                   (Entity.salience e) (Entity.created_at e) (Entity.updated_at e)
                   (map (fun o => (Observation.content o, Observation.added_at o))
                        obs)))
     end)
    close.

End RetrieveMemory.

(* ================================================================= *)
(** ** [search_memories] *)

(** A row of [entities e LEFT JOIN observations o]: the observation columns
    are NULL for an entity without observations. *)
Module Joined.
Record row : Type := Row {
  entity : Entity.row;
  content : option string;
  added_at : option string
}.

Definition opt_eqb (a b : option string) : bool :=
  match a, b with
  | None, None => true
  | Some x, Some y => String.eqb x y
  | _, _ => false
  end.

Definition eqb (a b : row) : bool :=
  Entity.eqb (entity a) (entity b)
  && opt_eqb (content a) (content b)
  && opt_eqb (added_at a) (added_at b).

Definition id (r : row) : Z := Entity.id (entity r).
Definition updated_at (r : row) : string := Entity.updated_at (entity r).
End Joined.

(** An element of [results]. *)
Module Hit.
Record t : Type := Make {
  name : string;
  type : string;
  database : string;
  salience : string;
  observations : list (string * option string)   (* content, added *)
}.

Definition add_observation (h : t) (o : string * option string) : t :=
  Make (name h) (type h) (database h) (salience h) (observations h ++ [o]).
End Hit.

(** The dictionary [search_memories] returns. *)
Record search_reply : Type := SearchReply {
  search_query : string;
  search_count : Z;
  search_results : list Hit.t
}.

Module SearchSql.

(** [FROM entities e LEFT JOIN observations o ON e.id = o.entity_id]. *)
Definition left_join (s : memory_db) : list Joined.row :=
  flat_map
    (fun e =>
       match filter (fun o => Entity.id e =? Observation.entity_id o)
                    (observations s) with
       | [] => [Joined.Row e None None]
       | os => map (fun o => Joined.Row e (Some (Observation.content o))
                                          (Some (Observation.added_at o))) os
       end)
    (entities s).

(** [WHERE (e.name LIKE ? OR o.content LIKE ?)]: a NULL content matches
    nothing. *)
Definition matches (pattern : string) (r : Joined.row) : bool :=
  Sql.like pattern (Entity.name (Joined.entity r))
  || match Joined.content r with
     | Some c => Sql.like pattern c
     | None => false
     end.

(** The [db_filter]: [AND e.database IN (?, ..., ?)] when [databases] is
    a non-empty list, nothing otherwise. *)
Definition db_filter (databases : option (list string)) (e : Entity.row) : bool :=
  if Py.truthy_list databases
  then Sql.is_in (Entity.database e) (Py.or_list databases [])
  else true.

(** The rows that pass the [WHERE] clause, before [ORDER BY] and [LIMIT]. *)
Definition candidates (pattern : string) (databases : option (list string))
                      (s : memory_db) : list Joined.row :=
  Sql.distinct Joined.eqb
    (filter (fun r => matches pattern r && db_filter databases (Joined.entity r))
            (left_join s)).

(** The whole [SELECT DISTINCT ... ORDER BY e.updated_at DESC LIMIT ?]. *)
Definition select (pattern : string) (databases : option (list string))
                  (limit : Z) (s : memory_db) : list Joined.row :=
  Sql.limit limit
    (Sql.order_by_desc String.leb Joined.updated_at (candidates pattern databases s)).

End SearchSql.

(** [entities_map]: a Python dictionary keyed by entity id, in insertion
    order. *)
Definition entities_map : Type := list (Z * Hit.t).

Definition map_has (k : Z) (m : entities_map) : bool :=
  existsb (fun kv => fst kv =? k) m.

Definition map_update (k : Z) (f : Hit.t -> Hit.t) (m : entities_map) : entities_map :=
  map (fun kv => if fst kv =? k then (fst kv, f (snd kv)) else kv) m.

(** One turn of the loop [for row in results]. *)
Definition group_row (m : entities_map) (row : Joined.row) : entities_map :=
  let entity_id := Joined.id row in
  let e := Joined.entity row in
  let m1 :=
    if map_has entity_id m then m
    else (m ++ [(entity_id,
                 Hit.Make (Entity.name e) (Entity.entity_type e)
                          (Entity.database e) (Entity.salience e) [])])%list in
  match Joined.content row with
  | Some c =>
      if Py.truthy c
      then map_update entity_id
             (fun h => Hit.add_observation h (c, Joined.added_at row)) m1
      else m1
  | None => m1
  end.

Definition group_rows (rows : list Joined.row) : entities_map :=
  fold_left group_row rows [].

Section SearchMemories.
Local Open Scope db_scope.

Definition search_memories (query_text : string) (databases : option (list string))
                           (limit : Z) : Db memory_db search_reply :=
  connect ;;
  try_finally
    (let search_pattern := "%" ++ query_text ++ "%" in
     results <- query (SearchSql.select search_pattern databases limit) ;;
     let m := group_rows results in
     ret (SearchReply query_text (Z.of_nat (List.length m)) (map snd m)))
    close.

End SearchMemories.

(* ================================================================= *)
(** ** [list_entities] *)

Module Listed.
Record t : Type := Make {
  name : string;
  type : string;
  salience : string;
  updated : string;
  recent_observations : list string
}.
End Listed.

Record list_reply : Type := ListReply {
  list_database : string;
  list_count : Z;
  list_entities_of : list Listed.t
}.

Section ListEntities.
Local Open Scope db_scope.

(** A [for] loop that runs one computation per element and collects the
    values. *)
Fixpoint for_each {S A B : Type} (xs : list A) (body : A -> Db S B) : Db S (list B) :=
  match xs with
  | [] => ret []
  | x :: rest =>
      y <- body x ;;
      ys <- for_each rest body ;;
      ret (y :: ys)
  end.

(** [SELECT * FROM entities WHERE database = ? [AND salience = ?]
    ORDER BY updated_at DESC LIMIT ?]. *)
Definition select_listed (database : string) (salience : option string)
                         (limit : Z) (s : memory_db) : list Entity.row :=
  Sql.limit limit
    (Sql.order_by_desc String.leb Entity.updated_at
       (filter (fun e =>
                  String.eqb (Entity.database e) database
                  && match salience with
                     | Some sal => if Py.truthy sal
                                   then String.eqb (Entity.salience e) sal
                                   else true
                     | None => true
                     end)
               (entities s))).

Definition list_entities (database : string) (salience : option string)
                         (limit : Z) : Db memory_db list_reply :=
  connect ;;
  try_finally
    (rows <- query (select_listed database salience limit) ;;
     result_list <-
       for_each rows
         (fun e =>
            obs <- query (fun s => Sql.limit 3
                                     (MemorySql.select_observations (Entity.id e) s)) ;;
            ret (Listed.Make (Entity.name e) (Entity.entity_type e)
                             (Entity.salience e) (Entity.updated_at e)
                             (map Observation.content obs))) ;;
     ret (ListReply database (Z.of_nat (List.length result_list)) result_list))
    close.

End ListEntities.

(* ================================================================= *)
(** ** [update_entity] *)

Inductive update_reply : Type :=
| UpdateSuccess (message : string)
| UpdateFailure (error : string).

(** The columns an [UPDATE entities SET ...] of [update_entity] assigns. *)
Inductive column : Type := col_name | col_entity_type | col_salience | col_updated_at.

Definition assign (e : Entity.row) (a : column * string) : Entity.row :=
  match a with
  | (col_name, v) =>
      Entity.Row (Entity.id e) v (Entity.entity_type e) (Entity.database e)
                 (Entity.salience e) (Entity.created_at e) (Entity.updated_at e)
  | (col_entity_type, v) =>
      Entity.Row (Entity.id e) (Entity.name e) v (Entity.database e)
                 (Entity.salience e) (Entity.created_at e) (Entity.updated_at e)
  | (col_salience, v) =>
      Entity.Row (Entity.id e) (Entity.name e) (Entity.entity_type e)
                 (Entity.database e) v (Entity.created_at e) (Entity.updated_at e)
  | (col_updated_at, v) =>
      Entity.Row (Entity.id e) (Entity.name e) (Entity.entity_type e)
                 (Entity.database e) (Entity.salience e) (Entity.created_at e) v
  end.

(** [UPDATE entities SET c1 = ?, ..., cn = ? WHERE id = ?].  The statement
    raises when a row it rewrites would share its (name, database) with
    another row. *)
Definition update_entities (updates : list (column * string)) (eid : Z)
                           (s : memory_db) : outcome (unit * memory_db) :=
  let rewrite_row (e : Entity.row) :=
    if Entity.id e =? eid then fold_left assign updates e else e in
  let rows := map rewrite_row (entities s) in
  if existsb
       (fun e =>
          (Entity.id e =? eid)
          && existsb (fun q => negb (Entity.id q =? Entity.id e)
                               && Entity.has_key (Entity.name e) (Entity.database e) q)
                     rows)
       rows
  then Raised "UNIQUE constraint failed: entities.name, entities.database"
  else Returned (tt, MemoryDb rows (observations s)
                              (seq_entities s) (seq_observations s)).

(** [if v: updates.append(...)]: the assignment is made for a value that
    is neither [None] nor empty. *)
Definition provided (c : column) (v : option string) : list (column * string) :=
  match v with
  | Some x => if Py.truthy x then [(c, x)] else []
  | None => []
  end.

Section UpdateEntity.
Local Open Scope db_scope.

Definition update_entity (entity_name database : string)
                         (new_name new_type new_salience : option string)
                         (now : string) : Db memory_db update_reply :=
  connect ;;
  try_finally
    (entity <- query (MemorySql.select_entity entity_name database) ;;
     match entity with
     | None => ret (UpdateFailure ("Entity '" ++ entity_name ++ "' not found"))
     | Some e =>
         let updates := (provided col_name new_name
                         ++ provided col_entity_type new_type
                         ++ provided col_salience new_salience)%list in
         match updates with
         | [] => ret (UpdateFailure "No updates specified")
         | _ :: _ =>
             let updates := (updates ++ [(col_updated_at, now)])%list in
             execute (update_entities updates (Entity.id e)) ;;
             commit ;;
             ret (UpdateSuccess ("Entity '" ++ entity_name
                                 ++ "' updated successfully"))
         end
     end)
    close.

End UpdateEntity.

(* ================================================================= *)
(** ** [get_context_block] *)

Module ContextSql.

(** [SELECT e.*, o.content FROM entities e LEFT JOIN observations o
    ON e.id = o.entity_id WHERE e.salience = 'foundational'
    [AND e.database IN (...)] ORDER BY e.updated_at DESC]. *)
Definition foundational (databases : option (list string)) (s : memory_db)
  : list Joined.row :=
  Sql.order_by_desc String.leb Joined.updated_at
    (filter (fun r =>
               String.eqb (Entity.salience (Joined.entity r)) "foundational"
               && SearchSql.db_filter databases (Joined.entity r))
            (SearchSql.left_join s)).

(** A row of [observations o JOIN entities e ON o.entity_id = e.id]. *)
Record recent_row : Type := Recent {
  r_name : string;
  r_entity_type : string;
  r_content : string;
  r_added_at : string
}.

Definition inner_join (s : memory_db) : list (Observation.row * Entity.row) :=
  flat_map
    (fun o => map (fun e => (o, e))
                  (filter (fun e => Observation.entity_id o =? Entity.id e)
                          (entities s)))
    (observations s).

(** [SELECT e.name, e.entity_type, o.content, o.added_at ...
    WHERE o.added_at > ? [AND e.database IN (...)]
    ORDER BY o.added_at DESC LIMIT 10]. *)
Definition recent (cutoff_iso : string) (databases : option (list string))
                  (s : memory_db) : list recent_row :=
  Sql.limit 10
    (Sql.order_by_desc String.leb r_added_at
       (map (fun oe => Recent (Entity.name (snd oe)) (Entity.entity_type (snd oe))
                              (Observation.content (fst oe))
                              (Observation.added_at (fst oe)))
            (filter (fun oe =>
                       String.ltb cutoff_iso (Observation.added_at (fst oe))
                       && SearchSql.db_filter databases (snd oe))
                    (inner_join s)))).

End ContextSql.

(** [entity_obs]: a dictionary keyed by entity name, holding the type and
    the observation texts. *)
Definition entity_obs : Type := list (string * (string * list string)).

Definition collect_row (m : entity_obs) (row : Joined.row) : entity_obs :=
  let name := Entity.name (Joined.entity row) in
  let m1 :=
    if existsb (fun kv => String.eqb (fst kv) name) m then m
    else (m ++ [(name, (Entity.entity_type (Joined.entity row), []))])%list in
  match Joined.content row with
  | Some c =>
      if Py.truthy c
      then map (fun kv => if String.eqb (fst kv) name
                          then (fst kv, (fst (snd kv), (snd (snd kv) ++ [c])%list))
                          else kv) m1
      else m1
  | None => m1
  end.

(** [f"{name} ({data['type']}): {obs_text}"]. *)
Definition core_line (kv : string * (string * list string)) : string :=
  fst kv ++ " (" ++ fst (snd kv) ++ "): " ++ Py.join "; " (firstn 3 (snd (snd kv))).

(** The lines of the section "Core Knowledge". *)
Definition core_lines (rows : list Joined.row) : list string :=
  match rows with
  | [] => []
  | _ :: _ =>
      "## Core Knowledge"
      :: List.app (map core_line (firstn 10 (fold_left collect_row rows []))) [""]
  end.

(** [f"{row['name']}: {row['content']}"]. *)
Definition recent_line (r : ContextSql.recent_row) : string :=
  ContextSql.r_name r ++ ": " ++ ContextSql.r_content r.

(** The lines of the section "Recent Activity". *)
Definition recent_lines (rows : list ContextSql.recent_row) : list string :=
  match rows with
  | [] => []
  | _ :: _ => "## Recent Activity" :: List.app (map recent_line rows) [""]
  end.

Definition truncation_marker : string :=
  Py.nl ++ "...[truncated]" ++ Py.nl ++ "[END MEMORY CONTEXT]" ++ Py.nl ++ Py.nl.

(** The last step: the length check and the cut. *)
Definition enforce_length (max_length : Z) (result : string) : string :=
  if Py.len result >? max_length
  then Py.slice_to result (max_length - 50) ++ truncation_marker
  else result.

Section GetContextBlock.
Local Open Scope db_scope.

(** [now] is the value of [now_iso()] in the header.  [cutoff_iso] is the
    text [datetime.fromtimestamp(cutoff).isoformat()] that the tool
    computes from the clock and [include_recent_hours] between its two
    queries; the tool is embedded for the calls in which this computation
    gives a text (with hours that take the time out of the range of
    [datetime], it raises instead). *)
Definition get_context_block (max_length : Z) (databases : option (list string))
                             (now cutoff_iso : string) : Db memory_db string :=
  connect ;;
  try_finally
    (let header := ["[COMPANION MEMORY CONTEXT]"; "Last updated: " ++ now; ""] in
     foundational <- query (ContextSql.foundational databases) ;;
     recent <- query (ContextSql.recent cutoff_iso databases) ;;
     let parts :=
       List.app header
         (List.app (core_lines foundational)
            (List.app (recent_lines recent) ["[END MEMORY CONTEXT]"; ""])) in
     ret (enforce_length max_length (Py.join Py.nl parts)))
    close.

End GetContextBlock.

(* ================================================================= *)
(** ** JSON text: [json.dumps] and [json.loads] *)

Module Json.

(** The Python values [json.dumps] takes and [json.loads] gives: [None],
    booleans, integers, strings, lists, tuples and dictionaries with
    string keys, their members in insertion order.  Floating-point numbers
    and dictionaries with other keys are not part of the model. *)
Inductive value : Type :=
| Null
| Bool (b : bool)
| Int (z : Z)
| Str (s : string)
| Arr (xs : list value)
| Obj (members : list (string * value))
| Tuple (items : list value).

Definition dquote : ascii := ascii_of_nat 34.
Definition backslash : ascii := ascii_of_nat 92.

(** *** Writing *)

Definition hex_digit (n : nat) : ascii :=
  (match n with
   | 0 => "0" | 1 => "1" | 2 => "2" | 3 => "3" | 4 => "4" | 5 => "5"
   | 6 => "6" | 7 => "7" | 8 => "8" | 9 => "9" | 10 => "a" | 11 => "b"
   | 12 => "c" | 13 => "d" | 14 => "e" | _ => "f"
   end)%nat%char.

(** [ESCAPE_DCT] of the encoder, with [ensure_ascii=False]. *)
Definition escape_char (c : ascii) : string :=
  let n := nat_of_ascii c in
  if (c =? dquote)%char then String backslash (String dquote "")
  else if (c =? backslash)%char then String backslash (String backslash "")
  else if (n =? 8)%nat then String backslash "b"
  else if (n =? 12)%nat then String backslash "f"
  else if (n =? 10)%nat then String backslash "n"
  else if (n =? 13)%nat then String backslash "r"
  else if (n =? 9)%nat then String backslash "t"
  else if (n <? 32)%nat then
    String backslash
      (String "u" (String "0" (String "0"
         (String (hex_digit (n / 16)) (String (hex_digit (n mod 16)) "")))))
  else String c "".

Fixpoint escape (s : string) : string :=
  match s with
  | EmptyString => ""
  | String c t => escape_char c ++ escape t
  end.

Definition quote (s : string) : string :=
  String dquote (escape s ++ String dquote "").

(** [str(z)]. *)
Definition dumps_int (z : Z) : string :=
  DecimalString.NilZero.string_of_int (Z.to_int z).

(** [json.dumps(v, ensure_ascii=False)], with the default separators.  The
    encoder writes a tuple as it writes a list. *)
Fixpoint dumps (v : value) : string :=
  match v with
  | Null => "null"
  | Bool true => "true"
  | Bool false => "false"
  | Int z => dumps_int z
  | Str s => quote s
  | Arr xs => "[" ++ Py.join ", " (map dumps xs) ++ "]"
  | Obj members =>
      "{" ++ Py.join ", " (map (fun kv => quote (fst kv) ++ ": " ++ dumps (snd kv))
                               members)
          ++ "}"
  | Tuple items => "[" ++ Py.join ", " (map dumps items) ++ "]"
  end.

(** *** Reading *)

Definition is_ws (c : ascii) : bool :=
  let n := nat_of_ascii c in
  ((n =? 32) || (n =? 9) || (n =? 10) || (n =? 13))%nat.

Fixpoint skip_ws (s : string) : string :=
  match s with
  | EmptyString => ""
  | String c t => if is_ws c then skip_ws t else s
  end.

Definition is_digit (c : ascii) : bool :=
  let n := nat_of_ascii c in ((48 <=? n) && (n <=? 57))%nat.

(** The longest run of digits at the head of [s], and what follows. *)
Fixpoint span_digits (s : string) : string * string :=
  match s with
  | EmptyString => ("", "")
  | String c t =>
      if is_digit c
      then let (ds, rest) := span_digits t in (String c ds, rest)
      else ("", s)
  end.

(** [BACKSLASH] of the decoder. *)
Definition unescape (e : ascii) : option ascii :=
  (if e =? dquote then Some dquote
   else if e =? backslash then Some backslash
   else if e =? "/" then Some "/"
   else if e =? "b" then Some (ascii_of_nat 8)
   else if e =? "f" then Some (ascii_of_nat 12)
   else if e =? "n" then Some (ascii_of_nat 10)
   else if e =? "r" then Some (ascii_of_nat 13)
   else if e =? "t" then Some (ascii_of_nat 9)
   else None)%char.

Definition hex_value (c : ascii) : option nat :=
  let n := nat_of_ascii c in
  (if (48 <=? n) && (n <=? 57) then Some (n - 48)
   else if (97 <=? n) && (n <=? 102) then Some (n - 87)
   else if (65 <=? n) && (n <=? 70) then Some (n - 55)
   else None)%nat.

(** The character of [\uXXXX]; a code above 255 has no character in the
    model. *)
Definition hex4 (a b c d : ascii) : option ascii :=
  match hex_value a, hex_value b, hex_value c, hex_value d with
  | Some x, Some y, Some z, Some w =>
      let n := (x * 4096 + y * 256 + z * 16 + w)%nat in
      if (n <? 256)%nat then Some (ascii_of_nat n) else None
  | _, _, _, _ => None
  end.

(** [scanstring], strict: the text after an opening quote, up to the
    closing one. *)
Fixpoint scan_string (s : string) : option (string * string) :=
  match s with
  | EmptyString => None
  | String c t =>
      if (c =? dquote)%char then Some ("", t)
      else if (c =? backslash)%char then
        match t with
        | EmptyString => None
        | String e t1 =>
            if (e =? "u")%char then
              match t1 with
              | String h1 (String h2 (String h3 (String h4 t2))) =>
                  match hex4 h1 h2 h3 h4, scan_string t2 with
                  | Some d, Some (body, rest) => Some (String d body, rest)
                  | _, _ => None
                  end
              | _ => None
              end
            else
              match unescape e, scan_string t1 with
              | Some d, Some (body, rest) => Some (String d body, rest)
              | _, _ => None
              end
        end
      else if (nat_of_ascii c <? 32)%nat then None
      else
        match scan_string t with
        | Some (body, rest) => Some (String c body, rest)
        | None => None
        end
  end.

(** An integer literal: an optional minus sign, then either a lone zero
    or a run of digits that starts with a non-zero digit.  A literal that
    goes on as a fraction or an exponent is not an integer of the model. *)
Definition scan_int (s : string) : option (Z * string) :=
  let (sign, digits) :=
    match s with
    | String c t => if (c =? "-")%char then ("-", t) else ("", s)
    | EmptyString => ("", s)
    end in
  let (ds, rest) :=
    match digits with
    | String c t => if (c =? "0")%char then ("0", t) else span_digits digits
    | EmptyString => ("", digits)
    end in
  match ds, rest with
  | EmptyString, _ => None
  | _, String c _ =>
      if ((c =? ".") || (c =? "e") || (c =? "E"))%char then None
      else option_map (fun d => (Z.of_int d, rest))
                      (DecimalString.NilZero.int_of_string (sign ++ ds))
  | _, EmptyString =>
      option_map (fun d => (Z.of_int d, rest))
                 (DecimalString.NilZero.int_of_string (sign ++ ds))
  end.

(** What follows the literal [p] at the head of [s], if it is there. *)
Fixpoint strip_prefix (p s : string) : option string :=
  match p with
  | EmptyString => Some s
  | String a p' =>
      match s with
      | EmptyString => None
      | String b s' => if (a =? b)%char then strip_prefix p' s' else None
      end
  end.

(** [dict(pairs)]: a later member replaces the value of an earlier one
    with the same key. *)
Definition dict_set (m : list (string * value)) (kv : string * value)
  : list (string * value) :=
  if existsb (fun q => String.eqb (fst q) (fst kv)) m
  then map (fun q => if String.eqb (fst q) (fst kv) then (fst q, snd kv) else q) m
  else (m ++ [kv])%list.

Definition dict_of_pairs (pairs : list (string * value)) : list (string * value) :=
  fold_left dict_set pairs [].

(** The scanner: a value at the head of [s], and what follows. *)
Fixpoint scan_value (fuel : nat) (s : string) : option (value * string) :=
  match fuel with
  | O => None
  | S fuel' =>
      match s with
      | EmptyString => None
      | String c t =>
          if (c =? dquote)%char then
            match scan_string t with
            | Some (x, rest) => Some (Str x, rest)
            | None => None
            end
          else if (c =? "[")%char then
            match skip_ws t with
            | EmptyString => None
            | String c1 t1 =>
                if (c1 =? "]")%char then Some (Arr [], t1)
                else
                  match scan_elements fuel' (String c1 t1) with
                  | Some (xs, rest) => Some (Arr xs, rest)
                  | None => None
                  end
            end
          else if (c =? "{")%char then
            match skip_ws t with
            | EmptyString => None
            | String c1 t1 =>
                if (c1 =? "}")%char then Some (Obj [], t1)
                else
                  match scan_members fuel' (String c1 t1) with
                  | Some (ms, rest) => Some (Obj (dict_of_pairs ms), rest)
                  | None => None
                  end
            end
          else
            match strip_prefix "null" s, strip_prefix "true" s,
                  strip_prefix "false" s with
            | Some rest, _, _ => Some (Null, rest)
            | None, Some rest, _ => Some (Bool true, rest)
            | None, None, Some rest => Some (Bool false, rest)
            | None, None, None =>
                match scan_int s with
                | Some (z, rest) => Some (Int z, rest)
                | None => None
                end
            end
      end
  end
with scan_elements (fuel : nat) (s : string) : option (list value * string) :=
  match fuel with
  | O => None
  | S fuel' =>
      match scan_value fuel' s with
      | None => None
      | Some (v, rest) =>
          match skip_ws rest with
          | EmptyString => None
          | String c t =>
              if (c =? ",")%char then
                match scan_elements fuel' (skip_ws t) with
                | Some (vs, rest') => Some (v :: vs, rest')
                | None => None
                end
              else if (c =? "]")%char then Some ([v], t)
              else None
          end
      end
  end
with scan_members (fuel : nat) (s : string) : option (list (string * value) * string) :=
  match fuel with
  | O => None
  | S fuel' =>
      match s with
      | EmptyString => None
      | String c t =>
          if (c =? dquote)%char then
            match scan_string t with
            | None => None
            | Some (k, rest) =>
                match skip_ws rest with
                | EmptyString => None
                | String c1 t1 =>
                    if (c1 =? ":")%char then
                      match scan_value fuel' (skip_ws t1) with
                      | None => None
                      | Some (v, rest1) =>
                          match skip_ws rest1 with
                          | EmptyString => None
                          | String c2 t2 =>
                              if (c2 =? ",")%char then
                                match scan_members fuel' (skip_ws t2) with
                                | Some (ms, rest2) => Some ((k, v) :: ms, rest2)
                                | None => None
                                end
                              else if (c2 =? "}")%char then Some ([(k, v)], t2)
                              else None
                          end
                      end
                    else None
                end
            end
          else None
      end
  end.

(** [json.loads(text)]: one value, with nothing but white space around
    it; anything else raises.  The length of the text is fuel enough. *)
Definition loads (text : string) : outcome value :=
  match scan_value (Datatypes.S (String.length text)) (skip_ws text) with
  | Some (v, rest) =>
      match skip_ws rest with
      | EmptyString => Returned v
      | String _ _ => Raised "Extra data"
      end
  | None => Raised "Expecting value"
  end.

End Json.

(* ================================================================= *)
(** ** The Void: the journal database *)

(** A row of [entries]; the TEXT columns of the schema admit NULL. *)
Module Entry.
Record row : Type := Row {
  id : Z;
  created_at : string;
  session_id : option string;
  thread_id : option string;
  title : option string;
  summary : option string;
  decisions : option string;
  open_loops : option string;
  artifacts_json : option string;
  tags_json : option string;
  importance : Z
}.
End Entry.

(** A row of the full-text table [entries_fts]. *)
Module Fts.
Record row : Type := Row {
  rowid : Z;
  title : string;
  summary : string;
  decisions : string;
  open_loops : string;
  artifacts_text : string;
  tags_text : string
}.
End Fts.

Record void_db : Type := VoidDb {
  entries : list Entry.row;
  entries_fts : list Fts.row;
  seq_entries : Z
}.

(** The database after [init_void_database] on a fresh file. *)
Definition empty_void_db : void_db := VoidDb [] [] 0.

Module VoidSql.

(** [COALESCE(x, '')]. *)
Definition coalesce (x : option string) : string :=
  match x with Some v => v | None => "" end.

(** The body of the trigger [entries_ai], fired after the insert of
    [new]. *)
Definition entries_ai (new : Entry.row) (fts : list Fts.row) : list Fts.row :=
  (fts ++ [Fts.Row (Entry.id new)
                   (coalesce (Entry.title new)) (coalesce (Entry.summary new))
                   (coalesce (Entry.decisions new)) (coalesce (Entry.open_loops new))
                   (coalesce (Entry.artifacts_json new))
                   (coalesce (Entry.tags_json new))])%list.

(** [INSERT INTO entries (created_at, session_id, thread_id, title,
    summary, decisions, open_loops, artifacts_json, tags_json,
    importance) VALUES (?, ..., ?)], with its trigger; the value is
    [cur.lastrowid].  This is the statement for an [importance] and a new
    rowid within [Sql.int64]. *)
Definition insert_entry (created_at : string) (session_id thread_id : option string)
                        (title summary decisions open_loops : option string)
                        (artifacts_json tags_json : option string) (importance : Z)
                        (s : void_db) : outcome (Z * void_db) :=
  let eid := Sql.next_rowid (seq_entries s) (map Entry.id (entries s)) in
  let new := Entry.Row eid created_at session_id thread_id title summary
                       decisions open_loops artifacts_json tags_json importance in
  Returned (eid, VoidDb (entries s ++ [new]) (entries_ai new (entries_fts s)) eid).

(** [SELECT * FROM entries WHERE id = ?], [fetchone()], for an [entry_id]
    within [Sql.int64]. *)
Definition select_entry (entry_id : Z) (s : void_db) : option Entry.row :=
  find (fun e => Entry.id e =? entry_id) (entries s).

(** The columns of [entries], and those of [entries_fts]. *)
Definition entries_columns : list string :=
  ["id"; "created_at"; "session_id"; "thread_id"; "title"; "summary";
   "decisions"; "open_loops"; "artifacts_json"; "tags_json"; "importance"].

Definition fts_columns : list string :=
  ["title"; "summary"; "decisions"; "open_loops"; "artifacts_text"; "tags_text"].

(** [entries_fts] is declared with [content='entries'] and
    [content_rowid='id']: the index holds the terms of its rows, not their
    text.  When the text of a row is asked for, the engine reads it from
    the content table with one statement that selects the columns of the
    index by their names, [... FROM entries WHERE id = ?]; the statement
    is in error when [entries] lacks one of them.  (Otherwise it gives,
    for a row that the trigger wrote and nothing changed since, the text
    that was indexed.) *)
Definition content_columns_missing : list string :=
  filter (fun c => negb (Sql.is_in c entries_columns)) fts_columns.

Definition read_content (f : Fts.row) : outcome Fts.row :=
  match content_columns_missing with
  | [] => Returned f
  | _ :: _ => Raised "SQL logic error"
  end.

(** [SELECT id, created_at, title, importance FROM entries
    ORDER BY id DESC LIMIT ?]. *)
Definition select_recent (limit : Z) (s : void_db)
  : list (Z * string * option string * Z) :=
  map (fun e => (Entry.id e, Entry.created_at e, Entry.title e, Entry.importance e))
      (Sql.limit limit (Sql.order_by_desc Z.leb Entry.id (entries s))).

End VoidSql.

(** The dictionary [void_write_entry] returns. *)
Record write_reply : Type := WriteReply {
  write_ok : bool;
  write_id : Z
}.

(** [x or {}] on the [artifacts] argument. *)
Definition artifacts_or_empty (artifacts : option (list (string * Json.value)))
  : list (string * Json.value) :=
  Py.or_list artifacts [].

Section VoidWrite.
Local Open Scope db_scope.

Definition void_write_entry (title summary : string)
                            (decisions open_loops : option string)
                            (artifacts : option (list (string * Json.value)))
                            (tags : option (list string))
                            (importance : Z)
                            (session_id thread_id : option string)
                            (now : string) : Db void_db write_reply :=
  let artifacts_json := Json.dumps (Json.Obj (artifacts_or_empty artifacts)) in
  let tags_json := Json.dumps (Json.Arr (map Json.Str (Py.or_list tags []))) in
  entry_id <-
    (connect ;;
     try_finally
       (entry_id <- execute (VoidSql.insert_entry now session_id thread_id
                               (Some title) (Some summary) decisions open_loops
                               (Some artifacts_json) (Some tags_json) importance) ;;
        commit ;;
        ret entry_id)
       close) ;;
  ret (WriteReply true entry_id).

Definition void_append_snippet (text : string) (tags : option (list string))
                               (session_id thread_id : option string)
                               (importance : Z) (now : string)
  : Db void_db write_reply :=
  void_write_entry "Snippet" text (Some "") (Some "")
                   (Some [("snippet", Json.Str text)])
                   (Some (Py.or_list tags ["snippet"]))
                   importance session_id thread_id now.

End VoidWrite.

(** The [entry] dictionary of a successful [void_get_entry]. *)
Module EntryView.
Record t : Type := Make {
  id : Z;
  created_at : string;
  session_id : option string;
  thread_id : option string;
  title : option string;
  summary : option string;
  decisions : option string;
  open_loops : option string;
  artifacts : Json.value;
  tags : Json.value;
  importance : Z
}.
End EntryView.

Inductive get_reply : Type :=
| GetSuccess (entry : EntryView.t)
| GetFailure (error : string).

(** [text or default] on a nullable TEXT column. *)
Definition text_or (x : option string) (default : string) : string :=
  match x with
  | Some v => if Py.truthy v then v else default
  | None => default
  end.

(** [json.loads] as a step of a tool: its exception is the tool's. *)
Definition json_loads {S : Type} (text : string) : Db S Json.value :=
  fun c => (Json.loads text, c).

Section VoidRead.
Local Open Scope db_scope.

Definition void_get_entry (entry_id : Z) : Db void_db get_reply :=
  row <- (connect ;;
          try_finally (query (VoidSql.select_entry entry_id)) close) ;;
  match row with
  | None => ret (GetFailure "not_found")
  | Some r =>
      artifacts <- json_loads (text_or (Entry.artifacts_json r) "{}") ;;
      tags <- json_loads (text_or (Entry.tags_json r) "[]") ;;
      ret (GetSuccess
             (EntryView.Make (Entry.id r) (Entry.created_at r) (Entry.session_id r)
                             (Entry.thread_id r) (Entry.title r) (Entry.summary r)
                             (Entry.decisions r) (Entry.open_loops r)
                             artifacts tags (Entry.importance r)))
  end.

Definition void_list_recent (limit : Z)
  : Db void_db (list (Z * string * option string * Z)) :=
  connect ;;
  try_finally (query (VoidSql.select_recent limit)) close.

(** The full-text engine of SQLite is not part of the server: which index
    rows a [MATCH] query selects and how [snippet()] marks up a text are
    parameters.  [fts5_match q] is [None] when [q] is not a query the
    engine accepts (the statement raises). *)
Variable fts5_match : string -> option (Fts.row -> bool).
Variable fts5_snippet : string -> Fts.row -> string.

(** [snippet(entries_fts, 1, '[', ']', ..., 15)] on an index row: the
    text of the row is read first. *)
Definition snippet (q : string) (f : Fts.row) : outcome string :=
  match VoidSql.read_content f with
  | Returned text => Returned (fts5_snippet q text)
  | Raised e => Raised e
  end.

(** [SELECT e.id, e.created_at, e.title, snippet(...) FROM entries_fts
    JOIN entries e ON e.id = entries_fts.rowid WHERE entries_fts MATCH ?
    ORDER BY e.id DESC LIMIT ?].  With [LIMIT 0] no row is computed. *)
Definition select_match (q : string) (limit : Z) (s : void_db)
  : outcome (list (Z * string * option string * string) * void_db) :=
  match fts5_match q with
  | None => Raised "fts5: syntax error"
  | Some hit =>
      match Sql.result_rows
              (fun fe =>
                 match snippet q (fst fe) with
                 | Returned text =>
                     Returned (Entry.id (snd fe), Entry.created_at (snd fe),
                               Entry.title (snd fe), text)
                 | Raised e => Raised e
                 end)
              (Sql.limit limit
                 (Sql.order_by_desc Z.leb (fun fe => Entry.id (snd fe))
                    (flat_map
                       (fun f => map (fun e => (f, e))
                                     (filter (fun e => Entry.id e =? Fts.rowid f)
                                             (entries s)))
                       (filter hit (entries_fts s)))))
      with
      | Returned rows => Returned (rows, s)
      | Raised e => Raised e
      end
  end.

Definition void_search (q : string) (limit : Z)
  : Db void_db (list (Z * string * option string * string)) :=
  connect ;;
  try_finally (execute (select_match q limit)) close.

End VoidRead.

(** A call of one of the journal tools, with its arguments and the clock
    value it reads. *)
Inductive journal_call : Type :=
| CallWrite (title summary : string) (decisions open_loops : option string)
            (artifacts : option (list (string * Json.value)))
            (tags : option (list string)) (importance : Z)
            (session_id thread_id : option string) (now : string)
| CallSnippet (text : string) (tags : option (list string))
              (session_id thread_id : option string) (importance : Z) (now : string)
| CallSearch (q : string) (limit : Z)
| CallGet (entry_id : Z)
| CallRecent (limit : Z).

Section Journal.
Variable fts5_match : string -> option (Fts.row -> bool).
Variable fts5_snippet : string -> Fts.row -> string.

(** The database a call leaves behind, under a fault plan. *)
Definition journal_step (s : void_db) (cp : journal_call * plan) : void_db :=
  match cp with
  | (CallWrite t sm d o a tg i sid tid now, p) =>
      snd (run (void_write_entry t sm d o a tg i sid tid now) p s)
  | (CallSnippet tx tg sid tid i now, p) =>
      snd (run (void_append_snippet tx tg sid tid i now) p s)
  | (CallSearch q l, p) => snd (run (void_search fts5_match fts5_snippet q l) p s)
  | (CallGet i, p) => snd (run (void_get_entry i) p s)
  | (CallRecent l, p) => snd (run (void_list_recent l) p s)
  end.

Definition journal_run (s : void_db) (calls : list (journal_call * plan)) : void_db :=
  fold_left journal_step calls s.
End Journal.

(** The index is in step with the table: the rowids of [entries_fts] are
    the ids of [entries], each once. *)
Definition in_lockstep (s : void_db) : Prop :=
  map Fts.rowid (entries_fts s) = map Entry.id (entries s)
  /\ NoDup (map Entry.id (entries s)).

(** A run of calls of [store_memory] on one (name, database): each call
    has its own observation, type, salience and clock value.  The value is
    the list of replies and the database left behind. *)
Record store_args : Type := StoreArgs {
  arg_observation : string;
  arg_entity_type : string;
  arg_salience : string;
  arg_now : string
}.

Fixpoint store_all (entity_name database : string) (calls : list store_args)
                   (s : memory_db) : list (outcome store_reply) * memory_db :=
  match calls with
  | [] => ([], s)
  | a :: rest =>
      let (r, s1) := run (store_memory entity_name (arg_observation a)
                                       (arg_entity_type a) database
                                       (arg_salience a) (arg_now a))
                         no_faults s in
      let (rs, s2) := store_all entity_name database rest s1 in
      (r :: rs, s2)
  end.

Definition reply_action (r : outcome store_reply) : option action :=
  match r with
  | Returned (StoreSuccess a _ _ _ _) => Some a
  | _ => None
  end.

(** The number of rows of [entities] with the identity (name, database). *)
Definition count_key (entity_name database : string) (s : memory_db) : nat :=
  List.length (filter (Entity.has_key entity_name database) (entities s)).

(** What [UPDATE entities SET updated_at = ? WHERE id = ?] does to a row. *)
Definition touched (now : string) (eid : Z) (e : Entity.row) : Entity.row :=
  if Entity.id e =? eid then
    Entity.Row (Entity.id e) (Entity.name e) (Entity.entity_type e)
               (Entity.database e) (Entity.salience e) (Entity.created_at e) now
  else e.

(** Two rows that differ at most in [updated_at]. *)
Definition same_but_updated_at (a b : Entity.row) : Prop :=
  Entity.id b = Entity.id a /\ Entity.name b = Entity.name a
  /\ Entity.entity_type b = Entity.entity_type a
  /\ Entity.database b = Entity.database a
  /\ Entity.salience b = Entity.salience a
  /\ Entity.created_at b = Entity.created_at a.

(** A small memory database for the examples. *)
Definition lincoln_db : memory_db :=
  MemoryDb [Entity.Row 1 "Lincoln" "person" "default" "foundational"
                       "2024-01-01T10:00:00" "2024-01-01T10:00:00";
            Entity.Row 2 "Tea" "preference" "default" "active"
                       "2024-01-01T11:00:00" "2024-01-01T11:00:00"]
           [Observation.Row 1 1 "Likes long walks" "2024-01-01T10:00:00";
            Observation.Row 2 2 "Green, no sugar" "2024-01-01T11:00:00"]
           2 2.


(** The plan of the specification's example: the entity insert (call 2) goes
    through, the observation insert (call 3) raises. *)
Definition observation_insert_fails : plan :=
  fun k => if Nat.eqb k 3 then Some "disk I/O error" else None.

(** The value a column has after [update_entity]: the argument when it is
    given and not empty, the old value otherwise. *)
Definition pick (arg : option string) (old : string) : string :=
  match arg with
  | Some v => if Py.truthy v then v else old
  | None => old
  end.

(** The row [update_entity] makes of [e]. *)
Definition updated_row (new_name new_type new_salience : option string)
                       (now : string) (e : Entity.row) : Entity.row :=
  Entity.Row (Entity.id e) (pick new_name (Entity.name e))
             (pick new_type (Entity.entity_type e)) (Entity.database e)
             (pick new_salience (Entity.salience e)) (Entity.created_at e) now.

(** No argument of [update_entity] is given and not empty. *)
Definition nothing_provided (new_name new_type new_salience : option string) : bool :=
  negb (Py.truthy_opt new_name) && negb (Py.truthy_opt new_type)
  && negb (Py.truthy_opt new_salience).

(** The row the specification expects of [update_entity]: every argument
    that is given, empty or not, becomes the value of its column. *)
Definition specified_row (new_name new_type new_salience : option string)
                       (now : string) (e : Entity.row) : Entity.row :=
  Entity.Row (Entity.id e)
             (match new_name with Some v => v | None => Entity.name e end)
             (match new_type with Some v => v | None => Entity.entity_type e end)
             (Entity.database e)
             (match new_salience with Some v => v | None => Entity.salience e end)
             (Entity.created_at e) now.

(** The plan in which the storage call number [k] raises [msg]. *)
Definition fail_at (k : nat) (msg : string) : plan :=
  fun i => if Nat.eqb i k then Some msg else None.

(** The rows at which an entity id shows up for the first time, [seen]
    being the ids met so far. *)
Fixpoint first_rows_from (seen : list Z) (rows : list Joined.row) : list Joined.row :=
  match rows with
  | [] => []
  | r :: rest =>
      if existsb (fun k => k =? Joined.id r) seen
      then first_rows_from seen rest
      else r :: first_rows_from (seen ++ [Joined.id r]) rest
  end.

Definition first_rows (rows : list Joined.row) : list Joined.row :=
  first_rows_from [] rows.

(** The observations the rows carry for the entity [k]: the non-empty
    contents with their times, in the order of the rows. *)
Definition observations_of (k : Z) (rows : list Joined.row)
  : list (string * option string) :=
  flat_map
    (fun r =>
       if Joined.id r =? k then
         match Joined.content r with
         | Some c => if Py.truthy c then [(c, Joined.added_at r)] else []
         | None => []
         end
       else [])
    rows.

(** The key of an element of [entities_map] with its identity columns,
    and the same columns of a fetched row. *)
Definition hit_heading (kv : Z * Hit.t) : Z * string * string * string * string :=
  (fst kv, Hit.name (snd kv), Hit.type (snd kv), Hit.database (snd kv),
   Hit.salience (snd kv)).

Definition row_heading (r : Joined.row) : Z * string * string * string * string :=
  let e := Joined.entity r in
  (Entity.id e, Entity.name e, Entity.entity_type e, Entity.database e,
   Entity.salience e).

(** [a] comes before [b] in an order by [updated_at], descending. *)
Definition newer_first (a b : Joined.row) : Prop :=
  String.leb (Joined.updated_at b) (Joined.updated_at a) = true.

(** The ids of the entities that match a search, each once. *)
Definition matching_entities (query_text : string) (databases : option (list string))
                             (s : memory_db) : list Z :=
  nodup Z.eq_dec
    (map Joined.id (SearchSql.candidates ("%" ++ query_text ++ "%") databases s)).

(** Two entities that both match "walk"; the newer one has two matching
    observations. *)
Definition walks_db : memory_db :=
  MemoryDb [Entity.Row 1 "Lincoln" "person" "default" "active"
                       "2024-01-01T10:00:00" "2024-01-05T10:00:00";
            Entity.Row 2 "Ada" "person" "default" "active"
                       "2024-01-02T10:00:00" "2024-01-03T10:00:00"]
           [Observation.Row 1 1 "Likes long walks" "2024-01-01T10:00:00";
            Observation.Row 2 2 "Walks to work" "2024-01-03T10:00:00";
            Observation.Row 3 1 "Walked the dog" "2024-01-05T10:00:00"]
           2 3.

(** [entities_map.get(k)], and the observations it holds for [k]. *)
Definition lookup (k : Z) (m : entities_map) : option (Z * Hit.t) :=
  find (fun kv => fst kv =? k) m.

Definition obs_lookup (k : Z) (m : entities_map) : list (string * option string) :=
  match lookup k m with
  | Some kv => Hit.observations (snd kv)
  | None => []
  end.

(** The entity id of a heading. *)
Definition heading_id (h : Z * string * string * string * string) : Z :=
  fst (fst (fst (fst h))).

(** The call of [void_write_entry] that the specification equates
    [void_append_snippet] with: title "Snippet", the text as summary, empty
    decisions and open loops, the artifacts [{"snippet": text}], and the
    tags when there are some, ["snippet"] otherwise. *)
Definition snippet_as_entry (text : string) (tags : option (list string))
                            (session_id thread_id : option string)
                            (importance : Z) (now : string)
  : Db void_db write_reply :=
  void_write_entry "Snippet" text (Some "") (Some "")
                   (Some [("snippet", Json.Str text)])
                   (Some (match tags with
                          | Some (t :: ts) => t :: ts
                          | Some [] | None => ["snippet"]
                          end))
                   importance session_id thread_id now.

(** ** JSON values that are Python values *)

Module JsonFacts.

(** The keys of a dictionary are distinct. *)
Fixpoint distinct_keys (ks : list string) : bool :=
  match ks with
  | [] => true
  | k :: rest => negb (existsb (String.eqb k) rest) && distinct_keys rest
  end.

(** A value of JSON: all its objects are dictionaries, and it holds no
    tuple. *)
Fixpoint well_formed (v : Json.value) : bool :=
  match v with
  | Json.Arr xs => forallb well_formed xs
  | Json.Obj members =>
      distinct_keys (map fst members)
      && forallb (fun kv => well_formed (snd kv)) members
  | Json.Tuple _ => false
  | _ => true
  end.

(** Python converts between an [int] and its decimal text for integers
    of at most 4300 digits (the default of [sys.set_int_max_str_digits]);
    for larger ones the conversion raises [ValueError].  [printable v]:
    the integers of [v] are within this limit. *)
Definition int_max_str_digits : Z := 4300.

Fixpoint printable (v : Json.value) : bool :=
  match v with
  | Json.Int z => Z.abs z <? 10 ^ int_max_str_digits
  | Json.Arr xs => forallb printable xs
  | Json.Obj members => forallb (fun kv => printable (snd kv)) members
  | Json.Tuple items => forallb printable items
  | _ => true
  end.

(** Fuel that is enough to read back the text of a value. *)
Fixpoint cost (v : Json.value) : nat :=
  match v with
  | Json.Arr xs => Datatypes.S (list_sum (map (fun x => Datatypes.S (cost x)) xs))
  | Json.Obj members =>
      Datatypes.S (list_sum (map (fun kv => Datatypes.S (cost (snd kv))) members))
  | Json.Tuple items =>
      Datatypes.S (list_sum (map (fun x => Datatypes.S (cost x)) items))
  | _ => 1%nat
  end.

(** What may follow an integer literal: the end of the text, or a
    character that goes on neither the digits nor the literal. *)
Definition stops_number (rest : string) : bool :=
  match rest with
  | EmptyString => true
  | String c _ =>
      negb (Json.is_digit c || (c =? ".")%char || (c =? "e")%char || (c =? "E")%char)
  end.

(** The text of a member of an object. *)
Definition member_text (kv : string * Json.value) : string :=
  Json.quote (fst kv) ++ ": " ++ Json.dumps (snd kv).

(** The head of [s] can start a value or a member: it is no white space
    and none of the characters that close or separate. *)
Definition starts_item (s : string) : bool :=
  match s with
  | EmptyString => false
  | String c _ =>
      negb (Json.is_ws c || (c =? "]")%char || (c =? "}")%char
            || (c =? ",")%char || (c =? ":")%char)
  end.

End JsonFacts.

(** What the round trip of a value says, for the induction. *)
Definition reads_back (v : Json.value) : Prop :=
  JsonFacts.well_formed v = true ->
  forall (fuel : nat) (rest : string),
    (JsonFacts.cost v <= fuel)%nat ->
    JsonFacts.stops_number rest = true ->
    Json.scan_value fuel (Json.dumps v ++ rest) = Some (v, rest).

(** Running a tool: the monad is unfolded down to the fault plan. *)
Ltac run_tool :=
  unfold run, bind, connect, try_finally, try_except, query, execute, commit,
    close, ret, tick; simpl.

(* ================================================================= *)
(** ** Further notions for the properties of the tools *)

(** A computation that leaves the committed database as it found it. *)
Definition keeps_disk {S A : Type} (m : Db S A) : Prop :=
  forall c : conn S, disk (snd (m c)) = disk c.

(** A call of one of the memory tools, with its arguments and the clock
    values it reads. *)
Inductive memory_call : Type :=
| MStore (entity_name observation entity_type database salience now : string)
| MUpdate (entity_name database : string)
          (new_name new_type new_salience : option string) (now : string)
| MRetrieve (entity_name database : string)
| MSearch (query_text : string) (databases : option (list string)) (limit : Z)
| MList (database : string) (salience : option string) (limit : Z)
| MContext (max_length : Z) (databases : option (list string))
           (now cutoff_iso : string).

(** The database a call leaves behind, under a fault plan. *)
Definition memory_step (s : memory_db) (cp : memory_call * plan) : memory_db :=
  match cp with
  | (MStore n obs t d sal now, p) => snd (run (store_memory n obs t d sal now) p s)
  | (MUpdate n d nn nt ns now, p) => snd (run (update_entity n d nn nt ns now) p s)
  | (MRetrieve n d, p) => snd (run (retrieve_memory n d) p s)
  | (MSearch q dbs l, p) => snd (run (search_memories q dbs l) p s)
  | (MList d sal l, p) => snd (run (list_entities d sal l) p s)
  | (MContext l dbs now cut, p) => snd (run (get_context_block l dbs now cut) p s)
  end.

Definition memory_run (s : memory_db) (calls : list (memory_call * plan)) : memory_db :=
  fold_left memory_step calls s.

(** The shape of the memory database: ids and identities are unique,
    every observation belongs to an entity that is there, and every entity
    has an observation. *)
Definition memory_wf (s : memory_db) : Prop :=
  NoDup (map Entity.id (entities s))
  /\ NoDup (map Entity.key (entities s))
  /\ NoDup (map Observation.id (observations s))
  /\ (forall o, In o (observations s) ->
                In (Observation.entity_id o) (map Entity.id (entities s)))
  /\ (forall e, In e (entities s) ->
                exists o, In o (observations s)
                          /\ Observation.entity_id o = Entity.id e).

(** The check of [UNIQUE(name, database)] that [update_entities] makes on
    the rewritten rows: a row with the id [eid] shares its identity with a
    row of another id. *)
Definition collides (eid : Z) (rows : list Entity.row) : bool :=
  existsb
    (fun e =>
       (Entity.id e =? eid)
       && existsb (fun q => negb (Entity.id q =? Entity.id e)
                            && Entity.has_key (Entity.name e) (Entity.database e) q)
                  rows)
    rows.

(** The rows of [entities] after a successful [update_entity] on the
    entity with the id [eid]. *)
Definition rewritten (new_name new_type new_salience : option string) (now : string)
                     (eid : Z) (rows : list Entity.row) : list Entity.row :=
  map (fun x => if Entity.id x =? eid
                then updated_row new_name new_type new_salience now x
                else x)
      rows.

(** The [entity] dictionary [retrieve_memory] makes of the row [e]. *)
Definition entity_view (e : Entity.row) (s : memory_db) : EntityView.t :=
  EntityView.Make
    (Entity.name e) (Entity.entity_type e) (Entity.database e)
    (Entity.salience e) (Entity.created_at e) (Entity.updated_at e)
    (map (fun o => (Observation.content o, Observation.added_at o))
         (MemorySql.select_observations (Entity.id e) s)).

(** A database with two entities, for the examples of [update_entity]. *)
Definition two_people_db : memory_db :=
  MemoryDb [Entity.Row 1 "Lincoln" "person" "default" "foundational"
                       "2024-01-01T10:00:00" "2024-01-01T10:00:00";
            Entity.Row 2 "Ada" "person" "default" "active"
                       "2024-01-02T10:00:00" "2024-01-02T10:00:00"]
           [Observation.Row 1 1 "Likes long walks" "2024-01-01T10:00:00";
            Observation.Row 2 2 "Wrote the first program" "2024-01-02T10:00:00"]
           2 2.

(** An entity that [list_entities] is asked for: it is in the database,
    and has the salience when one is given and not empty. *)
Definition listed (database : string) (salience : option string) (e : Entity.row)
  : bool :=
  String.eqb (Entity.database e) database
  && match salience with
     | Some sal => if Py.truthy sal then String.eqb (Entity.salience e) sal else true
     | None => true
     end.

(** The element of [result_list] that [list_entities] makes of the row [e]. *)
Definition listing_of (s : memory_db) (e : Entity.row) : Listed.t :=
  Listed.Make (Entity.name e) (Entity.entity_type e) (Entity.salience e)
              (Entity.updated_at e)
              (map Observation.content
                   (Sql.limit 3 (MemorySql.select_observations (Entity.id e) s))).

(** The text with its ASCII letters in upper case. *)
Fixpoint fold_case (s : string) : string :=
  match s with
  | EmptyString => EmptyString
  | String c t => String (Sql.upper c) (fold_case t)
  end.

(** A query without the wildcards of [LIKE]. *)
Fixpoint wildcard_free (q : string) : bool :=
  match q with
  | EmptyString => true
  | String c t => negb (c =? "%")%char && negb (c =? "_")%char && wildcard_free t
  end.

(** [q] occurs in [s], letters compared without regard to case. *)
Definition occurs_in (q s : string) : Prop :=
  exists a m b : string, s = (a ++ m ++ b)%string /\ fold_case m = fold_case q.

(** The index row [f] is the one the trigger [entries_ai] writes for the
    entry [e]. *)
Definition indexes (f : Fts.row) (e : Entry.row) : Prop :=
  f = Fts.Row (Entry.id e)
              (VoidSql.coalesce (Entry.title e)) (VoidSql.coalesce (Entry.summary e))
              (VoidSql.coalesce (Entry.decisions e))
              (VoidSql.coalesce (Entry.open_loops e))
              (VoidSql.coalesce (Entry.artifacts_json e))
              (VoidSql.coalesce (Entry.tags_json e)).

(** The largest id the table [entries] has ever held. *)
Definition entries_high (s : void_db) : Z :=
  Z.max (seq_entries s) (Sql.max_rowid (map Entry.id (entries s))).

(** The line of [void_list_recent] for the entry [e]. *)
Definition recent_line_of (e : Entry.row) : Z * string * option string * Z :=
  (Entry.id e, Entry.created_at e, Entry.title e, Entry.importance e).

(** The [entry] dictionary [void_get_entry] makes of the row [r] whose
    JSON columns hold the values [artifacts] and [tags]. *)
Definition entry_view (r : Entry.row) (artifacts tags : Json.value) : EntryView.t :=
  EntryView.Make (Entry.id r) (Entry.created_at r) (Entry.session_id r)
                 (Entry.thread_id r) (Entry.title r) (Entry.summary r)
                 (Entry.decisions r) (Entry.open_loops r)
                 artifacts tags (Entry.importance r).

(** A section of the context block: its title, its parts and a blank
    part; a section without parts is left out. *)
Definition section (title : string) (parts : list string) : list string :=
  match parts with
  | [] => []
  | _ :: _ => title :: (parts ++ [""])%list
  end.

(** The context block before the cut: the header, the two sections and
    the closing banner, joined by line feeds. *)
Definition context_block (now : string) (core recent : list string) : string :=
  Py.join Py.nl
    ("[COMPANION MEMORY CONTEXT]"
     :: ("Last updated: " ++ now)
     :: ""
     :: ((section "## Core Knowledge" core ++ section "## Recent Activity" recent)
         ++ ["[END MEMORY CONTEXT]"; ""])%list).

(** The entities "Core Knowledge" shows for the rows of the query, each
    with the observation texts that are shown. *)
Definition shown_entities (rows : list Joined.row) : entity_obs :=
  map (fun kv => (fst kv, (fst (snd kv), firstn 3 (snd (snd kv)))))
      (firstn 10 (fold_left collect_row rows [])).

(** The databases asked for: a non-empty list restricts, [None] and the
    empty list do not. *)
Definition in_databases (databases : option (list string)) (e : Entity.row) : Prop :=
  match databases with
  | Some (d :: rest) => In (Entity.database e) (d :: rest)
  | Some [] | None => True
  end.

(** An element of [entity_obs] is drawn from the rows [all]: its name and
    type are those of a row, and each of its texts is the non-empty
    content of a row of that name. *)
Definition drawn_from (all : list Joined.row) (kv : string * (string * list string))
  : Prop :=
  (exists r, In r all
             /\ Entity.name (Joined.entity r) = fst kv
             /\ Entity.entity_type (Joined.entity r) = fst (snd kv))
  /\ Forall (fun c => c <> ""
                      /\ exists r, In r all
                                   /\ Entity.name (Joined.entity r) = fst kv
                                   /\ Joined.content r = Some c)
            (snd (snd kv)).

(* ================================================================= *)
(** * Properties *)

Unset Implicit Arguments.

(** ** [store_memory] *)

Lemma has_key_touched (n d now : string) (eid : Z) (e : Entity.row) :
  Entity.has_key n d (touched now eid e) = Entity.has_key n d e.
Proof.
  unfold touched. destruct (Entity.id e =? eid); reflexivity.
Qed.

Lemma filter_has_key_touched (n d now : string) (eid : Z) (es : list Entity.row) :
  filter (Entity.has_key n d) (map (touched now eid) es)
  = map (touched now eid) (filter (Entity.has_key n d) es).
Proof.
  induction es as [|e es IH]; simpl; [reflexivity|].
  rewrite has_key_touched. destruct (Entity.has_key n d e); simpl; now rewrite IH.
Qed.

Lemma find_has_key_touched (n d now : string) (eid : Z) (es : list Entity.row) :
  find (Entity.has_key n d) (map (touched now eid) es)
  = option_map (touched now eid) (find (Entity.has_key n d) es).
Proof.
  induction es as [|e es IH]; simpl; [reflexivity|].
  rewrite has_key_touched. destruct (Entity.has_key n d e); simpl; [reflexivity|exact IH].
Qed.

Lemma find_none_existsb (A : Type) (f : A -> bool) (l : list A) :
  find f l = None -> existsb f l = false.
Proof.
  induction l as [|x l IH]; simpl; [reflexivity|].
  destruct (f x); [discriminate|exact IH].
Qed.

Lemma find_none_filter (A : Type) (f : A -> bool) (l : list A) :
  find f l = None -> filter f l = [].
Proof.
  induction l as [|x l IH]; simpl; [reflexivity|].
  destruct (f x); [discriminate|exact IH].
Qed.

Lemma find_some_filter (A : Type) (f : A -> bool) (l : list A) (x : A) :
  find f l = Some x -> exists rest, filter f l = x :: rest.
Proof.
  induction l as [|y l IH]; simpl; [discriminate|].
  destruct (f y) eqn:E.
  - intros [= ->]. eauto.
  - exact IH.
Qed.

Lemma find_app_none (A : Type) (f : A -> bool) (l : list A) (x : A) :
  find f l = None -> f x = true -> find f (l ++ [x]) = Some x.
Proof.
  intros Hl Hx. induction l as [|y l IH]; simpl in *.
  - now rewrite Hx.
  - destruct (f y); [discriminate|]. now apply IH.
Qed.

(** The updating path without faults, in full. *)
Lemma store_memory_updated (n obs t d sal now : string) (s : memory_db) (e : Entity.row) :
  MemorySql.select_entity n d s = Some e ->
  run (store_memory n obs t d sal now) no_faults s
  = (Returned (StoreSuccess updated (Entity.id e) n d obs),
     let oid := Sql.next_rowid (seq_observations s)
                               (map Observation.id (observations s)) in
     MemoryDb (map (touched now (Entity.id e)) (entities s))
              (observations s ++ [Observation.Row oid (Entity.id e) obs now])
              (seq_entities s) oid).
Proof.
  intros H. unfold store_memory. run_tool. rewrite H. reflexivity.
Qed.

(** The creating path without faults, in full. *)
Lemma store_memory_created (n obs t d sal now : string) (s : memory_db) :
  MemorySql.select_entity n d s = None ->
  run (store_memory n obs t d sal now) no_faults s
  = (let eid := Sql.next_rowid (seq_entities s) (map Entity.id (entities s)) in
     let oid := Sql.next_rowid (seq_observations s)
                               (map Observation.id (observations s)) in
     (Returned (StoreSuccess created eid n d obs),
      MemoryDb (entities s ++ [Entity.Row eid n t d sal now now])
               (observations s ++ [Observation.Row oid eid obs now])
               eid oid)).
Proof.
  intros H. unfold store_memory. run_tool. rewrite H.
  unfold MemorySql.insert_entity. simpl.
  unfold MemorySql.select_entity in H. rewrite (find_none_existsb _ _ _ H).
  reflexivity.
Qed.

Lemma key_touched (now : string) (eid : Z) (e : Entity.row) :
  Entity.key (touched now eid e) = Entity.key e.
Proof.
  unfold touched. destruct (Entity.id e =? eid); reflexivity.
Qed.

Lemma map_key_touched (now : string) (eid : Z) (es : list Entity.row) :
  map Entity.key (map (touched now eid) es) = map Entity.key es.
Proof.
  rewrite map_map. apply map_ext. intros e. apply key_touched.
Qed.

Lemma has_key_true (n d : string) (e : Entity.row) :
  Entity.has_key n d e = true <-> Entity.key e = (n, d).
Proof.
  unfold Entity.has_key, Entity.key. rewrite andb_true_iff, !String.eqb_eq.
  split; [intros [-> ->]; reflexivity | intros [= -> ->]; auto].
Qed.

Lemma find_none_not_in_keys (n d : string) (es : list Entity.row) :
  find (Entity.has_key n d) es = None -> ~ In (n, d) (map Entity.key es).
Proof.
  intros H Hin. apply in_map_iff in Hin. destruct Hin as (e & Hk & He).
  apply (find_none _ _ H) in He. apply has_key_true in Hk. congruence.
Qed.

Lemma same_but_updated_at_touched (now : string) (eid : Z) (es : list Entity.row) :
  Forall2 same_but_updated_at es (map (touched now eid) es).
Proof.
  induction es as [|e es IH]; simpl; constructor; [|exact IH].
  unfold touched, same_but_updated_at. destruct (Entity.id e =? eid); simpl; tauto.
Qed.

(** Repeating the call on an identity that is present: every reply says
    [updated], no row of [entities] is added and one observation is added
    per call. *)
Lemma store_all_present (n d : string) (calls : list store_args) :
  forall (s : memory_db) (e : Entity.row),
    MemorySql.select_entity n d s = Some e ->
    map reply_action (fst (store_all n d calls s))
    = repeat (Some updated) (List.length calls)
    /\ count_key n d (snd (store_all n d calls s)) = count_key n d s
    /\ map Entity.key (entities (snd (store_all n d calls s)))
       = map Entity.key (entities s)
    /\ List.length (observations (snd (store_all n d calls s)))
       = (List.length (observations s) + List.length calls)%nat.
Proof.
  induction calls as [|a calls IH]; intros s e He; simpl.
  - repeat split; lia.
  - rewrite (store_memory_updated _ _ _ _ _ _ _ _ He). cbv beta iota zeta.
    match goal with |- context [store_all n d calls ?s1] => set (s1' := s1) end.
    assert (He' : MemorySql.select_entity n d s1'
                  = Some (touched (arg_now a) (Entity.id e) e)).
    { unfold MemorySql.select_entity, s1'. simpl.
      rewrite find_has_key_touched. unfold MemorySql.select_entity in He.
      rewrite He. reflexivity. }
    destruct (IH s1' _ He') as (Ha & Hc & Hk & Ho).
    destruct (store_all n d calls s1') as [rs s2]. simpl in *.
    repeat split.
    + now rewrite Ha.
    + rewrite Hc. unfold count_key, s1'. simpl.
      rewrite filter_has_key_touched. apply length_map.
    + rewrite Hk. unfold s1'. simpl. apply map_key_touched.
    + rewrite Ho. unfold s1'. simpl. rewrite length_app. simpl. lia.
Qed.

(** C4. Calling [store_memory] again and again on one (name, database)
    that the database does not hold yet: the first reply says [created],
    every later one [updated]; afterwards exactly one row of [entities]
    carries the identity, one row was added to [entities] in all and one
    observation per call; and identities that were unique stay unique. *)
Theorem store_memory_repeated (n d : string) (s : memory_db)
                              (first : store_args) (rest : list store_args) :
  MemorySql.select_entity n d s = None ->
  let result := store_all n d (first :: rest) s in
  map reply_action (fst result)
  = Some created :: repeat (Some updated) (List.length rest)
  /\ count_key n d (snd result) = 1%nat
  /\ List.length (entities (snd result)) = Datatypes.S (List.length (entities s))
  /\ List.length (observations (snd result))
     = (List.length (observations s) + Datatypes.S (List.length rest))%nat
  /\ (NoDup (map Entity.key (entities s)) ->
      NoDup (map Entity.key (entities (snd result)))).
Proof.
  intros Hnone. simpl.
  rewrite (store_memory_created _ _ _ _ _ _ _ Hnone). cbv beta iota zeta.
  match goal with |- context [store_all n d rest ?s1] => set (s1' := s1) end.
  set (new := Entity.Row (Sql.next_rowid (seq_entities s) (map Entity.id (entities s)))
                         n (arg_entity_type first) d (arg_salience first)
                         (arg_now first) (arg_now first)).
  assert (Hkey : Entity.has_key n d new = true).
  { unfold Entity.has_key, new. simpl. now rewrite !String.eqb_refl. }
  assert (He : MemorySql.select_entity n d s1' = Some new).
  { unfold MemorySql.select_entity, s1'. simpl.
    apply find_app_none; assumption. }
  destruct (store_all_present n d rest s1' _ He) as (Ha & Hc & Hk & Ho).
  destruct (store_all n d rest s1') as [rs s2]. simpl in *.
  repeat split.
  - now rewrite Ha.
  - rewrite Hc. unfold count_key, s1'. simpl. fold new.
    rewrite filter_app. unfold MemorySql.select_entity in Hnone.
    rewrite (find_none_filter _ _ _ Hnone). simpl. now rewrite Hkey.
  - rewrite <- (length_map Entity.key), Hk. unfold s1'. simpl.
    rewrite length_map, length_app. simpl. lia.
  - rewrite Ho. unfold s1'. simpl. rewrite length_app. simpl. lia.
  - intros Hnd. rewrite Hk. unfold s1'. simpl. fold new.
    rewrite map_app. simpl.
    apply NoDup_app; [exact Hnd | repeat constructor; intros [] | ].
    intros k Hin [Hk'|[]]. subst k.
    apply (find_none_not_in_keys _ _ _ Hnone). exact Hin.
Qed.

(** The theorem at work on the empty database, with three calls. *)
Lemma store_memory_repeated_witness :
  let result := store_all "Lincoln" "default"
                  [StoreArgs "Likes long walks" "general" "active" "2024-01-01T10:00:00";
                   StoreArgs "Drinks tea" "person" "foundational" "2024-01-02T10:00:00";
                   StoreArgs "Reads a lot" "general" "archive" "2024-01-03T10:00:00"]
                  empty_memory_db in
  map reply_action (fst result) = [Some created; Some updated; Some updated]
  /\ count_key "Lincoln" "default" (snd result) = 1%nat.
Proof.
  pose proof (store_memory_repeated "Lincoln" "default" empty_memory_db
                (StoreArgs "Likes long walks" "general" "active" "2024-01-01T10:00:00")
                [StoreArgs "Drinks tea" "person" "foundational" "2024-01-02T10:00:00";
                 StoreArgs "Reads a lot" "general" "archive" "2024-01-03T10:00:00"]
                eq_refl) as H.
  cbv zeta in H. destruct H as (Ha & Hc & _).
  split; [exact Ha | exact Hc].
Defined.

(** C8. [store_memory] on an identity the database holds: the reply says
    [updated]; every row of [entities] keeps its id, name, type, database,
    salience and creation time, whatever type and salience the call
    gives; the rows of the entity get the clock value as [updated_at] and
    no other row changes; and one observation is appended. *)
Theorem store_memory_update_frame (n obs t d sal now : string)
                                  (s : memory_db) (e : Entity.row) :
  MemorySql.select_entity n d s = Some e ->
  exists s' : memory_db,
    run (store_memory n obs t d sal now) no_faults s
    = (Returned (StoreSuccess updated (Entity.id e) n d obs), s')
    /\ Forall2 same_but_updated_at (entities s) (entities s')
    /\ entities s' = map (touched now (Entity.id e)) (entities s)
    /\ MemorySql.select_entity n d s'
       = Some (Entity.Row (Entity.id e) (Entity.name e) (Entity.entity_type e)
                          (Entity.database e) (Entity.salience e)
                          (Entity.created_at e) now)
    /\ exists oid : Z,
         observations s' = (observations s ++ [Observation.Row oid (Entity.id e) obs now])%list.
Proof.
  intros He. eexists. split; [apply store_memory_updated; exact He|].
  cbv zeta. simpl. repeat split.
  - apply same_but_updated_at_touched.
  - unfold MemorySql.select_entity in *. simpl.
    rewrite find_has_key_touched, He. simpl. unfold touched.
    now rewrite Z.eqb_refl.
  - eexists. reflexivity.
Qed.

Lemma store_memory_update_frame_witness :
  exists s' : memory_db,
    run (store_memory "Lincoln" "Reads a lot" "event" "default" "archive"
                      "2024-02-01T09:00:00") no_faults lincoln_db
    = (Returned (StoreSuccess updated 1 "Lincoln" "default" "Reads a lot"), s')
    /\ MemorySql.select_entity "Lincoln" "default" s'
       = Some (Entity.Row 1 "Lincoln" "person" "default" "foundational"
                          "2024-01-01T10:00:00" "2024-02-01T09:00:00").
Proof.
  destruct (store_memory_update_frame "Lincoln" "Reads a lot" "event" "default"
              "archive" "2024-02-01T09:00:00" lincoln_db
              (Entity.Row 1 "Lincoln" "person" "default" "foundational"
                          "2024-01-01T10:00:00" "2024-01-01T10:00:00") eq_refl)
    as (s' & Hrun & _ & _ & Hsel & _).
  exists s'. split; [exact Hrun | exact Hsel].
Defined.

(** C6. [store_memory] on an identity the database does not hold, under
    any fault plan: either the reply is the success of the creating path
    and the database has gained the entity row together with its first
    observation, or the call failed (a failure reply or an exception) and
    the database is what it was. *)
Theorem store_memory_create_atomic (n obs t d sal now : string)
                                   (p : plan) (s : memory_db) :
  MemorySql.select_entity n d s = None ->
  let eid := Sql.next_rowid (seq_entities s) (map Entity.id (entities s)) in
  let oid := Sql.next_rowid (seq_observations s)
                            (map Observation.id (observations s)) in
  (run (store_memory n obs t d sal now) p s
   = (Returned (StoreSuccess created eid n d obs),
      MemoryDb (entities s ++ [Entity.Row eid n t d sal now now])
               (observations s ++ [Observation.Row oid eid obs now])
               eid oid))
  \/ (snd (run (store_memory n obs t d sal now) p s) = s
      /\ match fst (run (store_memory n obs t d sal now) p s) with
         | Returned r => store_success r = false
         | Raised _ => True
         end).
Proof.
  intros Hnone eid oid. unfold store_memory. run_tool.
  destruct (p 0%nat); simpl; [right; auto|].
  destruct (p 1%nat); simpl; [right; auto|].
  rewrite Hnone. simpl.
  destruct (p 2%nat); simpl; [right; auto|].
  unfold MemorySql.insert_entity.
  unfold MemorySql.select_entity in Hnone.
  rewrite (find_none_existsb _ _ _ Hnone). simpl.
  destruct (p 3%nat); simpl; [right; auto|].
  destruct (p 4%nat); simpl; [right; auto|].
  left. reflexivity.
Qed.

Lemma store_memory_create_atomic_witness :
  run (store_memory "Ada" "Wrote the first program" "person" "default" "active"
                    "2024-03-01T08:00:00") observation_insert_fails lincoln_db
  = (Returned (StoreFailure "disk I/O error"), lincoln_db).
Proof.
  destruct (store_memory_create_atomic "Ada" "Wrote the first program" "person"
              "default" "active" "2024-03-01T08:00:00"
              observation_insert_fails lincoln_db eq_refl) as [H|[_ _]].
  - discriminate H.
  - reflexivity.
Defined.

(** ** [update_entity] *)

Lemma fold_assign_updates (new_name new_type new_salience : option string)
                          (now : string) (e : Entity.row) :
  fold_left assign
    ((provided col_name new_name ++ provided col_entity_type new_type
      ++ provided col_salience new_salience) ++ [(col_updated_at, now)])%list e
  = updated_row new_name new_type new_salience now e.
Proof.
  unfold updated_row, provided, pick.
  destruct new_name as [[|? ?]|], new_type as [[|? ?]|], new_salience as [[|? ?]|];
    destruct e; reflexivity.
Qed.

Lemma provided_nil (new_name new_type new_salience : option string) :
  (provided col_name new_name ++ provided col_entity_type new_type
   ++ provided col_salience new_salience)%list = []
  <-> nothing_provided new_name new_type new_salience = true.
Proof.
  unfold provided, nothing_provided.
  destruct new_name as [[|? ?]|], new_type as [[|? ?]|], new_salience as [[|? ?]|];
    simpl; split; congruence.
Qed.

(** C7, as the code has it.  Without faults, [update_entity]
    - on an identity the database does not hold replies "not found",
      whatever fields are given, and changes nothing;
    - on a held identity with no field that is given and not empty
      replies "No updates specified" and changes nothing;
    - otherwise either the rename collides with another row and the
      statement raises, changing nothing, or the reply is a success and the
      rows with the entity's id get the given non-empty fields and the
      clock value as [updated_at], every other column, row and table being
      what it was. *)
Theorem update_entity_cases (n d : string) (new_name new_type new_salience : option string)
                            (now : string) (s : memory_db) :
  match MemorySql.select_entity n d s with
  | None =>
      run (update_entity n d new_name new_type new_salience now) no_faults s
      = (Returned (UpdateFailure ("Entity '" ++ n ++ "' not found")), s)
  | Some e =>
      if nothing_provided new_name new_type new_salience then
        run (update_entity n d new_name new_type new_salience now) no_faults s
        = (Returned (UpdateFailure "No updates specified"), s)
      else
        run (update_entity n d new_name new_type new_salience now) no_faults s
        = (Raised "UNIQUE constraint failed: entities.name, entities.database", s)
        \/ run (update_entity n d new_name new_type new_salience now) no_faults s
           = (Returned (UpdateSuccess ("Entity '" ++ n ++ "' updated successfully")),
              MemoryDb
                (map (fun x => if Entity.id x =? Entity.id e
                               then updated_row new_name new_type new_salience now x
                               else x)
                     (entities s))
                (observations s) (seq_entities s) (seq_observations s))
  end.
Proof.
  destruct (MemorySql.select_entity n d s) as [e|] eqn:He.
  - destruct (nothing_provided new_name new_type new_salience) eqn:Hp.
    + apply provided_nil in Hp.
      unfold update_entity. run_tool. rewrite He. simpl. rewrite Hp. reflexivity.
    + assert (Hne : (provided col_name new_name ++ provided col_entity_type new_type
                     ++ provided col_salience new_salience)%list <> []).
      { intros H. apply provided_nil in H. congruence. }
      unfold update_entity. run_tool. rewrite He. simpl.
      destruct (provided col_name new_name ++ provided col_entity_type new_type
                ++ provided col_salience new_salience)%list as [|u us] eqn:Hu;
        [congruence|].
      simpl. unfold update_entities.
      rewrite (map_ext
                 (fun x => if Entity.id x =? Entity.id e
                           then fold_left assign ((u :: us) ++ [(col_updated_at, now)]) x
                           else x)
                 (fun x => if Entity.id x =? Entity.id e
                           then updated_row new_name new_type new_salience now x
                           else x)).
      2:{ intros x. destruct (Entity.id x =? Entity.id e); [|reflexivity].
          rewrite <- Hu. apply fold_assign_updates. }
      match goal with |- context [if ?c then Raised _ else _] => destruct c end.
      * left. reflexivity.
      * right. reflexivity.
  - unfold update_entity. run_tool. rewrite He. reflexivity.
Qed.

(** C7, the specification's reading refuted: a field given as the empty
    string is not applied.  The update below succeeds, and the entity type
    stays "person" although the call gives the type [""]. *)
Lemma update_entity_skips_empty_field :
  exists s' : memory_db,
    run (update_entity "Lincoln" "default" None (Some "") (Some "archive")
                       "2024-02-01T09:00:00") no_faults lincoln_db
    = (Returned (UpdateSuccess "Entity 'Lincoln' updated successfully"), s')
    /\ MemorySql.select_entity "Lincoln" "default" s'
       = Some (Entity.Row 1 "Lincoln" "person" "default" "archive"
                          "2024-01-01T10:00:00" "2024-02-01T09:00:00")
    /\ MemorySql.select_entity "Lincoln" "default" s'
       <> option_map (specified_row None (Some "") (Some "archive") "2024-02-01T09:00:00")
                     (MemorySql.select_entity "Lincoln" "default" lincoln_db).
Proof.
  eexists. split; [reflexivity|]. split; [reflexivity|]. discriminate.
Qed.

(** With no field at all on an identity the database does not hold, the
    reply is "not found", not "No updates specified". *)
Lemma update_entity_not_found_first :
  run (update_entity "Ghost" "default" None None None "2024-02-01T09:00:00")
      no_faults lincoln_db
  = (Returned (UpdateFailure "Entity 'Ghost' not found"), lincoln_db).
Proof. reflexivity. Qed.

(** ** Storage exceptions *)

(** After the connection is open, [store_memory] turns every exception
    into a failure reply. *)
Lemma store_memory_catches (n obs t d sal now : string) (p : plan) (s : memory_db) :
  p 0%nat = None ->
  returned (fst (run (store_memory n obs t d sal now) p s)) = true.
Proof.
  intros H0. unfold store_memory. run_tool. rewrite H0. simpl.
  destruct (p 1%nat); simpl; [reflexivity|].
  destruct (MemorySql.select_entity n d s); simpl.
  - destruct (p 2%nat); simpl; [reflexivity|].
    destruct (p 3%nat); simpl; [reflexivity|].
    destruct (p 4%nat); reflexivity.
  - destruct (p 2%nat); simpl; [reflexivity|].
    destruct (MemorySql.insert_entity n t d sal now s) as [[eid w]|]; simpl;
      [|reflexivity].
    destruct (p 3%nat); simpl; [reflexivity|].
    destruct (p 4%nat); reflexivity.
Qed.

(** C2, the code at the failing inputs.  When the first statement of a
    tool raises, the exception leaves [retrieve_memory], [search_memories],
    [list_entities], [update_entity], [get_context_block] and the journal
    tools, whatever their arguments and the database; when the connection
    cannot be opened it leaves [store_memory] too. *)
Theorem storage_exception_escapes (msg : string) :
  (forall n d s,
      run (retrieve_memory n d) (fail_at 1 msg) s = (Raised msg, s))
  /\ (forall q dbs l s,
         run (search_memories q dbs l) (fail_at 1 msg) s = (Raised msg, s))
  /\ (forall d sal l s,
         run (list_entities d sal l) (fail_at 1 msg) s = (Raised msg, s))
  /\ (forall n d nn nt ns now s,
         run (update_entity n d nn nt ns now) (fail_at 1 msg) s = (Raised msg, s))
  /\ (forall l dbs now cut s,
         run (get_context_block l dbs now cut) (fail_at 1 msg) s = (Raised msg, s))
  /\ (forall t sm d o a tg i sid tid now s,
         run (void_write_entry t sm d o a tg i sid tid now) (fail_at 1 msg) s
         = (Raised msg, s))
  /\ (forall tx tg sid tid i now s,
         run (void_append_snippet tx tg sid tid i now) (fail_at 1 msg) s
         = (Raised msg, s))
  /\ (forall i s, run (void_get_entry i) (fail_at 1 msg) s = (Raised msg, s))
  /\ (forall l s, run (void_list_recent l) (fail_at 1 msg) s = (Raised msg, s))
  /\ (forall m sn q l s,
         run (void_search m sn q l) (fail_at 1 msg) s = (Raised msg, s))
  /\ (forall n obs t d sal now s,
         run (store_memory n obs t d sal now) (fail_at 0 msg) s = (Raised msg, s)).
Proof.
  repeat split; intros; reflexivity.
Qed.

(** ** [get_context_block] *)

Lemma length_take (n : nat) (s : string) :
  String.length (Py.take n s) = Nat.min n (String.length s).
Proof.
  revert s. induction n as [|n IH]; intros [|c t]; simpl; try reflexivity.
  now rewrite IH.
Qed.

Lemma length_append (a b : string) :
  String.length (a ++ b) = (String.length a + String.length b)%nat.
Proof.
  induction a as [|c a IH]; simpl; [reflexivity|now rewrite IH].
Qed.

Lemma len_truncation_marker : Py.len truncation_marker = 38.
Proof. reflexivity. Qed.

(** With a budget of at least 50 the cut works as meant: the text is
    returned as it is when it fits, and otherwise its first
    [max_length - 50] characters are followed by the marker; in both cases
    at most [max_length] characters are returned. *)
Lemma enforce_length_bound (max_length : Z) (text : string) :
  50 <= max_length ->
  Py.len (enforce_length max_length text) <= max_length
  /\ (Py.len text > max_length ->
      enforce_length max_length text
      = Py.take (Z.to_nat (max_length - 50)) text ++ truncation_marker
      /\ Py.len (Py.take (Z.to_nat (max_length - 50)) text) = max_length - 50).
Proof.
  intros Hn. unfold enforce_length, Py.slice_to.
  destruct (Py.len text >? max_length) eqn:Hgt.
  - apply Z.gtb_lt in Hgt.
    destruct (max_length - 50 <? 0) eqn:Hneg; [apply Z.ltb_lt in Hneg; lia|].
    assert (Hcut : Py.len (Py.take (Z.to_nat (max_length - 50)) text)
                   = max_length - 50).
    { unfold Py.len in *. rewrite length_take. lia. }
    split.
    + unfold Py.len in *. rewrite length_append.
      pose proof len_truncation_marker as Hm. unfold Py.len in Hm. lia.
    + intros _. split; [reflexivity|exact Hcut].
  - rewrite Z.gtb_ltb in Hgt. apply Z.ltb_ge in Hgt.
    split; [exact Hgt | intros H; lia].
Qed.

(** Whatever [get_context_block] returns went through [enforce_length]. *)
Lemma get_context_block_enforced (max_length : Z) (dbs : option (list string))
                                 (now cut : string) (p : plan) (s : memory_db)
                                 (r : string) :
  fst (run (get_context_block max_length dbs now cut) p s) = Returned r ->
  exists text : string, r = enforce_length max_length text.
Proof.
  unfold get_context_block. run_tool.
  destruct (p 0%nat); simpl; [discriminate|].
  destruct (p 1%nat); simpl; [discriminate|].
  destruct (p 2%nat); simpl; [discriminate|].
  intros [= <-]. eexists. reflexivity.
Qed.

(** With a budget of at least 50, whatever the tool returns has at most
    [max_length] characters. *)
Lemma get_context_block_within_budget (max_length : Z) (dbs : option (list string))
                                      (now cut : string) (p : plan) (s : memory_db)
                                      (r : string) :
  50 <= max_length ->
  fst (run (get_context_block max_length dbs now cut) p s) = Returned r ->
  Py.len r <= max_length.
Proof.
  intros Hn Hr. apply get_context_block_enforced in Hr. destruct Hr as [text ->].
  apply enforce_length_bound. exact Hn.
Qed.

(** Without faults the tool returns. *)
Lemma get_context_block_returns (max_length : Z) (dbs : option (list string))
                                (now cut : string) (s : memory_db) :
  exists r : string,
    run (get_context_block max_length dbs now cut) no_faults s = (Returned r, s).
Proof.
  unfold get_context_block. run_tool. eexists. reflexivity.
Qed.

(** C3, the code at the failing input: with [max_length] 10 on the empty
    database the block has 90 characters; the slice bound -40 takes the
    last 40 away, and with the marker 88 characters are returned, not at
    most 10, after a cut at 50 characters, not at [max_length - 50]. *)
Theorem get_context_block_small_budget :
  exists r : string,
    run (get_context_block 10 None "2024-01-01T12:30:45.123456"
                           "2023-12-30T12:30:45.123456")
        no_faults empty_memory_db
    = (Returned r, empty_memory_db)
    /\ Py.len r = 88
    /\ r = Py.take 50 (Py.join Py.nl ["[COMPANION MEMORY CONTEXT]";
                                      "Last updated: 2024-01-01T12:30:45.123456"; "";
                                      "[END MEMORY CONTEXT]"; ""])
           ++ truncation_marker.
Proof.
  eexists. split; [reflexivity|]. split; reflexivity.
Qed.

(** ** Ordering of text *)

Lemma ascii_compare_refl (a : ascii) : Ascii.compare a a = Eq.
Proof. unfold Ascii.compare. apply N.compare_refl. Qed.

Lemma string_leb_trans (a b c : string) :
  String.leb a b = true -> String.leb b c = true -> String.leb a c = true.
Proof.
  unfold String.leb. revert b c.
  induction a as [|x a IH]; intros [|y b] [|z c]; simpl; try easy.
  unfold Ascii.compare.
  destruct (N.compare_spec (N_of_ascii x) (N_of_ascii y)) as [Exy|Lxy|Gxy];
    destruct (N.compare_spec (N_of_ascii y) (N_of_ascii z)) as [Eyz|Lyz|Gyz];
    destruct (N.compare_spec (N_of_ascii x) (N_of_ascii z)) as [Exz|Lxz|Gxz];
    try easy; try lia.
  apply IH.
Qed.

(** ** [ORDER BY ... DESC] and [LIMIT] *)

Section OrderByFacts.
Variables A K : Type.
Variable leb : K -> K -> bool.
Variable key : A -> K.
Hypothesis leb_total : forall x y, leb x y = true \/ leb y x = true.
Hypothesis leb_trans : forall x y z, leb x y = true -> leb y z = true -> leb x z = true.

Let desc (a b : A) : Prop := leb (key b) (key a) = true.

Lemma insert_desc_in (x y : A) (rows : list A) :
  In y (Sql.insert_desc leb key x rows) <-> y = x \/ In y rows.
Proof.
  induction rows as [|r rows IH]; simpl.
  - intuition.
  - destruct (leb (key r) (key x)); simpl; [intuition|].
    rewrite IH. intuition.
Qed.

Lemma insert_desc_sorted (x : A) (rows : list A) :
  StronglySorted desc rows -> StronglySorted desc (Sql.insert_desc leb key x rows).
Proof.
  induction 1 as [|r rows Hs IH Hall]; simpl.
  - repeat constructor.
  - destruct (leb (key r) (key x)) eqn:E.
    + constructor; [constructor; assumption|].
      constructor; [exact E|].
      rewrite Forall_forall in *. intros y Hy. unfold desc in *.
      apply leb_trans with (key r); [apply Hall; exact Hy | exact E].
    + constructor; [exact IH|].
      rewrite Forall_forall in *. intros y Hy.
      apply insert_desc_in in Hy. destruct Hy as [->|Hy]; [|apply Hall; exact Hy].
      unfold desc. destruct (leb_total (key x) (key r)); congruence.
Qed.

Lemma order_by_desc_sorted (rows : list A) :
  StronglySorted desc (Sql.order_by_desc leb key rows).
Proof.
  induction rows as [|r rows IH]; simpl; [constructor|].
  apply insert_desc_sorted. exact IH.
Qed.

Lemma insert_desc_length (x : A) (rows : list A) :
  List.length (Sql.insert_desc leb key x rows) = Datatypes.S (List.length rows).
Proof.
  induction rows as [|r rows IH]; simpl; [reflexivity|].
  destruct (leb (key r) (key x)); simpl; [reflexivity|now rewrite IH].
Qed.

End OrderByFacts.

Lemma in_firstn (A : Type) (n : nat) (l : list A) (y : A) :
  In y (firstn n l) -> In y l.
Proof.
  revert l. induction n as [|n IH]; intros [|x l]; simpl; try tauto.
  intros [->|H]; [left; reflexivity | right; apply IH; exact H].
Qed.

Lemma firstn_strongly_sorted (A : Type) (R : A -> A -> Prop) (n : nat) (l : list A) :
  StronglySorted R l -> StronglySorted R (firstn n l).
Proof.
  intros H. revert n. induction H as [|x l Hs IH Hall]; intros [|n]; simpl;
    try constructor.
  - apply IH.
  - rewrite Forall_forall in *. intros y Hy. apply Hall.
    apply (in_firstn _ _ _ _ Hy).
Qed.

Lemma limit_strongly_sorted (A : Type) (R : A -> A -> Prop) (n : Z) (l : list A) :
  StronglySorted R l -> StronglySorted R (Sql.limit n l).
Proof.
  intros H. unfold Sql.limit. destruct (n <? 0); [exact H|].
  apply firstn_strongly_sorted. exact H.
Qed.

Lemma limit_length (A : Type) (n : Z) (l : list A) :
  0 <= n -> Z.of_nat (List.length (Sql.limit n l)) <= n.
Proof.
  intros Hn. unfold Sql.limit.
  destruct (n <? 0) eqn:E; [apply Z.ltb_lt in E; lia|].
  rewrite length_firstn. lia.
Qed.

(** ** The grouping loop of [search_memories] *)

Lemma map_has_keys (k : Z) (m : entities_map) :
  map_has k m = existsb (fun k' => k' =? k) (map fst m).
Proof.
  unfold map_has. induction m as [|kv m IH]; simpl; [reflexivity|now rewrite IH].
Qed.

Lemma map_has_lookup (k : Z) (m : entities_map) :
  map_has k m = match lookup k m with Some _ => true | None => false end.
Proof.
  unfold map_has, lookup. induction m as [|kv m IH]; simpl; [reflexivity|].
  destruct (fst kv =? k); simpl; [reflexivity|exact IH].
Qed.

Lemma heading_map_update (k : Z) (o : string * option string) (m : entities_map) :
  map hit_heading (map_update k (fun h => Hit.add_observation h o) m)
  = map hit_heading m.
Proof.
  unfold map_update. rewrite map_map. apply map_ext. intros [k' h].
  simpl. destruct (k' =? k); reflexivity.
Qed.

Lemma lookup_map_update (k k' : Z) (f : Hit.t -> Hit.t) (m : entities_map) :
  lookup k (map_update k' f m)
  = if k =? k'
    then option_map (fun kv => (fst kv, f (snd kv))) (lookup k m)
    else lookup k m.
Proof.
  unfold lookup, map_update. induction m as [|[k0 h] m IH]; simpl.
  - destruct (k =? k'); reflexivity.
  - destruct (k0 =? k') eqn:E0; simpl.
    + apply Z.eqb_eq in E0. subst k0.
      destruct (k' =? k) eqn:E1.
      * rewrite Z.eqb_sym, E1. reflexivity.
      * rewrite IH. reflexivity.
    + destruct (k0 =? k) eqn:E1; [|exact IH].
      apply Z.eqb_eq in E1. subst k0. rewrite E0. reflexivity.
Qed.

Lemma lookup_app_one (k k' : Z) (h : Hit.t) (m : entities_map) :
  lookup k (m ++ [(k', h)])%list
  = match lookup k m with
    | Some kv => Some kv
    | None => if k' =? k then Some (k', h) else None
    end.
Proof.
  unfold lookup. induction m as [|kv m IH]; simpl; [reflexivity|].
  destruct (fst kv =? k); [reflexivity|exact IH].
Qed.

Lemma heading_group_row (m : entities_map) (r : Joined.row) :
  map hit_heading (group_row m r)
  = if map_has (Joined.id r) m then map hit_heading m
    else (map hit_heading m ++ [row_heading r])%list.
Proof.
  unfold group_row.
  assert (H : map hit_heading
                (if map_has (Joined.id r) m then m
                 else (m ++ [(Joined.id r,
                              Hit.Make (Entity.name (Joined.entity r))
                                       (Entity.entity_type (Joined.entity r))
                                       (Entity.database (Joined.entity r))
                                       (Entity.salience (Joined.entity r)) [])])%list)
              = if map_has (Joined.id r) m then map hit_heading m
                else (map hit_heading m ++ [row_heading r])%list).
  { destruct (map_has (Joined.id r) m); [reflexivity|].
    rewrite map_app. reflexivity. }
  destruct (Joined.content r) as [c|]; [|exact H].
  destruct (Py.truthy c); [|exact H].
  rewrite heading_map_update. exact H.
Qed.

Lemma keys_of_headings (m : entities_map) :
  map fst m = map heading_id (map hit_heading m).
Proof. rewrite map_map. apply map_ext. intros [k h]. reflexivity. Qed.

Lemma ids_of_headings (rows : list Joined.row) :
  map Joined.id rows = map heading_id (map row_heading rows).
Proof. rewrite map_map. apply map_ext. intros r. reflexivity. Qed.

Lemma heading_fold_group (rows : list Joined.row) :
  forall m : entities_map,
    map hit_heading (fold_left group_row rows m)
    = (map hit_heading m ++ map row_heading (first_rows_from (map fst m) rows))%list.
Proof.
  induction rows as [|r rows IH]; intros m; simpl.
  - now rewrite app_nil_r.
  - rewrite IH, (keys_of_headings (group_row m r)), heading_group_row.
    rewrite <- map_has_keys.
    destruct (map_has (Joined.id r) m).
    + rewrite <- keys_of_headings. reflexivity.
    + rewrite map_app, <- keys_of_headings. simpl.
      rewrite <- app_assoc. reflexivity.
Qed.

Lemma obs_group_row (k : Z) (m : entities_map) (r : Joined.row) :
  obs_lookup k (group_row m r) = (obs_lookup k m ++ observations_of k [r])%list.
Proof.
  unfold observations_of. simpl. rewrite app_nil_r.
  unfold group_row, obs_lookup.
  set (fresh := Hit.Make _ _ _ _ []).
  set (m1 := if map_has (Joined.id r) m then m
             else (m ++ [(Joined.id r, fresh)])%list).
  assert (H1 : match lookup k m1 with
               | Some kv => Hit.observations (snd kv)
               | None => []
               end
               = match lookup k m with
                 | Some kv => Hit.observations (snd kv)
                 | None => []
                 end).
  { unfold m1. destruct (map_has (Joined.id r) m); [reflexivity|].
    rewrite lookup_app_one. destruct (lookup k m); [reflexivity|].
    destruct (Joined.id r =? k); reflexivity. }
  assert (H2 : (Joined.id r =? k) = true -> lookup k m1 <> None).
  { intros E. apply Z.eqb_eq in E. subst k. unfold m1.
    rewrite map_has_lookup. destruct (lookup (Joined.id r) m) eqn:El.
    - rewrite El. discriminate.
    - rewrite lookup_app_one, El, Z.eqb_refl. discriminate. }
  destruct (Joined.content r) as [c|];
    [destruct (Py.truthy c)|].
  - rewrite lookup_map_update, Z.eqb_sym.
    destruct (Joined.id r =? k) eqn:E.
    + specialize (H2 eq_refl). rewrite <- H1.
      destruct (lookup k m1); [reflexivity|congruence].
    + rewrite H1, app_nil_r. reflexivity.
  - rewrite H1. destruct (Joined.id r =? k); now rewrite app_nil_r.
  - rewrite H1. destruct (Joined.id r =? k); now rewrite app_nil_r.
Qed.

Lemma obs_fold_group (k : Z) (rows : list Joined.row) :
  forall m : entities_map,
    obs_lookup k (fold_left group_row rows m)
    = (obs_lookup k m ++ observations_of k rows)%list.
Proof.
  induction rows as [|r rows IH]; intros m; simpl.
  - unfold observations_of. simpl. now rewrite app_nil_r.
  - rewrite IH, obs_group_row. rewrite <- app_assoc. f_equal.
    unfold observations_of. simpl. rewrite app_nil_r. reflexivity.
Qed.

Lemma lookup_in (k : Z) (h : Hit.t) (m : entities_map) :
  NoDup (map fst m) -> In (k, h) m -> lookup k m = Some (k, h).
Proof.
  unfold lookup. induction m as [|[k0 h0] m IH]; simpl; [tauto|].
  intros Hnd [Heq|Hin].
  - injection Heq as -> ->. now rewrite Z.eqb_refl.
  - inversion Hnd as [|? ? Hnot Hnd']; subst.
    destruct (k0 =? k) eqn:E.
    + apply Z.eqb_eq in E. subst k0. exfalso. apply Hnot.
      apply in_map_iff. exists (k, h). auto.
    + apply IH; assumption.
Qed.

Lemma first_rows_from_fresh (rows : list Joined.row) :
  forall seen : list Z,
    NoDup (map Joined.id (first_rows_from seen rows))
    /\ (forall k, In k (map Joined.id (first_rows_from seen rows)) -> ~ In k seen).
Proof.
  induction rows as [|r rows IH]; intros seen; simpl.
  - split; [constructor|tauto].
  - destruct (existsb (fun k => k =? Joined.id r) seen) eqn:E.
    + apply IH.
    + destruct (IH (seen ++ [Joined.id r])%list) as [Hnd Hfresh]. simpl. split.
      * constructor; [|exact Hnd].
        intros Hin. apply (Hfresh _ Hin). apply in_or_app. right. left. reflexivity.
      * intros k [<-|Hin].
        -- intros Hs. assert (existsb (fun k => k =? Joined.id r) seen = true)
             by (apply existsb_exists; exists (Joined.id r); split;
                 [exact Hs | apply Z.eqb_refl]).
           congruence.
        -- intros Hs. apply (Hfresh _ Hin). apply in_or_app. left. exact Hs.
Qed.

Lemma first_rows_from_in (rows : list Joined.row) :
  forall (seen : list Z) (r : Joined.row),
    In r (first_rows_from seen rows) -> In r rows.
Proof.
  induction rows as [|x rows IH]; intros seen r; simpl; [tauto|].
  destruct (existsb (fun k => k =? Joined.id x) seen).
  - intros H. right. apply (IH _ _ H).
  - intros [->|H]; [left; reflexivity | right; apply (IH _ _ H)].
Qed.

Lemma first_rows_from_sorted (R : Joined.row -> Joined.row -> Prop)
                             (rows : list Joined.row) :
  StronglySorted R rows ->
  forall seen : list Z, StronglySorted R (first_rows_from seen rows).
Proof.
  induction 1 as [|x rows Hs IH Hall]; intros seen; simpl; [constructor|].
  destruct (existsb (fun k => k =? Joined.id x) seen); [apply IH|].
  constructor; [apply IH|].
  rewrite Forall_forall in *. intros y Hy. apply Hall.
  apply (first_rows_from_in _ _ _ Hy).
Qed.

Lemma first_rows_from_length (rows : list Joined.row) :
  forall seen : list Z,
    (List.length (first_rows_from seen rows) <= List.length rows)%nat.
Proof.
  induction rows as [|x rows IH]; intros seen; simpl; [lia|].
  destruct (existsb (fun k => k =? Joined.id x) seen); simpl.
  - specialize (IH seen). lia.
  - specialize (IH (seen ++ [Joined.id x])%list). lia.
Qed.

Lemma order_by_desc_in (A K : Type) (leb : K -> K -> bool) (key : A -> K)
                       (rows : list A) (y : A) :
  In y (Sql.order_by_desc leb key rows) <-> In y rows.
Proof.
  induction rows as [|r rows IH]; simpl; [tauto|].
  rewrite insert_desc_in, IH. intuition.
Qed.

Lemma limit_in (A : Type) (n : Z) (rows : list A) (y : A) :
  In y (Sql.limit n rows) -> In y rows.
Proof.
  unfold Sql.limit. destruct (n <? 0); [tauto|apply in_firstn].
Qed.

Lemma select_sorted (pattern : string) (dbs : option (list string)) (l : Z)
                    (s : memory_db) :
  StronglySorted newer_first (SearchSql.select pattern dbs l s).
Proof.
  unfold SearchSql.select. apply limit_strongly_sorted.
  apply (order_by_desc_sorted _ _ String.leb Joined.updated_at
                              String.leb_total string_leb_trans).
Qed.

(** ** [search_memories] *)

(** C1, as the code has it.  When [search_memories] returns, its results
    are the values of the grouping of the fetched rows: every entity id is
    there at most once, with the identity columns of the entity; the
    entities come in the order of [updated_at], newest first; each has the
    non-empty observation contents of its fetched rows; every entity
    returned is one that matches; and with a limit that is not negative at
    most [limit] entities are returned, the limit being applied to the
    fetched rows. *)
Theorem search_memories_grouped (q : string) (dbs : option (list string)) (l : Z)
                                (p : plan) (s : memory_db) (reply : search_reply) :
  fst (run (search_memories q dbs l) p s) = Returned reply ->
  let rows := SearchSql.select ("%" ++ q ++ "%") dbs l s in
  let m := group_rows rows in
  search_results reply = map snd m
  /\ search_count reply = Z.of_nat (List.length (search_results reply))
  /\ NoDup (map fst m)
  /\ map hit_heading m = map row_heading (first_rows rows)
  /\ StronglySorted newer_first (first_rows rows)
  /\ (forall k h, In (k, h) m -> Hit.observations h = observations_of k rows)
  /\ incl (map fst m) (matching_entities q dbs s)
  /\ (0 <= l -> search_count reply <= l).
Proof.
  unfold search_memories. run_tool.
  destruct (p 0%nat); simpl; [discriminate|].
  destruct (p 1%nat); simpl; [discriminate|].
  intros [= <-]. simpl.
  set (rows := SearchSql.select _ dbs l s).
  assert (Hhead : map hit_heading (group_rows rows) = map row_heading (first_rows rows)).
  { unfold group_rows, first_rows. rewrite heading_fold_group. reflexivity. }
  assert (Hkeys : map fst (group_rows rows) = map Joined.id (first_rows rows)).
  { rewrite keys_of_headings, ids_of_headings, Hhead. reflexivity. }
  assert (Hnd : NoDup (map fst (group_rows rows))).
  { rewrite Hkeys. apply first_rows_from_fresh. }
  repeat split.
  - now rewrite length_map.
  - exact Hnd.
  - exact Hhead.
  - apply first_rows_from_sorted. apply select_sorted.
  - intros k h Hin.
    pose proof (obs_fold_group k rows []) as Ho.
    unfold obs_lookup in Ho. fold (group_rows rows) in Ho.
    rewrite (lookup_in _ _ _ Hnd Hin) in Ho. exact Ho.
  - intros k Hk. rewrite Hkeys in Hk. apply in_map_iff in Hk.
    destruct Hk as (r & <- & Hr).
    apply first_rows_from_in in Hr. unfold rows, SearchSql.select in Hr.
    apply limit_in in Hr. apply order_by_desc_in in Hr.
    unfold matching_entities. apply nodup_In. apply in_map. exact Hr.
  - intros Hl. rewrite <- (length_map hit_heading), Hhead, length_map.
    pose proof (first_rows_from_length rows []) as H1.
    assert (H2 : Z.of_nat (List.length rows) <= l)
      by (apply limit_length; exact Hl).
    unfold first_rows. lia.
Qed.

Lemma search_memories_grouped_witness :
  exists reply : search_reply,
    fst (run (search_memories "walk" None 2) no_faults walks_db) = Returned reply
    /\ search_count reply <= 2
    /\ NoDup (map fst (group_rows (SearchSql.select "%walk%" None 2 walks_db))).
Proof.
  eexists. split; [reflexivity|].
  pose proof (search_memories_grouped "walk" None 2 no_faults walks_db _ eq_refl) as H.
  cbv zeta in H. destruct H as (_ & _ & Hnd & _ & _ & _ & _ & Hcap).
  split; [apply Hcap; lia | exact Hnd].
Defined.

(** C1, the specification's reading refuted: two entities match "walk" and
    the limit is 2, yet one entity is returned, because the two rows that
    were fetched are the two observations of the newer entity. *)
Lemma search_memories_limit_counts_rows :
  exists reply : search_reply,
    run (search_memories "walk" None 2) no_faults walks_db = (Returned reply, walks_db)
    /\ matching_entities "walk" None walks_db = [1; 2]
    /\ search_count reply = 1
    /\ map Hit.name (search_results reply) = ["Lincoln"].
Proof.
  eexists. split; [reflexivity|]. repeat split.
Qed.

(** ** The journal *)

(** What a call of [void_write_entry] leaves behind: under any plan, the
    database as it was, or the database with the new entry and its index
    row. *)
Lemma void_write_entry_run (t sm : string) (d o : option string)
                           (a : option (list (string * Json.value)))
                           (tg : option (list string)) (i : Z)
                           (sid tid : option string) (now : string)
                           (p : plan) (s : void_db) :
  let eid := Sql.next_rowid (seq_entries s) (map Entry.id (entries s)) in
  let new := Entry.Row eid now sid tid (Some t) (Some sm) d o
               (Some (Json.dumps (Json.Obj (artifacts_or_empty a))))
               (Some (Json.dumps (Json.Arr (map Json.Str (Py.or_list tg [])))))
               i in
  run (void_write_entry t sm d o a tg i sid tid now) p s
  = (Returned (WriteReply true eid),
     VoidDb (entries s ++ [new]) (VoidSql.entries_ai new (entries_fts s)) eid)
  \/ (exists e, run (void_write_entry t sm d o a tg i sid tid now) p s = (Raised e, s)).
Proof.
  intros eid new. unfold void_write_entry. run_tool.
  destruct (p 0%nat); simpl; [right; eauto|].
  destruct (p 1%nat); simpl; [right; eauto|].
  destruct (p 2%nat); simpl; [right; eauto|].
  left. reflexivity.
Qed.

Lemma void_write_entry_no_faults (t sm : string) (d o : option string)
                                 (a : option (list (string * Json.value)))
                                 (tg : option (list string)) (i : Z)
                                 (sid tid : option string) (now : string)
                                 (s : void_db) :
  let eid := Sql.next_rowid (seq_entries s) (map Entry.id (entries s)) in
  let new := Entry.Row eid now sid tid (Some t) (Some sm) d o
               (Some (Json.dumps (Json.Obj (artifacts_or_empty a))))
               (Some (Json.dumps (Json.Arr (map Json.Str (Py.or_list tg [])))))
               i in
  run (void_write_entry t sm d o a tg i sid tid now) no_faults s
  = (Returned (WriteReply true eid),
     VoidDb (entries s ++ [new]) (VoidSql.entries_ai new (entries_fts s)) eid).
Proof. reflexivity. Qed.

(** C10. [void_append_snippet] is the call of [void_write_entry] the
    specification names: under every fault plan and on every database the
    two give the same outcome and leave the same database; without faults
    that is the reply [ok] with the new id, and the stored entry has the
    title "Snippet", the text as summary, empty decisions and open loops,
    and the artifacts and tags of the specification in their JSON text. *)
Theorem void_append_snippet_is_write_entry
        (text : string) (tags : option (list string))
        (session_id thread_id : option string) (importance : Z) (now : string)
        (p : plan) (s : void_db) :
  run (void_append_snippet text tags session_id thread_id importance now) p s
  = run (snippet_as_entry text tags session_id thread_id importance now) p s
  /\ run (void_append_snippet text tags session_id thread_id importance now) no_faults s
     = (let eid := Sql.next_rowid (seq_entries s) (map Entry.id (entries s)) in
        let new := Entry.Row eid now session_id thread_id
                     (Some "Snippet") (Some text) (Some "") (Some "")
                     (Some (Json.dumps (Json.Obj [("snippet", Json.Str text)])))
                     (Some (Json.dumps
                              (Json.Arr (map Json.Str
                                             (match tags with
                                              | Some (t :: ts) => t :: ts
                                              | Some [] | None => ["snippet"]
                                              end)))))
                     importance in
        (Returned (WriteReply true eid),
         VoidDb (entries s ++ [new]) (VoidSql.entries_ai new (entries_fts s)) eid)).
Proof.
  split.
  - unfold void_append_snippet, snippet_as_entry.
    destruct tags as [[|t ts]|]; reflexivity.
  - unfold void_append_snippet. rewrite void_write_entry_no_faults.
    destruct tags as [[|t ts]|]; reflexivity.
Qed.

Lemma max_rowid_ge (ids : list Z) (x : Z) : In x ids -> x <= Sql.max_rowid ids.
Proof.
  unfold Sql.max_rowid. induction ids as [|y ids IH]; simpl; [tauto|].
  intros [->|H]; [lia|]. specialize (IH H). lia.
Qed.

Lemma next_rowid_fresh (seq : Z) (ids : list Z) : ~ In (Sql.next_rowid seq ids) ids.
Proof.
  intros H. apply max_rowid_ge in H. unfold Sql.next_rowid in H. lia.
Qed.

Lemma insert_keeps_lockstep (new : Entry.row) (s : void_db) :
  Entry.id new = Sql.next_rowid (seq_entries s) (map Entry.id (entries s)) ->
  in_lockstep s ->
  in_lockstep (VoidDb (entries s ++ [new]) (VoidSql.entries_ai new (entries_fts s))
                      (Entry.id new)).
Proof.
  intros Hid [Hmap Hnd]. unfold in_lockstep, VoidSql.entries_ai. simpl.
  rewrite !map_app, Hmap. simpl. split; [reflexivity|].
  apply NoDup_app; [exact Hnd | repeat constructor; intros [] | ].
  intros k Hin [<-|[]]. rewrite Hid in Hin. exact (next_rowid_fresh _ _ Hin).
Qed.

Lemma void_write_entry_keeps_lockstep (t sm : string) (d o : option string)
                                      (a : option (list (string * Json.value)))
                                      (tg : option (list string)) (i : Z)
                                      (sid tid : option string) (now : string)
                                      (p : plan) (s : void_db) :
  in_lockstep s ->
  in_lockstep (snd (run (void_write_entry t sm d o a tg i sid tid now) p s)).
Proof.
  intros H.
  destruct (void_write_entry_run t sm d o a tg i sid tid now p s) as [E|[e E]];
    rewrite E; simpl; [|exact H].
  apply (insert_keeps_lockstep (Entry.Row _ _ _ _ _ _ _ _ _ _ _) s eq_refl H).
Qed.

Lemma journal_step_keeps_lockstep (m : string -> option (Fts.row -> bool))
                                  (sn : string -> Fts.row -> string)
                                  (s : void_db) (cp : journal_call * plan) :
  in_lockstep s -> in_lockstep (journal_step m sn s cp).
Proof.
  intros H. destruct cp as [[t sm d o a tg i sid tid now|tx tg sid tid i now|q l|i|l] p];
    simpl.
  - apply void_write_entry_keeps_lockstep. exact H.
  - unfold void_append_snippet. apply void_write_entry_keeps_lockstep. exact H.
  - unfold void_search. run_tool.
    destruct (p 0%nat); simpl; [exact H|].
    destruct (p 1%nat); simpl; [exact H|].
    unfold select_match. destruct (m q); [|exact H].
    destruct (Sql.result_rows _ _); exact H.
  - unfold void_get_entry, json_loads. run_tool.
    destruct (p 0%nat); simpl; [exact H|].
    destruct (p 1%nat); simpl; [exact H|].
    destruct (VoidSql.select_entry i s); simpl; [|exact H].
    destruct (Json.loads _); simpl; [|exact H].
    destruct (Json.loads _); exact H.
  - unfold void_list_recent. run_tool.
    destruct (p 0%nat); simpl; [exact H|].
    destruct (p 1%nat); exact H.
Qed.

(** C5. Starting from the fresh journal database, after any sequence of
    calls of the journal tools, each under any fault plan, the full-text
    table has exactly the rowids that are ids of entries, each once: the
    insert and the row its trigger adds are committed together or not at
    all.  (No tool updates or deletes an entry.) *)
Theorem journal_index_in_lockstep (m : string -> option (Fts.row -> bool))
                                  (sn : string -> Fts.row -> string)
                                  (calls : list (journal_call * plan)) :
  in_lockstep (journal_run m sn empty_void_db calls).
Proof.
  unfold journal_run.
  assert (H : in_lockstep empty_void_db) by (split; constructor).
  revert H. generalize empty_void_db.
  induction calls as [|cp calls IH]; intros s H; simpl; [exact H|].
  apply IH. apply journal_step_keeps_lockstep. exact H.
Qed.

(** ** JSON: reading back what was written *)

Lemma append_assoc (a b c : string) : ((a ++ b) ++ c = a ++ (b ++ c))%string.
Proof. induction a as [|x a IH]; simpl; [reflexivity|now rewrite IH]. Qed.

Lemma append_nil_r (a : string) : (a ++ "")%string = a.
Proof. induction a as [|x a IH]; simpl; [reflexivity|now rewrite IH]. Qed.

(** One escaped character is read back as the character. *)
Lemma scan_escape_char (c : ascii) (tail : string) :
  Json.scan_string (Json.escape_char c ++ tail)
  = match Json.scan_string tail with
    | Some (body, rest) => Some (String c body, rest)
    | None => None
    end.
Proof.
  destruct c as [[] [] [] [] [] [] [] []]; reflexivity.
Qed.

Lemma scan_string_escape (s rest : string) :
  Json.scan_string (Json.escape s ++ String Json.dquote rest) = Some (s, rest).
Proof.
  induction s as [|c s IH].
  - reflexivity.
  - change (Json.escape (String c s)) with (Json.escape_char c ++ Json.escape s)%string.
    rewrite append_assoc, scan_escape_char, IH. reflexivity.
Qed.

(** The digits of a decimal number are read as one run. *)
Lemma span_digits_uint (d : uint) (rest : string) :
  match rest with
  | EmptyString => true
  | String c _ => negb (Json.is_digit c)
  end = true ->
  Json.span_digits (NilEmpty.string_of_uint d ++ rest)
  = (NilEmpty.string_of_uint d, rest).
Proof.
  intros Hrest. induction d; simpl; try (rewrite IHd; reflexivity).
  destruct rest as [|c t]; simpl in *; [reflexivity|].
  apply negb_true_iff in Hrest. now rewrite Hrest.
Qed.

Lemma stops_number_no_digit (rest : string) :
  JsonFacts.stops_number rest = true ->
  match rest with
  | EmptyString => true
  | String c _ => negb (Json.is_digit c)
  end = true.
Proof.
  destruct rest as [|c t]; simpl; [reflexivity|].
  rewrite negb_true_iff, !orb_false_iff. intros (((H & _) & _) & _).
  now rewrite H.
Qed.

Lemma stops_number_no_float (c : ascii) (t : string) :
  JsonFacts.stops_number (String c t) = true ->
  ((c =? ".") || (c =? "e") || (c =? "E"))%char = false.
Proof.
  simpl. rewrite negb_true_iff, !orb_false_iff. intros (((_ & H1) & H2) & H3).
  now rewrite H1, H2, H3.
Qed.

(** The decimal digits of a positive number do not start with a zero. *)
Lemma to_uint_normal (p : positive) : unorm (Pos.to_uint p) = Pos.to_uint p.
Proof.
  rewrite <- DecimalPos.Unsigned.to_of, DecimalPos.Unsigned.of_to. reflexivity.
Qed.

Lemma unorm_head (d : uint) :
  match unorm d with
  | D0 Nil => True
  | D0 _ => False
  | _ => True
  end.
Proof.
  induction d; simpl; auto.
Qed.

Lemma scan_int_uint (sign : string) (d : uint) (rest : string) :
  sign = "" \/ sign = "-" ->
  d <> Nil -> unorm d = d -> d <> D0 Nil ->
  JsonFacts.stops_number rest = true ->
  Json.scan_int (sign ++ NilEmpty.string_of_uint d ++ rest)
  = option_map (fun i => (Z.of_int i, rest))
               (NilZero.int_of_string (sign ++ NilEmpty.string_of_uint d)).
Proof.
  intros Hsign Hnil Hnorm Hzero Hrest.
  pose proof (unorm_head d) as Hhead. rewrite Hnorm in Hhead.
  pose proof (span_digits_uint d rest (stops_number_no_digit _ Hrest)) as Hspan.
  assert (Hgo : forall c t,
             NilEmpty.string_of_uint d = String c t ->
             (c =? "0")%char = false -> (c =? "-")%char = false ->
             Json.scan_int (sign ++ NilEmpty.string_of_uint d ++ rest)
             = option_map (fun i => (Z.of_int i, rest))
                          (NilZero.int_of_string (sign ++ NilEmpty.string_of_uint d))).
  { intros c t Hd H0 Hm. rewrite Hd in *.
    remember (NilZero.int_of_string (sign ++ String c t)) as R eqn:HR.
    unfold Json.scan_int. destruct Hsign as [-> | ->].
    - cbn [append]. rewrite Hm. cbn iota. rewrite H0.
      change (String c (t ++ rest)) with (String c t ++ rest)%string.
      rewrite Hspan. subst R.
      destruct rest as [|r rs]; [reflexivity|].
      rewrite (stops_number_no_float _ _ Hrest). reflexivity.
    - cbn [append]. change ("-" =? "-")%char with true. cbn iota. rewrite H0.
      change (String c (t ++ rest)) with (String c t ++ rest)%string.
      rewrite Hspan. subst R.
      destruct rest as [|r rs]; [reflexivity|].
      rewrite (stops_number_no_float _ _ Hrest). reflexivity. }
  destruct d; try congruence;
    try (eapply Hgo; [reflexivity | reflexivity | reflexivity]).
  destruct d; [congruence | contradiction ..].
Qed.

Lemma dumps_int_pos (p : positive) :
  Json.dumps_int (Z.pos p) = NilEmpty.string_of_uint (Pos.to_uint p).
Proof.
  unfold Json.dumps_int. simpl. unfold NilZero.string_of_uint.
  pose proof (DecimalPos.Unsigned.to_uint_nonnil p) as Hnil.
  destruct (Pos.to_uint p); [congruence | reflexivity ..].
Qed.

Lemma dumps_int_neg (p : positive) :
  Json.dumps_int (Z.neg p) = String "-" (NilEmpty.string_of_uint (Pos.to_uint p)).
Proof.
  unfold Json.dumps_int. simpl. unfold NilZero.string_of_uint.
  pose proof (DecimalPos.Unsigned.to_uint_nonnil p) as Hnil.
  destruct (Pos.to_uint p); [congruence | reflexivity ..].
Qed.

Lemma int_of_dumps (z : Z) :
  z <> 0 -> NilZero.int_of_string (Json.dumps_int z) = Some (Z.to_int z).
Proof.
  intros Hz. unfold Json.dumps_int. apply NilZero.isi.
  - destruct z as [|p|p]; simpl; [congruence | | discriminate].
    intros [= H]. exact (DecimalPos.Unsigned.to_uint_nonnil p H).
  - destruct z as [|p|p]; simpl; [congruence | discriminate | ].
    intros [= H]. exact (DecimalPos.Unsigned.to_uint_nonnil p H).
Qed.

(** An integer is read back from its decimal text. *)
Lemma scan_int_dumps (z : Z) (rest : string) :
  JsonFacts.stops_number rest = true ->
  Json.scan_int (Json.dumps_int z ++ rest) = Some (z, rest).
Proof.
  intros Hrest. destruct z as [|p|p].
  - unfold Json.dumps_int, Json.scan_int. simpl.
    destruct rest as [|r rs]; [reflexivity|].
    now rewrite (stops_number_no_float _ _ Hrest).
  - pose proof (int_of_dumps (Z.pos p)) as Hi.
    rewrite dumps_int_pos in *.
    change (NilEmpty.string_of_uint (Pos.to_uint p) ++ rest)%string
      with ("" ++ NilEmpty.string_of_uint (Pos.to_uint p) ++ rest)%string.
    rewrite (scan_int_uint "" (Pos.to_uint p) rest (or_introl eq_refl)
               (DecimalPos.Unsigned.to_uint_nonnil p) (to_uint_normal p)
               (DecimalPos.Unsigned.to_uint_nonzero p) Hrest).
    change ("" ++ NilEmpty.string_of_uint (Pos.to_uint p))%string
      with (NilEmpty.string_of_uint (Pos.to_uint p)).
    rewrite Hi by discriminate. cbn [option_map].
    now rewrite (DecimalZ.of_to (Z.pos p)).
  - pose proof (int_of_dumps (Z.neg p)) as Hi.
    rewrite dumps_int_neg in *.
    change (String "-" (NilEmpty.string_of_uint (Pos.to_uint p)) ++ rest)%string
      with ("-" ++ NilEmpty.string_of_uint (Pos.to_uint p) ++ rest)%string.
    rewrite (scan_int_uint "-" (Pos.to_uint p) rest (or_intror eq_refl)
               (DecimalPos.Unsigned.to_uint_nonnil p) (to_uint_normal p)
               (DecimalPos.Unsigned.to_uint_nonzero p) Hrest).
    change ("-" ++ NilEmpty.string_of_uint (Pos.to_uint p))%string
      with (String "-" (NilEmpty.string_of_uint (Pos.to_uint p))).
    rewrite Hi by discriminate. cbn [option_map].
    now rewrite (DecimalZ.of_to (Z.neg p)).
Qed.

Lemma value_ind_nested (P : Json.value -> Prop) :
  P Json.Null ->
  (forall b, P (Json.Bool b)) ->
  (forall z, P (Json.Int z)) ->
  (forall s, P (Json.Str s)) ->
  (forall xs, Forall P xs -> P (Json.Arr xs)) ->
  (forall ms, Forall (fun kv => P (snd kv)) ms -> P (Json.Obj ms)) ->
  (forall xs, Forall P xs -> P (Json.Tuple xs)) ->
  forall v, P v.
Proof.
  intros Hnull Hbool Hint Hstr Harr Hobj Htuple.
  fix IH 1. intros [| b | z | s | xs | ms | xs].
  - exact Hnull.
  - apply Hbool.
  - apply Hint.
  - apply Hstr.
  - apply Harr. induction xs as [|x xs IHxs]; constructor; [apply IH | exact IHxs].
  - apply Hobj. induction ms as [|[k x] ms IHms]; constructor;
      [apply IH | exact IHms].
  - apply Htuple. induction xs as [|x xs IHxs]; constructor; [apply IH | exact IHxs].
Qed.

Lemma dumps_int_head (z : Z) :
  exists c t, Json.dumps_int z = String c t
              /\ (Json.is_digit c = true \/ c = "-"%char).
Proof.
  destruct z as [|p|p].
  - exists "0"%char, ""%string. split; [reflexivity | left; reflexivity].
  - rewrite dumps_int_pos.
    pose proof (DecimalPos.Unsigned.to_uint_nonnil p) as Hnil.
    destruct (Pos.to_uint p); [congruence | ..]; simpl;
      eexists; eexists; (split; [reflexivity | left; reflexivity]).
  - rewrite dumps_int_neg. eexists; eexists. split; [reflexivity | right; reflexivity].
Qed.

(** How the first character of a number sends [scan_value] on. *)
Lemma number_head (c : ascii) :
  Json.is_digit c = true \/ c = "-"%char ->
  (c =? Json.dquote)%char = false /\ (c =? "[")%char = false
  /\ (c =? "{")%char = false /\ ("n" =? c)%char = false
  /\ ("t" =? c)%char = false /\ ("f" =? c)%char = false
  /\ JsonFacts.starts_item (String c "") = true.
Proof.
  intros [H | ->]; [|repeat split].
  destruct c as [[] [] [] [] [] [] [] []]; try discriminate H; repeat split.
Qed.

Lemma starts_item_dumps (v : Json.value) (rest : string) :
  JsonFacts.starts_item (Json.dumps v ++ rest) = true.
Proof.
  destruct v as [| [|] | z | s | xs | ms | xs]; try reflexivity.
  simpl. destruct (dumps_int_head z) as (c & t & -> & Hc).
  apply number_head in Hc. simpl. apply Hc.
Qed.

Lemma starts_item_member (kv : string * Json.value) (rest : string) :
  JsonFacts.starts_item (JsonFacts.member_text kv ++ rest) = true.
Proof. reflexivity. Qed.

Lemma skip_ws_item (s : string) :
  JsonFacts.starts_item s = true -> Json.skip_ws s = s.
Proof.
  destruct s as [|c t]; simpl; [reflexivity|].
  rewrite negb_true_iff, !orb_false_iff. intros ((((H & _) & _) & _) & _).
  now rewrite H.
Qed.

Lemma skip_ws_space (s : string) :
  Json.skip_ws (String " " s) = Json.skip_ws s.
Proof. reflexivity. Qed.

(** The equations of the scanner. *)
Lemma scan_elements_S (f : nat) (s : string) :
  Json.scan_elements (Datatypes.S f) s
  = match Json.scan_value f s with
    | None => None
    | Some (v, rest) =>
        match Json.skip_ws rest with
        | EmptyString => None
        | String c t =>
            if (c =? ",")%char then
              match Json.scan_elements f (Json.skip_ws t) with
              | Some (vs, rest') => Some (v :: vs, rest')
              | None => None
              end
            else if (c =? "]")%char then Some ([v], t)
            else None
        end
    end.
Proof. reflexivity. Qed.

Lemma scan_members_S (f : nat) (t : string) :
  Json.scan_members (Datatypes.S f) (String Json.dquote t)
  = match Json.scan_string t with
    | None => None
    | Some (k, rest) =>
        match Json.skip_ws rest with
        | EmptyString => None
        | String c1 t1 =>
            if (c1 =? ":")%char then
              match Json.scan_value f (Json.skip_ws t1) with
              | None => None
              | Some (v, rest1) =>
                  match Json.skip_ws rest1 with
                  | EmptyString => None
                  | String c2 t2 =>
                      if (c2 =? ",")%char then
                        match Json.scan_members f (Json.skip_ws t2) with
                        | Some (ms, rest2) => Some ((k, v) :: ms, rest2)
                        | None => None
                        end
                      else if (c2 =? "}")%char then Some ([(k, v)], t2)
                      else None
                  end
              end
            else None
        end
    end.
Proof. reflexivity. Qed.

Lemma scan_value_arr (f : nat) (t : string) :
  JsonFacts.starts_item t = true ->
  Json.scan_value (Datatypes.S f) (String "[" t)
  = match Json.scan_elements f t with
    | Some (xs, rest) => Some (Json.Arr xs, rest)
    | None => None
    end.
Proof.
  intros H. cbn [Json.scan_value]. change ("[" =? Json.dquote)%char with false.
  change ("[" =? "[")%char with true. cbn iota.
  rewrite (skip_ws_item _ H). destruct t as [|c t]; [discriminate|].
  simpl in H. rewrite negb_true_iff, !orb_false_iff in H.
  destruct H as ((((_ & H) & _) & _) & _). rewrite H. reflexivity.
Qed.

Lemma scan_value_obj (f : nat) (t : string) :
  JsonFacts.starts_item t = true ->
  Json.scan_value (Datatypes.S f) (String "{" t)
  = match Json.scan_members f t with
    | Some (ms, rest) => Some (Json.Obj (Json.dict_of_pairs ms), rest)
    | None => None
    end.
Proof.
  intros H. cbn [Json.scan_value]. change ("{" =? Json.dquote)%char with false.
  change ("{" =? "[")%char with false. change ("{" =? "{")%char with true. cbn iota.
  rewrite (skip_ws_item _ H). destruct t as [|c t]; [discriminate|].
  simpl in H. rewrite negb_true_iff, !orb_false_iff in H.
  destruct H as ((((_ & _) & H) & _) & _). rewrite H. reflexivity.
Qed.

Lemma scan_elements_dumps (xs : list Json.value) :
  xs <> [] ->
  Forall reads_back xs ->
  forallb JsonFacts.well_formed xs = true ->
  forall (fuel : nat) (rest : string),
    (list_sum (map (fun x => Datatypes.S (JsonFacts.cost x)) xs) <= fuel)%nat ->
    Json.scan_elements fuel (Py.join ", " (map Json.dumps xs) ++ String "]" rest)
    = Some (xs, rest).
Proof.
  induction xs as [|x xs IH]; [congruence|].
  intros _ Hall Hwf fuel rest Hfuel.
  inversion Hall as [|? ? Hx Hxs]; subst.
  simpl in Hwf. apply andb_true_iff in Hwf. destruct Hwf as [Hwx Hwxs].
  simpl in Hfuel. destruct fuel as [|f]; [lia|].
  rewrite scan_elements_S.
  destruct xs as [|y ys].
  - simpl Py.join. rewrite (Hx Hwx f (String "]" rest)); [|simpl in *; lia|reflexivity].
    reflexivity.
  - change (Py.join ", " (map Json.dumps (x :: y :: ys)))
      with (Json.dumps x ++ ", " ++ Py.join ", " (map Json.dumps (y :: ys)))%string.
    rewrite !append_assoc.
    rewrite (Hx Hwx f); [|simpl in *; lia|reflexivity].
    cbn [append Json.skip_ws Json.is_ws]. change (Json.is_ws ",") with false.
    cbn iota. change ("," =? ",")%char with true. cbn iota.
    rewrite skip_ws_space.
    rewrite skip_ws_item.
    2:{ change (Py.join ", " (map Json.dumps (y :: ys)))
          with (Py.join ", " (Json.dumps y :: map Json.dumps ys)).
        destruct (map Json.dumps ys); simpl Py.join;
          rewrite ?append_assoc; apply starts_item_dumps. }
    rewrite (IH ltac:(discriminate) Hxs Hwxs f rest); [reflexivity|].
    simpl in *. lia.
Qed.

Lemma scan_members_dumps (ms : list (string * Json.value)) :
  ms <> [] ->
  Forall (fun kv => reads_back (snd kv)) ms ->
  forallb (fun kv => JsonFacts.well_formed (snd kv)) ms = true ->
  forall (fuel : nat) (rest : string),
    (list_sum (map (fun kv => Datatypes.S (JsonFacts.cost (snd kv))) ms) <= fuel)%nat ->
    Json.scan_members fuel (Py.join ", " (map JsonFacts.member_text ms)
                            ++ String "}" rest)
    = Some (ms, rest).
Proof.
  induction ms as [|[k x] ms IH]; [congruence|].
  intros _ Hall Hwf fuel rest Hfuel.
  inversion Hall as [|? ? Hx Hxs]; subst. simpl in Hx.
  simpl in Hwf. apply andb_true_iff in Hwf. destruct Hwf as [Hwx Hwxs].
  simpl in Hfuel. destruct fuel as [|f]; [lia|].
  assert (Hone : forall tail,
             JsonFacts.stops_number tail = true ->
             (JsonFacts.member_text (k, x) ++ tail)%string
             = String Json.dquote
                 (Json.escape k
                  ++ String Json.dquote (String ":" (String " " (Json.dumps x ++ tail))))).
  { intros tail _. unfold JsonFacts.member_text, Json.quote. simpl.
    rewrite !append_assoc. reflexivity. }
  destruct ms as [|y ys].
  - simpl Py.join. rewrite Hone by reflexivity.
    rewrite scan_members_S, scan_string_escape.
    cbn [Json.skip_ws]. change (Json.is_ws ":") with false. cbn iota.
    change (":" =? ":")%char with true. cbn iota.
    rewrite skip_ws_space, (skip_ws_item _ (starts_item_dumps x _)).
    rewrite (Hx Hwx f (String "}" rest)); [|simpl in *; lia|reflexivity].
    reflexivity.
  - change (Py.join ", " (map JsonFacts.member_text ((k, x) :: y :: ys)))
      with (JsonFacts.member_text (k, x) ++ ", "
            ++ Py.join ", " (map JsonFacts.member_text (y :: ys)))%string.
    rewrite !append_assoc. rewrite Hone by reflexivity.
    rewrite scan_members_S, scan_string_escape.
    cbn [Json.skip_ws]. change (Json.is_ws ":") with false. cbn iota.
    change (":" =? ":")%char with true. cbn iota.
    rewrite skip_ws_space, (skip_ws_item _ (starts_item_dumps x _)).
    rewrite (Hx Hwx f); [|simpl in *; lia|reflexivity].
    cbn [append Json.skip_ws]. change (Json.is_ws ",") with false.
    cbn iota. change ("," =? ",")%char with true. cbn iota.
    rewrite skip_ws_space.
    rewrite skip_ws_item.
    2:{ change (Py.join ", " (map JsonFacts.member_text (y :: ys)))
          with (Py.join ", " (JsonFacts.member_text y :: map JsonFacts.member_text ys)).
        destruct (map JsonFacts.member_text ys); reflexivity. }
    rewrite (IH ltac:(discriminate) Hxs Hwxs f rest); [reflexivity|].
    simpl in *. lia.
Qed.

Lemma distinct_keys_nodup (ks : list string) :
  JsonFacts.distinct_keys ks = true -> NoDup ks.
Proof.
  induction ks as [|k ks IH]; simpl; [constructor|].
  rewrite andb_true_iff, negb_true_iff. intros [Hk Hks].
  constructor; [|apply IH; exact Hks].
  intros Hin.
  assert (existsb (String.eqb k) ks = true)
    by (apply existsb_exists; exists k; split; [exact Hin | apply String.eqb_refl]).
  congruence.
Qed.

Lemma dict_set_fresh (m : list (string * Json.value)) (kv : string * Json.value) :
  ~ In (fst kv) (map fst m) -> Json.dict_set m kv = (m ++ [kv])%list.
Proof.
  intros Hfresh. unfold Json.dict_set.
  destruct (existsb (fun q => String.eqb (fst q) (fst kv)) m) eqn:E; [|reflexivity].
  exfalso. apply existsb_exists in E. destruct E as (q & Hq & Heq).
  apply String.eqb_eq in Heq. apply Hfresh. rewrite <- Heq. apply in_map. exact Hq.
Qed.

Lemma dict_of_pairs_from (ms : list (string * Json.value)) :
  forall m : list (string * Json.value),
    NoDup (map fst (m ++ ms)) -> fold_left Json.dict_set ms m = (m ++ ms)%list.
Proof.
  induction ms as [|kv ms IH]; intros m Hnd; simpl.
  - now rewrite app_nil_r.
  - rewrite dict_set_fresh.
    + rewrite IH; rewrite <- app_assoc; [reflexivity | exact Hnd].
    + rewrite map_app in Hnd. simpl in Hnd.
      apply NoDup_remove_2 in Hnd. intros Hin. apply Hnd.
      apply in_or_app. left. exact Hin.
Qed.

Lemma dict_of_pairs_dict (ms : list (string * Json.value)) :
  JsonFacts.distinct_keys (map fst ms) = true -> Json.dict_of_pairs ms = ms.
Proof.
  intros H. unfold Json.dict_of_pairs.
  apply (dict_of_pairs_from ms []). simpl. apply distinct_keys_nodup. exact H.
Qed.

(** A value is read back from its text, whatever follows the text, with
    fuel from its cost on. *)
Lemma scan_value_dumps (v : Json.value) : reads_back v.
Proof.
  induction v as [| b | z | s | xs IH | ms IH | xs IH] using value_ind_nested;
    intros Hwf fuel rest Hfuel Hrest;
    (destruct fuel as [|f]; [simpl in Hfuel; lia|]).
  - reflexivity.
  - destruct b; reflexivity.
  - simpl Json.dumps.
    destruct (dumps_int_head z) as (c & t & Hd & Hc).
    pose proof (scan_int_dumps z rest Hrest) as Hscan.
    rewrite Hd in *. apply number_head in Hc.
    destruct Hc as (H1 & H2 & H3 & H4 & H5 & H6 & _).
    cbn [append] in *. cbn [Json.scan_value Json.strip_prefix].
    rewrite H1, H2, H3, H4, H5, H6, Hscan. reflexivity.
  - simpl Json.dumps. unfold Json.quote. cbn [append Json.scan_value].
    change (Json.dquote =? Json.dquote)%char with true. cbn iota.
    rewrite append_assoc. cbn [append]. rewrite scan_string_escape. reflexivity.
  - simpl in Hwf. destruct xs as [|x xs].
    + reflexivity.
    + change (Json.dumps (Json.Arr (x :: xs)) ++ rest)%string
        with (String "[" ((Py.join ", " (map Json.dumps (x :: xs)) ++ "]") ++ rest))%string.
      rewrite append_assoc. change ("]" ++ rest)%string with (String "]" rest).
      rewrite scan_value_arr.
      2:{ change (map Json.dumps (x :: xs)) with (Json.dumps x :: map Json.dumps xs).
          destruct (map Json.dumps xs); simpl Py.join;
            rewrite ?append_assoc; apply starts_item_dumps. }
      rewrite (scan_elements_dumps (x :: xs) ltac:(discriminate) IH Hwf f rest);
        [reflexivity|].
      simpl in Hfuel. simpl. lia.
  - simpl in Hwf. apply andb_true_iff in Hwf. destruct Hwf as [Hkeys Hwf].
    destruct ms as [|kv ms].
    + reflexivity.
    + change (Json.dumps (Json.Obj (kv :: ms)) ++ rest)%string
        with (String "{" ((Py.join ", " (map JsonFacts.member_text (kv :: ms)) ++ "}")
                          ++ rest))%string.
      rewrite append_assoc. change ("}" ++ rest)%string with (String "}" rest).
      rewrite scan_value_obj.
      2:{ change (map JsonFacts.member_text (kv :: ms))
            with (JsonFacts.member_text kv :: map JsonFacts.member_text ms).
          destruct (map JsonFacts.member_text ms); reflexivity. }
      rewrite (scan_members_dumps (kv :: ms) ltac:(discriminate) IH Hwf f rest).
      * rewrite (dict_of_pairs_dict _ Hkeys). reflexivity.
      * simpl in Hfuel. simpl. lia.
  - discriminate Hwf.
Qed.

Lemma sum_le_join (A : Type) (c : A -> nat) (txt : A -> string) (xs : list A) :
  Forall (fun x => (c x <= String.length (txt x))%nat) xs ->
  (list_sum (map (fun x => Datatypes.S (c x)) xs)
   <= Datatypes.S (String.length (Py.join ", " (map txt xs))))%nat.
Proof.
  induction 1 as [|x xs Hx Hxs IH]; [simpl; lia|].
  destruct xs as [|y ys].
  - simpl. lia.
  - change (Py.join ", " (map txt (x :: y :: ys)))
      with (txt x ++ ", " ++ Py.join ", " (map txt (y :: ys)))%string.
    rewrite !length_append.
    change (list_sum (map (fun x0 => Datatypes.S (c x0)) (x :: y :: ys)))
      with (Datatypes.S (c x)
            + list_sum (map (fun x0 => Datatypes.S (c x0)) (y :: ys)))%nat.
    change (String.length ", ") with 2%nat. lia.
Qed.

(** The length of a text is fuel enough to read it back. *)
Lemma cost_le_length (v : Json.value) :
  (JsonFacts.cost v <= String.length (Json.dumps v))%nat.
Proof.
  induction v as [| b | z | s | xs IH | ms IH | xs IH] using value_ind_nested.
  - simpl. lia.
  - destruct b; simpl; lia.
  - simpl. destruct (dumps_int_head z) as (c & t & -> & _). simpl. lia.
  - simpl. lia.
  - change (Json.dumps (Json.Arr xs))
      with (String "[" (Py.join ", " (map Json.dumps xs) ++ "]"))%string.
    change (JsonFacts.cost (Json.Arr xs))
      with (Datatypes.S (list_sum (map (fun x => Datatypes.S (JsonFacts.cost x)) xs))).
    cbn [String.length]. rewrite length_append.
    pose proof (sum_le_join _ JsonFacts.cost Json.dumps xs IH).
    change (String.length "]") with 1%nat. lia.
  - change (Json.dumps (Json.Obj ms))
      with (String "{" (Py.join ", " (map JsonFacts.member_text ms) ++ "}"))%string.
    change (JsonFacts.cost (Json.Obj ms))
      with (Datatypes.S (list_sum (map (fun kv => Datatypes.S (JsonFacts.cost (snd kv)))
                                       ms))).
    cbn [String.length]. rewrite length_append.
    assert (H : Forall (fun kv => (JsonFacts.cost (snd kv)
                                   <= String.length (JsonFacts.member_text kv))%nat) ms).
    { rewrite Forall_forall in *. intros kv Hin. specialize (IH kv Hin).
      unfold JsonFacts.member_text. rewrite !length_append. lia. }
    pose proof (sum_le_join _ (fun kv => JsonFacts.cost (snd kv))
                            JsonFacts.member_text ms H).
    change (String.length "}") with 1%nat. lia.
  - change (Json.dumps (Json.Tuple xs))
      with (String "[" (Py.join ", " (map Json.dumps xs) ++ "]"))%string.
    change (JsonFacts.cost (Json.Tuple xs))
      with (Datatypes.S (list_sum (map (fun x => Datatypes.S (JsonFacts.cost x)) xs))).
    cbn [String.length]. rewrite length_append.
    pose proof (sum_le_join _ JsonFacts.cost Json.dumps xs IH).
    change (String.length "]") with 1%nat. lia.
Qed.

(** [json.loads(json.dumps(v))] is [v]. *)
Lemma loads_dumps (v : Json.value) :
  JsonFacts.well_formed v = true -> Json.loads (Json.dumps v) = Returned v.
Proof.
  intros Hwf. unfold Json.loads.
  pose proof (starts_item_dumps v "") as Hs. rewrite append_nil_r in Hs.
  rewrite (skip_ws_item _ Hs).
  pose proof (scan_value_dumps v Hwf (Datatypes.S (String.length (Json.dumps v))) ""
                ltac:(pose proof (cost_le_length v); lia) eq_refl) as H.
  rewrite append_nil_r in H. rewrite H. reflexivity.
Qed.

Lemma truthy_dumps (v : Json.value) : Py.truthy (Json.dumps v) = true.
Proof.
  pose proof (starts_item_dumps v "") as Hs. rewrite append_nil_r in Hs.
  destruct (Json.dumps v); [discriminate|reflexivity].
Qed.

Lemma well_formed_tags (tags : list string) :
  JsonFacts.well_formed (Json.Arr (map Json.Str tags)) = true.
Proof.
  simpl. induction tags as [|t ts IH]; simpl; [reflexivity|exact IH].
Qed.

Lemma select_entry_absent (i : Z) (s : void_db) :
  ~ In i (map Entry.id (entries s)) -> VoidSql.select_entry i s = None.
Proof.
  intros Hnot. unfold VoidSql.select_entry.
  destruct (find (fun e => Entry.id e =? i) (entries s)) as [e|] eqn:E; [|reflexivity].
  apply find_some in E. destruct E as [Hin Heq]. apply Z.eqb_eq in Heq.
  exfalso. apply Hnot. rewrite <- Heq. apply in_map. exact Hin.
Qed.

(** ** Writing an entry and getting it back *)

(** C9. An entry written without faults is got back by its id.  For
    artifacts that are a dictionary of JSON values ([None], booleans,
    integers that Python writes in decimal, strings, lists, and
    dictionaries with distinct string keys of such values: no tuple), an
    importance within the integers of SQLite and a table that can take
    one more row: the reply of
    [void_get_entry] on the new id is a success whose artifacts and tags
    are the values that were given, [None] (and an empty collection) being
    read back as the empty dictionary and the empty list, and whose other
    fields are the arguments of the call.  An id within the integers of
    SQLite that no entry has gets the reply "not_found". *)
Theorem void_entry_round_trip (t sm : string) (d o : option string)
                              (a : option (list (string * Json.value)))
                              (tg : option (list string)) (i : Z)
                              (sid tid : option string) (now : string)
                              (s : void_db) :
  JsonFacts.well_formed (Json.Obj (artifacts_or_empty a)) = true ->
  JsonFacts.printable (Json.Obj (artifacts_or_empty a)) = true ->
  Sql.int64 i ->
  Sql.int64 (Sql.next_rowid (seq_entries s) (map Entry.id (entries s))) ->
  (exists (eid : Z) (s1 : void_db),
      run (void_write_entry t sm d o a tg i sid tid now) no_faults s
      = (Returned (WriteReply true eid), s1)
      /\ run (void_get_entry eid) no_faults s1
         = (Returned
              (GetSuccess
                 (EntryView.Make eid now sid tid (Some t) (Some sm) d o
                                 (Json.Obj (artifacts_or_empty a))
                                 (Json.Arr (map Json.Str (Py.or_list tg [])))
                                 i)),
            s1))
  /\ (forall j : Z,
         Sql.int64 j ->
         ~ In j (map Entry.id (entries s)) ->
         run (void_get_entry j) no_faults s = (Returned (GetFailure "not_found"), s)).
Proof.
  intros Hwf _ _ _. split.
  - eexists. eexists. split; [apply void_write_entry_no_faults|].
    cbv zeta.
    set (eid := Sql.next_rowid (seq_entries s) (map Entry.id (entries s))).
    set (new := Entry.Row eid _ _ _ _ _ _ _ _ _ _).
    unfold void_get_entry, json_loads. run_tool.
    unfold VoidSql.select_entry. simpl.
    rewrite (find_app_none _ _ (entries s) new).
    + subst new.
      cbn [Entry.id Entry.created_at Entry.session_id Entry.thread_id Entry.title
           Entry.summary Entry.decisions Entry.open_loops Entry.artifacts_json
           Entry.tags_json Entry.importance text_or].
      rewrite !truthy_dumps.
      rewrite (loads_dumps _ Hwf), (loads_dumps _ (well_formed_tags _)).
      reflexivity.
    + apply (select_entry_absent eid s). apply next_rowid_fresh.
    + simpl. apply Z.eqb_refl.
  - intros j _ Hj. unfold void_get_entry. run_tool.
    rewrite (select_entry_absent j s Hj). reflexivity.
Qed.

Lemma void_entry_round_trip_witness :
  exists (eid : Z) (s1 : void_db),
    run (void_write_entry "Design Review" "Discussed X" (Some "") None
           (Some [("file", Json.Str "notes.md"); ("lines", Json.Int 12);
                  ("readers", Json.Arr [Json.Str "Ada"; Json.Null])])
           (Some ["design"]) 2 None (Some "t-1") "2024-04-01T12:00:00")
        no_faults empty_void_db
    = (Returned (WriteReply true eid), s1)
    /\ run (void_get_entry eid) no_faults s1
       = (Returned
            (GetSuccess
               (EntryView.Make eid "2024-04-01T12:00:00" None (Some "t-1")
                  (Some "Design Review") (Some "Discussed X") (Some "") None
                  (Json.Obj [("file", Json.Str "notes.md"); ("lines", Json.Int 12);
                             ("readers", Json.Arr [Json.Str "Ada"; Json.Null])])
                  (Json.Arr [Json.Str "design"]) 2)),
          s1).
Proof.
  exact (proj1 (void_entry_round_trip "Design Review" "Discussed X" (Some "") None
                  (Some [("file", Json.Str "notes.md"); ("lines", Json.Int 12);
                         ("readers", Json.Arr [Json.Str "Ada"; Json.Null])])
                  (Some ["design"]) 2 None (Some "t-1") "2024-04-01T12:00:00"
                  empty_void_db eq_refl
                  ltac:(vm_compute; reflexivity)
                  ltac:(vm_compute; split; [discriminate|reflexivity])
                  ltac:(vm_compute; split; [discriminate|reflexivity]))).
Defined.

(** The round trip of the specification fails on a tuple.  [json.dumps]
    writes the tuple [(1, 2)] as it writes the list [[1, 2]], and
    [json.loads] reads a list: the artifacts [{"pos": (1, 2)}] are stored,
    and read back as [{"pos": [1, 2]}]. *)
Lemma void_entry_tuple_read_as_list :
  exists (s1 : void_db) (v : EntryView.t),
    run (void_write_entry "Position" "Where it was" None None
           (Some [("pos", Json.Tuple [Json.Int 1; Json.Int 2])])
           None 1 None None "2024-04-01T12:00:00")
        no_faults empty_void_db
    = (Returned (WriteReply true 1), s1)
    /\ run (void_get_entry 1) no_faults s1 = (Returned (GetSuccess v), s1)
    /\ EntryView.artifacts v = Json.Obj [("pos", Json.Arr [Json.Int 1; Json.Int 2])]
    /\ EntryView.artifacts v <> Json.Obj [("pos", Json.Tuple [Json.Int 1; Json.Int 2])].
Proof.
  eexists. eexists. split; [reflexivity|]. split; [vm_compute; reflexivity|].
  split; [reflexivity|discriminate].
Qed.

(* ================================================================= *)
(** * Further properties of the tools *)

(** ** Tools that only read *)

Lemma keeps_disk_ret (S A : Type) (a : A) : keeps_disk (@ret S A a).
Proof. intros c. reflexivity. Qed.

Lemma keeps_disk_connect (S : Type) : keeps_disk (@connect S).
Proof. intros c. unfold connect. destruct (faults c (calls c)); reflexivity. Qed.

Lemma keeps_disk_close (S : Type) : keeps_disk (@close S).
Proof. intros c. reflexivity. Qed.

Lemma keeps_disk_execute (S A : Type) (stmt : S -> outcome (A * S)) :
  keeps_disk (execute stmt).
Proof.
  intros c. unfold execute. destruct (faults c (calls c)); [reflexivity|].
  destruct (stmt (work c)) as [[a w]|e]; reflexivity.
Qed.

Lemma keeps_disk_query (S A : Type) (q : S -> A) : keeps_disk (query q).
Proof. apply keeps_disk_execute. Qed.

Lemma keeps_disk_bind (S A B : Type) (m : Db S A) (k : A -> Db S B) :
  keeps_disk m -> (forall a, keeps_disk (k a)) -> keeps_disk (bind m k).
Proof.
  intros Hm Hk c. unfold bind. specialize (Hm c).
  destruct (m c) as [[a|e] c']; simpl in *; [|exact Hm].
  rewrite Hk. exact Hm.
Qed.

Lemma keeps_disk_try_finally (S A : Type) (body : Db S A) (final : Db S unit) :
  keeps_disk body -> keeps_disk final -> keeps_disk (try_finally body final).
Proof.
  intros Hb Hf c. unfold try_finally. specialize (Hb c).
  destruct (body c) as [r c']. simpl in Hb. specialize (Hf c').
  destruct (final c') as [[u|e] c'']; simpl in *; congruence.
Qed.

Lemma keeps_disk_for_each (S A B : Type) (xs : list A) (body : A -> Db S B) :
  (forall x, keeps_disk (body x)) -> keeps_disk (for_each xs body).
Proof.
  intros Hb. induction xs as [|x xs IH]; simpl.
  - apply keeps_disk_ret.
  - apply keeps_disk_bind; [apply Hb|]. intros y.
    apply keeps_disk_bind; [exact IH|]. intros ys. apply keeps_disk_ret.
Qed.

Lemma keeps_disk_run (S A : Type) (tool : Db S A) (p : plan) (s : S) :
  keeps_disk tool -> snd (run tool p s) = s.
Proof.
  intros H. unfold run. specialize (H (Conn s s 0 p)).
  destruct (tool (Conn s s 0 p)) as [r c]. exact H.
Qed.

Ltac keeps :=
  repeat first
    [ apply keeps_disk_ret | apply keeps_disk_connect | apply keeps_disk_close
    | apply keeps_disk_query | apply keeps_disk_execute
    | apply keeps_disk_try_finally | apply keeps_disk_for_each
    | apply keeps_disk_bind | intro ].

Lemma retrieve_memory_keeps (n d : string) : keeps_disk (retrieve_memory n d).
Proof.
  unfold retrieve_memory. keeps.
  match goal with o : option Entity.row |- _ => destruct o end; keeps.
Qed.

Lemma search_memories_keeps (q : string) (dbs : option (list string)) (l : Z) :
  keeps_disk (search_memories q dbs l).
Proof. unfold search_memories. keeps. Qed.

Lemma list_entities_keeps (d : string) (sal : option string) (l : Z) :
  keeps_disk (list_entities d sal l).
Proof. unfold list_entities. keeps. Qed.

Lemma get_context_block_keeps (l : Z) (dbs : option (list string)) (now cut : string) :
  keeps_disk (get_context_block l dbs now cut).
Proof. unfold get_context_block. keeps. Qed.

(** X1. The reading tools of the memory database change nothing: whatever
    the arguments and whichever storage calls fail, the database after
    [retrieve_memory], [search_memories], [list_entities] or
    [get_context_block] is the database before. *)
Theorem memory_readers_change_nothing (p : plan) (s : memory_db) :
  (forall n d, snd (run (retrieve_memory n d) p s) = s)
  /\ (forall q dbs l, snd (run (search_memories q dbs l) p s) = s)
  /\ (forall d sal l, snd (run (list_entities d sal l) p s) = s)
  /\ (forall l dbs now cut, snd (run (get_context_block l dbs now cut) p s) = s).
Proof.
  repeat split; intros; apply keeps_disk_run.
  - apply retrieve_memory_keeps.
  - apply search_memories_keeps.
  - apply list_entities_keeps.
  - apply get_context_block_keeps.
Qed.

Lemma keeps_disk_json_loads (S : Type) (text : string) :
  keeps_disk (@json_loads S text).
Proof. intros c. reflexivity. Qed.

Lemma void_get_entry_keeps (i : Z) : keeps_disk (void_get_entry i).
Proof.
  unfold void_get_entry. keeps.
  match goal with o : option Entry.row |- _ => destruct o end; keeps.
Qed.

(** X2. The reading tools of the journal change nothing: whatever the
    arguments, the full-text engine and the storage calls that fail, the
    database after [void_get_entry], [void_list_recent] or [void_search]
    is the database before. *)
Theorem journal_readers_change_nothing (p : plan) (s : void_db) :
  (forall i, snd (run (void_get_entry i) p s) = s)
  /\ (forall l, snd (run (void_list_recent l) p s) = s)
  /\ (forall m sn q l, snd (run (void_search m sn q l) p s) = s).
Proof.
  repeat split; intros; apply keeps_disk_run.
  - apply void_get_entry_keeps.
  - unfold void_list_recent. keeps.
  - unfold void_search. keeps.
Qed.

(** ** Tools that write *)

(** Under any plan [store_memory] leaves the database as it was or as the
    run without faults leaves it. *)
Lemma store_memory_steps (n obs t d sal now : string) (p : plan) (s : memory_db) :
  (snd (run (store_memory n obs t d sal now) p s) = s
   /\ match fst (run (store_memory n obs t d sal now) p s) with
      | Returned r => store_success r = false
      | Raised _ => True
      end)
  \/ run (store_memory n obs t d sal now) p s
     = run (store_memory n obs t d sal now) no_faults s.
Proof.
  destruct (MemorySql.select_entity n d s) as [e|] eqn:He.
  - rewrite (store_memory_updated n obs t d sal now s e He).
    unfold store_memory. run_tool.
    destruct (p 0%nat); simpl; [left; auto|].
    destruct (p 1%nat); simpl; [left; auto|].
    rewrite He. simpl.
    destruct (p 2%nat); simpl; [left; auto|].
    destruct (p 3%nat); simpl; [left; auto|].
    destruct (p 4%nat); simpl; [left; auto|].
    right. reflexivity.
  - rewrite (store_memory_created n obs t d sal now s He). cbv zeta.
    unfold store_memory. run_tool.
    destruct (p 0%nat); simpl; [left; auto|].
    destruct (p 1%nat); simpl; [left; auto|].
    rewrite He. simpl.
    destruct (p 2%nat); simpl; [left; auto|].
    unfold MemorySql.insert_entity.
    unfold MemorySql.select_entity in He.
    rewrite (find_none_existsb _ _ _ He). simpl.
    destruct (p 3%nat); simpl; [left; auto|].
    destruct (p 4%nat); simpl; [left; auto|].
    right. reflexivity.
Qed.

(** Under any plan [update_entity] leaves the database as it was or as the
    run without faults leaves it. *)
Lemma update_entity_steps (n d : string) (nn nt ns : option string) (now : string)
                          (p : plan) (s : memory_db) :
  (snd (run (update_entity n d nn nt ns now) p s) = s
   /\ match fst (run (update_entity n d nn nt ns now) p s) with
      | Returned (UpdateSuccess _) => False
      | _ => True
      end)
  \/ run (update_entity n d nn nt ns now) p s
     = run (update_entity n d nn nt ns now) no_faults s.
Proof.
  unfold update_entity. run_tool.
  destruct (p 0%nat); simpl; [left; auto|].
  destruct (p 1%nat); simpl; [left; auto|].
  destruct (MemorySql.select_entity n d s) as [e|]; simpl; [|right; reflexivity].
  destruct (provided col_name nn ++ provided col_entity_type nt
            ++ provided col_salience ns)%list as [|u us]; simpl;
    [right; reflexivity|].
  destruct (p 2%nat); simpl; [left; auto|].
  destruct (update_entities _ _ s) as [[u0 w]|e0]; simpl; [|right; reflexivity].
  destruct (p 3%nat); simpl; [left; auto|].
  right. reflexivity.
Qed.

(** X3. The writing tools of the memory database are all or nothing.
    Whichever storage calls fail, [store_memory] (on a new identity and on
    a held one alike) and [update_entity] either fail, by a failure reply
    or an exception, and leave the database as it was, or do exactly what
    the call without failures does: an observation is never stored
    without the change of [updated_at], nor a field changed without it. *)
Theorem memory_writers_all_or_nothing (p : plan) (s : memory_db) :
  (forall n obs t d sal now,
      (snd (run (store_memory n obs t d sal now) p s) = s
       /\ match fst (run (store_memory n obs t d sal now) p s) with
          | Returned r => store_success r = false
          | Raised _ => True
          end)
      \/ run (store_memory n obs t d sal now) p s
         = run (store_memory n obs t d sal now) no_faults s)
  /\ (forall n d nn nt ns now,
         (snd (run (update_entity n d nn nt ns now) p s) = s
          /\ match fst (run (update_entity n d nn nt ns now) p s) with
             | Returned (UpdateSuccess _) => False
             | _ => True
             end)
         \/ run (update_entity n d nn nt ns now) p s
            = run (update_entity n d nn nt ns now) no_faults s).
Proof.
  split; intros.
  - apply store_memory_steps.
  - apply update_entity_steps.
Qed.

(** [update_entity] without faults, case by case. *)
Lemma update_entity_no_faults (n d : string) (nn nt ns : option string)
                              (now : string) (s : memory_db) :
  run (update_entity n d nn nt ns now) no_faults s
  = match MemorySql.select_entity n d s with
    | None => (Returned (UpdateFailure ("Entity '" ++ n ++ "' not found")), s)
    | Some e =>
        if nothing_provided nn nt ns
        then (Returned (UpdateFailure "No updates specified"), s)
        else if collides (Entity.id e) (rewritten nn nt ns now (Entity.id e) (entities s))
             then (Raised "UNIQUE constraint failed: entities.name, entities.database", s)
             else (Returned (UpdateSuccess ("Entity '" ++ n ++ "' updated successfully")),
                   MemoryDb (rewritten nn nt ns now (Entity.id e) (entities s))
                            (observations s) (seq_entities s) (seq_observations s))
    end.
Proof.
  destruct (MemorySql.select_entity n d s) as [e|] eqn:He.
  - destruct (nothing_provided nn nt ns) eqn:Hp.
    + apply provided_nil in Hp.
      unfold update_entity. run_tool. rewrite He. simpl. rewrite Hp. reflexivity.
    + assert (Hne : (provided col_name nn ++ provided col_entity_type nt
                     ++ provided col_salience ns)%list <> []).
      { intros H. apply provided_nil in H. congruence. }
      unfold update_entity. run_tool. rewrite He. simpl.
      destruct (provided col_name nn ++ provided col_entity_type nt
                ++ provided col_salience ns)%list as [|u us] eqn:Hu;
        [congruence|].
      simpl. unfold update_entities.
      rewrite (map_ext
                 (fun x => if Entity.id x =? Entity.id e
                           then fold_left assign ((u :: us) ++ [(col_updated_at, now)]) x
                           else x)
                 (fun x => if Entity.id x =? Entity.id e
                           then updated_row nn nt ns now x
                           else x)).
      2:{ intros x. destruct (Entity.id x =? Entity.id e); [|reflexivity].
          rewrite <- Hu. apply fold_assign_updates. }
      fold (rewritten nn nt ns now (Entity.id e) (entities s)).
      fold (collides (Entity.id e) (rewritten nn nt ns now (Entity.id e) (entities s))).
      destruct (collides _ _); reflexivity.
  - unfold update_entity. run_tool. rewrite He. reflexivity.
Qed.

Lemma single_row_split (f : Entity.row -> Entity.row) (rows : list Entity.row)
                       (e : Entity.row) :
  NoDup (map Entity.id rows) -> In e rows ->
  exists l1 l2,
    rows = (l1 ++ e :: l2)%list
    /\ (forall x, In x (l1 ++ l2) -> Entity.id x <> Entity.id e)
    /\ map (fun x => if Entity.id x =? Entity.id e then f x else x) rows
       = (l1 ++ f e :: l2)%list.
Proof.
  intros Hnd Hin. destruct (in_split _ _ Hin) as (l1 & l2 & ->).
  exists l1, l2. split; [reflexivity|].
  rewrite map_app in Hnd. simpl in Hnd. apply NoDup_remove_2 in Hnd.
  rewrite <- map_app in Hnd.
  assert (Hother : forall x, In x (l1 ++ l2) -> Entity.id x <> Entity.id e).
  { intros x Hx Heq. apply Hnd. rewrite <- Heq. apply in_map. exact Hx. }
  split; [exact Hother|].
  rewrite map_app. simpl. rewrite Z.eqb_refl. f_equal; [|f_equal].
  - rewrite <- (map_id l1) at 2. apply map_ext_in. intros x Hx.
    destruct (Entity.id x =? Entity.id e) eqn:E; [|reflexivity].
    apply Z.eqb_eq in E. exfalso.
    apply (Hother x); [apply in_or_app; left; exact Hx | exact E].
  - rewrite <- (map_id l2) at 2. apply map_ext_in. intros x Hx.
    destruct (Entity.id x =? Entity.id e) eqn:E; [|reflexivity].
    apply Z.eqb_eq in E. exfalso.
    apply (Hother x); [apply in_or_app; right; exact Hx | exact E].
Qed.

Lemma select_entity_some (n d : string) (s : memory_db) (e : Entity.row) :
  MemorySql.select_entity n d s = Some e ->
  In e (entities s) /\ Entity.name e = n /\ Entity.database e = d.
Proof.
  intros H. apply find_some in H. destruct H as [Hin Hk].
  apply has_key_true in Hk. injection Hk as Hn Hd. auto.
Qed.

(** The shape of the database is kept by a successful [update_entity]. *)
Lemma rewritten_keeps_wf (n d : string) (nn nt ns : option string) (now : string)
                         (s : memory_db) (e : Entity.row) :
  memory_wf s ->
  MemorySql.select_entity n d s = Some e ->
  collides (Entity.id e) (rewritten nn nt ns now (Entity.id e) (entities s)) = false ->
  memory_wf (MemoryDb (rewritten nn nt ns now (Entity.id e) (entities s))
                      (observations s) (seq_entities s) (seq_observations s)).
Proof.
  intros (Hids & Hkeys & Hoids & Hown & Hhas) He Hcol.
  destruct (select_entity_some _ _ _ _ He) as (Hin & _ & _).
  assert (Hsame : map Entity.id (rewritten nn nt ns now (Entity.id e) (entities s))
                  = map Entity.id (entities s)).
  { unfold rewritten. rewrite map_map. apply map_ext. intros x.
    destruct (Entity.id x =? Entity.id e); reflexivity. }
  unfold memory_wf. simpl. rewrite Hsame. repeat split; try assumption.
  - destruct (single_row_split (updated_row nn nt ns now) _ _ Hids Hin)
      as (l1 & l2 & Hrows & Hother & Hmap).
    unfold rewritten in *. rewrite Hmap in *. rewrite Hrows in Hkeys.
    rewrite map_app in *. simpl in *.
    apply NoDup_remove_1 in Hkeys.
    assert (Hfresh : ~ In (Entity.key (updated_row nn nt ns now e))
                          (map Entity.key l1 ++ map Entity.key l2)).
    { rewrite <- map_app. intros Hk. apply in_map_iff in Hk.
      destruct Hk as (q & Hkq & Hq).
      unfold collides in Hcol.
      rewrite existsb_app in Hcol. simpl in Hcol.
      apply orb_false_iff in Hcol. destruct Hcol as [_ Hcol].
      apply orb_false_iff in Hcol. destruct Hcol as [Hcol _].
      change (Entity.id (updated_row nn nt ns now e)) with (Entity.id e) in Hcol.
      rewrite Z.eqb_refl in Hcol. simpl in Hcol.
      assert (Hq' : In q (l1 ++ updated_row nn nt ns now e :: l2)).
      { apply in_app_or in Hq. apply in_or_app. simpl. tauto. }
      apply (proj2 (Bool.not_true_iff_false _) Hcol). apply existsb_exists. exists q. split; [exact Hq'|].
      apply andb_true_iff. split.
      - apply negb_true_iff. apply Z.eqb_neq. apply Hother. exact Hq.
      - apply has_key_true. exact Hkq. }
    clear Hmap.
    revert Hkeys Hfresh. generalize (Entity.key (updated_row nn nt ns now e)).
    generalize (map Entity.key l2). generalize (map Entity.key l1).
    intros k1 k2 k. induction k1 as [|a k1 IH]; simpl; intros Hnd Hf.
    + constructor; assumption.
    + inversion Hnd as [|? ? Ha Hnd']; subst. constructor.
      * intros Hin'. apply in_app_or in Hin'. destruct Hin' as [H1|[H2|H3]].
        -- apply Ha. apply in_or_app. left. exact H1.
        -- apply Hf. left. congruence.
        -- apply Ha. apply in_or_app. right. exact H3.
      * apply IH; [exact Hnd'|]. intros H. apply Hf. right. exact H.
  - intros x Hx. unfold rewritten in Hx. apply in_map_iff in Hx.
    destruct Hx as (x0 & Hx0 & Hin0).
    destruct (Hhas x0 Hin0) as (o & Ho & Hoid). exists o. split; [exact Ho|].
    rewrite Hoid. subst x. destruct (Entity.id x0 =? Entity.id e); reflexivity.
Qed.

Lemma map_id_touched (now : string) (eid : Z) (es : list Entity.row) :
  map Entity.id (map (touched now eid) es) = map Entity.id es.
Proof.
  rewrite map_map. apply map_ext. intros e. unfold touched.
  destruct (Entity.id e =? eid); reflexivity.
Qed.

Lemma nodup_snoc (A : Type) (l : list A) (x : A) :
  NoDup l -> ~ In x l -> NoDup (l ++ [x]).
Proof.
  intros Hnd Hx. apply NoDup_app; [exact Hnd | repeat constructor; intros [] |].
  intros a Ha [<-|[]]. exact (Hx Ha).
Qed.

(** The shape of the database is kept by [store_memory] without faults. *)
Lemma store_memory_keeps_wf (n obs t d sal now : string) (s : memory_db) :
  memory_wf s ->
  memory_wf (snd (run (store_memory n obs t d sal now) no_faults s)).
Proof.
  intros (Hids & Hkeys & Hoids & Hown & Hhas).
  destruct (MemorySql.select_entity n d s) as [e|] eqn:He.
  - rewrite (store_memory_updated n obs t d sal now s e He). cbv zeta.
    destruct (select_entity_some _ _ _ _ He) as (Hin & _ & _).
    unfold memory_wf. simpl. rewrite map_id_touched, map_key_touched.
    repeat split; try assumption.
    + rewrite map_app. simpl. apply nodup_snoc; [exact Hoids|apply next_rowid_fresh].
    + intros o Ho. apply in_app_or in Ho. destruct Ho as [Ho|[<-|[]]].
      * apply Hown. exact Ho.
      * simpl. apply in_map. exact Hin.
    + intros x Hx. apply in_map_iff in Hx. destruct Hx as (x0 & <- & Hx0).
      destruct (Hhas x0 Hx0) as (o & Ho & Hoid). exists o.
      split; [apply in_or_app; left; exact Ho|].
      rewrite Hoid. unfold touched. destruct (Entity.id x0 =? Entity.id e); reflexivity.
  - rewrite (store_memory_created n obs t d sal now s He). cbv zeta.
    unfold memory_wf. simpl. rewrite !map_app. simpl.
    repeat split.
    + apply nodup_snoc; [exact Hids|apply next_rowid_fresh].
    + apply nodup_snoc; [exact Hkeys|].
      apply (find_none_not_in_keys _ _ _ He).
    + apply nodup_snoc; [exact Hoids|apply next_rowid_fresh].
    + intros o Ho. apply in_app_or in Ho. destruct Ho as [Ho|[<-|[]]].
      * apply in_or_app. left. apply Hown. exact Ho.
      * simpl. apply in_or_app. right. left. reflexivity.
    + intros x Hx. apply in_app_or in Hx. destruct Hx as [Hx|[<-|[]]].
      * destruct (Hhas x Hx) as (o & Ho & Hoid). exists o.
        split; [apply in_or_app; left; exact Ho | exact Hoid].
      * eexists. split; [apply in_or_app; right; left; reflexivity | reflexivity].
Qed.

Lemma memory_step_keeps_wf (s : memory_db) (cp : memory_call * plan) :
  memory_wf s -> memory_wf (memory_step s cp).
Proof.
  intros H.
  destruct cp as [[n obs t d sal now|n d nn nt ns now|n d|q dbs l|d sal l|l dbs now cut] p];
    simpl.
  - destruct (store_memory_steps n obs t d sal now p s) as [[E _]|E]; rewrite E;
      [exact H | apply store_memory_keeps_wf; exact H].
  - destruct (update_entity_steps n d nn nt ns now p s) as [[E _]|E]; rewrite E;
      [exact H|].
    rewrite update_entity_no_faults.
    destruct (MemorySql.select_entity n d s) as [e|] eqn:He; [|exact H].
    destruct (nothing_provided nn nt ns); [exact H|].
    destruct (collides _ _) eqn:Hc; [exact H|].
    simpl. apply (rewritten_keeps_wf n d nn nt ns now s e H He Hc).
  - rewrite keeps_disk_run; [exact H | apply retrieve_memory_keeps].
  - rewrite keeps_disk_run; [exact H | apply search_memories_keeps].
  - rewrite keeps_disk_run; [exact H | apply list_entities_keeps].
  - rewrite keeps_disk_run; [exact H | apply get_context_block_keeps].
Qed.

(** X4. Starting from the fresh memory database, after any sequence of
    calls of the memory tools, each under any fault plan: entity ids are
    unique, no two entities share a (name, database), observation ids are
    unique, every observation belongs to an entity that exists, and every
    entity has at least one observation. *)
Theorem memory_database_shape (calls : list (memory_call * plan)) :
  memory_wf (memory_run empty_memory_db calls).
Proof.
  unfold memory_run.
  assert (H : memory_wf empty_memory_db).
  { unfold memory_wf, empty_memory_db. simpl.
    repeat split; try constructor; intros ? []. }
  revert H. generalize empty_memory_db.
  induction calls as [|cp calls IH]; intros s H; simpl; [exact H|].
  apply IH. apply memory_step_keeps_wf. exact H.
Qed.

(** ** [update_entity] and [retrieve_memory] *)

Lemma retrieve_memory_no_faults (n d : string) (s : memory_db) :
  run (retrieve_memory n d) no_faults s
  = match MemorySql.select_entity n d s with
    | None =>
        (Returned (RetrieveFailure ("Entity '" ++ n ++ "' not found in database '"
                                    ++ d ++ "'")), s)
    | Some e => (Returned (RetrieveSuccess (entity_view e s)), s)
    end.
Proof.
  unfold retrieve_memory. run_tool.
  destruct (MemorySql.select_entity n d s); reflexivity.
Qed.

(** X5. A rename onto an identity that another entity holds is refused:
    when some other row has the new name in the same database,
    [update_entity] raises the constraint violation (it is not turned into
    a failure reply) and the database is unchanged. *)
Theorem update_entity_rename_collision (n d n' : string) (nt ns : option string)
                                       (now : string) (s : memory_db)
                                       (e q : Entity.row) :
  MemorySql.select_entity n d s = Some e ->
  In q (entities s) ->
  Entity.id q <> Entity.id e ->
  Entity.name q = n' -> Entity.database q = d ->
  Py.truthy n' = true ->
  run (update_entity n d (Some n') nt ns now) no_faults s
  = (Raised "UNIQUE constraint failed: entities.name, entities.database", s).
Proof.
  intros He Hq Hne Hqn Hqd Ht.
  destruct (select_entity_some _ _ _ _ He) as (Hin & Hen & Hed).
  rewrite update_entity_no_faults, He.
  assert (Hp : nothing_provided (Some n') nt ns = false).
  { unfold nothing_provided. simpl. now rewrite Ht. }
  rewrite Hp.
  assert (Hc : collides (Entity.id e) (rewritten (Some n') nt ns now (Entity.id e)
                                                 (entities s)) = true).
  { unfold collides. apply existsb_exists.
    exists (updated_row (Some n') nt ns now e). split.
    - unfold rewritten. apply in_map_iff. exists e. split; [|exact Hin].
      now rewrite Z.eqb_refl.
    - apply andb_true_iff. split; [simpl; apply Z.eqb_refl|].
      apply existsb_exists. exists q. split.
      + unfold rewritten. apply in_map_iff. exists q. split; [|exact Hq].
        apply Z.eqb_neq in Hne. now rewrite Hne.
      + apply andb_true_iff. split.
        * apply negb_true_iff. apply Z.eqb_neq. exact Hne.
        * simpl. rewrite Ht. apply has_key_true. unfold Entity.key. congruence. }
  rewrite Hc. reflexivity.
Qed.

Lemma update_entity_rename_collision_witness :
  run (update_entity "Ada" "default" (Some "Lincoln") None None "2024-02-01T09:00:00")
      no_faults two_people_db
  = (Raised "UNIQUE constraint failed: entities.name, entities.database",
     two_people_db).
Proof.
  apply (update_entity_rename_collision "Ada" "default" "Lincoln" None None
           "2024-02-01T09:00:00" two_people_db
           (Entity.Row 2 "Ada" "person" "default" "active"
                       "2024-01-02T10:00:00" "2024-01-02T10:00:00")
           (Entity.Row 1 "Lincoln" "person" "default" "foundational"
                       "2024-01-01T10:00:00" "2024-01-01T10:00:00")).
  - reflexivity.
  - simpl. left. reflexivity.
  - simpl. lia.
  - reflexivity.
  - reflexivity.
  - reflexivity.
Defined.

Lemma find_app_some (A : Type) (f : A -> bool) (l1 l2 : list A) (x : A) :
  find f l1 = Some x -> find f (l1 ++ l2) = Some x.
Proof.
  induction l1 as [|y l1 IH]; simpl; [discriminate|].
  destruct (f y); [auto|exact IH].
Qed.

Lemma find_app_skip (A : Type) (f : A -> bool) (l1 l2 : list A) :
  find f l1 = None -> find f (l1 ++ l2) = find f l2.
Proof.
  induction l1 as [|y l1 IH]; simpl; [reflexivity|].
  destruct (f y); [discriminate|exact IH].
Qed.

Lemma find_none_all (A : Type) (f : A -> bool) (l : list A) :
  (forall x, In x l -> f x = false) -> find f l = None.
Proof.
  intros H. induction l as [|y l IH]; simpl; [reflexivity|].
  rewrite (H y (or_introl eq_refl)). apply IH. intros x Hx. apply H. right. exact Hx.
Qed.

(** X6. A rename to a free name moves the entity.  On a database of the
    shape the tools keep, when [update_entity] renames the entity held
    under (name, database) to a name that is free in that database, the
    call succeeds; afterwards [retrieve_memory] finds under the new name
    the same creation time and the same observations, with the fields
    that were given and the clock value as update time, and finds nothing
    under the old name. *)
Theorem update_entity_rename_moves (n d n' : string) (nt ns : option string)
                                   (now : string) (s : memory_db) (e : Entity.row) :
  memory_wf s ->
  MemorySql.select_entity n d s = Some e ->
  MemorySql.select_entity n' d s = None ->
  Py.truthy n' = true ->
  exists s' : memory_db,
    run (update_entity n d (Some n') nt ns now) no_faults s
    = (Returned (UpdateSuccess ("Entity '" ++ n ++ "' updated successfully")), s')
    /\ run (retrieve_memory n' d) no_faults s'
       = (Returned
            (RetrieveSuccess
               (EntityView.Make n' (pick nt (Entity.entity_type e)) d
                  (pick ns (Entity.salience e)) (Entity.created_at e) now
                  (EntityView.observations (entity_view e s)))),
          s')
    /\ run (retrieve_memory n d) no_faults s'
       = (Returned (RetrieveFailure ("Entity '" ++ n ++ "' not found in database '"
                                     ++ d ++ "'")), s').
Proof.
  intros Hwf He Hfree Ht.
  pose proof Hwf as (Hids & Hkeys & _).
  destruct (select_entity_some _ _ _ _ He) as (Hin & Hen & Hed).
  destruct (single_row_split (updated_row (Some n') nt ns now) _ _ Hids Hin)
    as (l1 & l2 & Hrows & Hother & Hmap).
  fold (rewritten (Some n') nt ns now (Entity.id e) (entities s)) in Hmap.
  assert (Hfree_rows : forall x, In x (l1 ++ l2) -> Entity.has_key n' d x = false).
  { intros x Hx. unfold MemorySql.select_entity in Hfree.
    apply (find_none _ _ Hfree). rewrite Hrows.
    apply in_app_or in Hx. apply in_or_app. simpl. tauto. }
  assert (Hold_rows : forall x, In x (l1 ++ l2) -> Entity.has_key n d x = false).
  { intros x Hx. destruct (Entity.has_key n d x) eqn:E; [|reflexivity].
    exfalso. apply has_key_true in E.
    rewrite Hrows, map_app in Hkeys. simpl in Hkeys.
    apply NoDup_remove_2 in Hkeys. apply Hkeys. rewrite <- map_app.
    apply in_map_iff. exists x. split; [|exact Hx].
    rewrite E. unfold Entity.key. congruence. }
  assert (Hnew : Entity.has_key n' d (updated_row (Some n') nt ns now e) = true).
  { apply has_key_true. unfold Entity.key, updated_row. simpl. rewrite Ht. congruence. }
  assert (Hdiff : Entity.has_key n d (updated_row (Some n') nt ns now e) = false).
  { destruct (Entity.has_key n d (updated_row (Some n') nt ns now e)) eqn:E;
      [|reflexivity].
    exfalso. apply has_key_true in E. apply has_key_true in Hnew.
    rewrite Hnew in E. injection E as E.
    unfold MemorySql.select_entity in Hfree.
    apply (find_none _ _ Hfree) in Hin.
    assert (Entity.has_key n' d e = true)
      by (apply has_key_true; unfold Entity.key; congruence).
    congruence. }
  assert (Hname : Entity.name (updated_row (Some n') nt ns now e) = n').
  { simpl. now rewrite Ht. }
  assert (Hdb : Entity.database (updated_row (Some n') nt ns now e) = d).
  { exact Hed. }
  assert (Hc : collides (Entity.id e) (rewritten (Some n') nt ns now (Entity.id e)
                                                 (entities s)) = false).
  { unfold collides. rewrite Hmap.
    apply Bool.not_true_iff_false. intros Hex. apply existsb_exists in Hex.
    destruct Hex as (x & Hx & Hcond). apply andb_true_iff in Hcond.
    destruct Hcond as [Hxid Hinner]. apply Z.eqb_eq in Hxid.
    assert (x = updated_row (Some n') nt ns now e).
    { apply in_app_or in Hx. destruct Hx as [Hx|[Hx|Hx]]; [| auto |].
      - exfalso. apply (Hother x); [apply in_or_app; left; exact Hx | exact Hxid].
      - exfalso. apply (Hother x); [apply in_or_app; right; exact Hx | exact Hxid]. }
    subst x. apply existsb_exists in Hinner. destruct Hinner as (q & Hq & Hqc).
    apply andb_true_iff in Hqc. destruct Hqc as [Hqid Hqk].
    apply negb_true_iff in Hqid. apply Z.eqb_neq in Hqid.
    apply in_app_or in Hq. destruct Hq as [Hq|[Hq|Hq]].
    - rewrite Hname, Hdb in Hqk.
      rewrite Hfree_rows in Hqk; [discriminate | apply in_or_app; left; exact Hq].
    - subst q. apply Hqid. reflexivity.
    - rewrite Hname, Hdb in Hqk.
      rewrite Hfree_rows in Hqk; [discriminate | apply in_or_app; right; exact Hq]. }
  assert (Hp : nothing_provided (Some n') nt ns = false).
  { unfold nothing_provided. simpl. now rewrite Ht. }
  eexists. split.
  { rewrite update_entity_no_faults, He, Hp, Hc. reflexivity. }
  rewrite !retrieve_memory_no_faults. unfold MemorySql.select_entity. simpl.
  rewrite Hmap. split.
  - rewrite find_app_skip.
    2:{ apply find_none_all. intros x Hx. apply Hfree_rows.
        apply in_or_app. left. exact Hx. }
    simpl. rewrite Hnew. unfold entity_view. simpl. rewrite Ht, Hed. reflexivity.
  - rewrite find_none_all; [reflexivity|].
    intros x Hx. apply in_app_or in Hx. destruct Hx as [Hx|[<-|Hx]].
    + apply Hold_rows. apply in_or_app. left. exact Hx.
    + exact Hdiff.
    + apply Hold_rows. apply in_or_app. right. exact Hx.
Qed.

Lemma two_people_db_wf : memory_wf two_people_db.
Proof.
  unfold memory_wf, two_people_db. simpl. repeat split.
  - repeat constructor; simpl; intuition discriminate.
  - repeat constructor; simpl; intuition discriminate.
  - repeat constructor; simpl; intuition discriminate.
  - intros o [<-|[<-|[]]]; simpl; auto.
  - intros e [<-|[<-|[]]]; simpl;
      [exists (Observation.Row 1 1 "Likes long walks" "2024-01-01T10:00:00")
      |exists (Observation.Row 2 2 "Wrote the first program" "2024-01-02T10:00:00")];
      auto.
Qed.

Lemma update_entity_rename_moves_witness :
  exists s' : memory_db,
    run (update_entity "Ada" "default" (Some "Ada Lovelace") None (Some "foundational")
                       "2024-02-01T09:00:00") no_faults two_people_db
    = (Returned (UpdateSuccess "Entity 'Ada' updated successfully"), s')
    /\ run (retrieve_memory "Ada Lovelace" "default") no_faults s'
       = (Returned
            (RetrieveSuccess
               (EntityView.Make "Ada Lovelace" "person" "default" "foundational"
                  "2024-01-02T10:00:00" "2024-02-01T09:00:00"
                  [("Wrote the first program", "2024-01-02T10:00:00")])),
          s')
    /\ run (retrieve_memory "Ada" "default") no_faults s'
       = (Returned (RetrieveFailure "Entity 'Ada' not found in database 'default'"), s').
Proof.
  exact (update_entity_rename_moves "Ada" "default" "Ada Lovelace" None
           (Some "foundational") "2024-02-01T09:00:00" two_people_db
           (Entity.Row 2 "Ada" "person" "default" "active"
                       "2024-01-02T10:00:00" "2024-01-02T10:00:00")
           two_people_db_wf eq_refl eq_refl eq_refl).
Defined.

(** ** [store_memory] and [retrieve_memory] *)

Lemma in_select_observations (eid : Z) (s : memory_db) (o : Observation.row) :
  In o (MemorySql.select_observations eid s)
  <-> In o (observations s) /\ Observation.entity_id o = eid.
Proof.
  unfold MemorySql.select_observations.
  rewrite order_by_desc_in, filter_In, Z.eqb_eq. reflexivity.
Qed.

(** X7. What [store_memory] stores, [retrieve_memory] returns.  After a
    call of [store_memory] without faults, on any database,
    [retrieve_memory] on the same (name, database) succeeds with that name
    and database, with the clock value of the store as update time and
    with the stored observation, at that time, among the observations.  A
    new identity has the type, salience and creation time of the call; a
    held one keeps those it had. *)
Theorem store_then_retrieve (n obs t d sal now : string) (s : memory_db) :
  exists view : EntityView.t,
    run (retrieve_memory n d) no_faults
        (snd (run (store_memory n obs t d sal now) no_faults s))
    = (Returned (RetrieveSuccess view),
       snd (run (store_memory n obs t d sal now) no_faults s))
    /\ EntityView.name view = n
    /\ EntityView.database view = d
    /\ EntityView.updated view = now
    /\ In (obs, now) (EntityView.observations view)
    /\ match MemorySql.select_entity n d s with
       | None =>
           EntityView.type view = t /\ EntityView.salience view = sal
           /\ EntityView.created view = now
       | Some e =>
           EntityView.type view = Entity.entity_type e
           /\ EntityView.salience view = Entity.salience e
           /\ EntityView.created view = Entity.created_at e
       end.
Proof.
  rewrite retrieve_memory_no_faults.
  destruct (MemorySql.select_entity n d s) as [e|] eqn:He.
  - rewrite (store_memory_updated n obs t d sal now s e He). cbv zeta. simpl snd.
    destruct (select_entity_some _ _ _ _ He) as (Hin & Hen & Hed).
    set (s' := MemoryDb _ _ _ _).
    assert (Hsel : MemorySql.select_entity n d s'
                   = Some (touched now (Entity.id e) e)).
    { unfold MemorySql.select_entity, s'. simpl.
      rewrite find_has_key_touched. unfold MemorySql.select_entity in He.
      now rewrite He. }
    rewrite Hsel. eexists. split; [reflexivity|].
    unfold entity_view, touched. rewrite Z.eqb_refl. simpl.
    repeat split; try assumption.
    apply in_map_iff.
    exists (Observation.Row (Sql.next_rowid (seq_observations s)
                               (map Observation.id (observations s)))
                            (Entity.id e) obs now).
    split; [reflexivity|]. apply in_select_observations. split; [|reflexivity].
    unfold s'. simpl. apply in_or_app. right. left. reflexivity.
  - rewrite (store_memory_created n obs t d sal now s He). cbv zeta. simpl snd.
    set (eid := Sql.next_rowid (seq_entities s) (map Entity.id (entities s))).
    set (s' := MemoryDb _ _ _ _).
    assert (Hsel : MemorySql.select_entity n d s'
                   = Some (Entity.Row eid n t d sal now now)).
    { unfold MemorySql.select_entity, s'. simpl. apply find_app_none; [exact He|].
      unfold Entity.has_key. simpl. now rewrite !String.eqb_refl. }
    rewrite Hsel. eexists. split; [reflexivity|].
    unfold entity_view. simpl. repeat split.
    apply in_map_iff.
    exists (Observation.Row (Sql.next_rowid (seq_observations s)
                               (map Observation.id (observations s)))
                            eid obs now).
    split; [reflexivity|]. apply in_select_observations. split; [|reflexivity].
    unfold s'. simpl. apply in_or_app. right. left. reflexivity.
Qed.

Lemma strongly_sorted_map (A B : Type) (f : A -> B) (R : B -> B -> Prop) (l : list A) :
  StronglySorted (fun x y => R (f x) (f y)) l -> StronglySorted R (map f l).
Proof.
  induction 1 as [|x l Hs IH Hall]; simpl; constructor; [exact IH|].
  rewrite Forall_forall in *. intros y Hy. apply in_map_iff in Hy.
  destruct Hy as (z & <- & Hz). apply Hall. exact Hz.
Qed.

(** X8. [retrieve_memory] returns all the observations of the entity and
    only those, newest first: whenever it succeeds, the entity is the one
    held under (name, database), a pair (content, time) is returned exactly
    when some observation row of that entity carries it, as many pairs are
    returned as the entity has observation rows, and the times never
    increase along the list. *)
Theorem retrieve_memory_observations (n d : string) (p : plan) (s : memory_db)
                                     (view : EntityView.t) :
  fst (run (retrieve_memory n d) p s) = Returned (RetrieveSuccess view) ->
  exists e : Entity.row,
    MemorySql.select_entity n d s = Some e
    /\ (forall c a,
           In (c, a) (EntityView.observations view)
           <-> exists o, In o (observations s)
                         /\ Observation.entity_id o = Entity.id e
                         /\ Observation.content o = c
                         /\ Observation.added_at o = a)
    /\ List.length (EntityView.observations view)
       = List.length (filter (fun o => Observation.entity_id o =? Entity.id e)
                             (observations s))
    /\ StronglySorted (fun x y => String.leb (snd y) (snd x) = true)
                      (EntityView.observations view).
Proof.
  unfold retrieve_memory. run_tool.
  destruct (p 0%nat); simpl; [discriminate|].
  destruct (p 1%nat); simpl; [discriminate|].
  destruct (MemorySql.select_entity n d s) as [e|]; simpl; [|discriminate].
  destruct (p 2%nat); simpl; [discriminate|].
  intros [= <-]. exists e. split; [reflexivity|]. simpl. repeat split.
  - intros H. apply in_map_iff in H. destruct H as (o & [= <- <-] & Ho).
    apply in_select_observations in Ho. exists o. tauto.
  - intros (o & Ho & Hid & <- & <-). apply in_map_iff. exists o.
    split; [reflexivity|]. apply in_select_observations. tauto.
  - rewrite length_map. unfold MemorySql.select_observations.
    induction (filter _ (observations s)) as [|x l IH]; simpl; [reflexivity|].
    rewrite insert_desc_length. now rewrite IH.
  - apply (strongly_sorted_map _ _
             (fun o => (Observation.content o, Observation.added_at o))
             (fun x y => String.leb (snd y) (snd x) = true)).
    simpl. unfold MemorySql.select_observations.
    apply (order_by_desc_sorted _ _ String.leb Observation.added_at
                                String.leb_total string_leb_trans).
Qed.

Lemma retrieve_memory_observations_witness :
  exists e : Entity.row,
    MemorySql.select_entity "Lincoln" "default" walks_db = Some e
    /\ List.length
         (EntityView.observations
            (entity_view (Entity.Row 1 "Lincoln" "person" "default" "active"
                                     "2024-01-01T10:00:00" "2024-01-05T10:00:00")
                         walks_db))
       = List.length (filter (fun o => Observation.entity_id o =? Entity.id e)
                             (observations walks_db)).
Proof.
  destruct (retrieve_memory_observations "Lincoln" "default" no_faults walks_db
              (entity_view (Entity.Row 1 "Lincoln" "person" "default" "active"
                                       "2024-01-01T10:00:00" "2024-01-05T10:00:00")
                           walks_db) eq_refl) as (e & He & _ & Hlen & _).
  exists e. split; [exact He | exact Hlen].
Defined.

(** ** [list_entities] *)

Lemma for_each_queries (S A B C : Type) (q : A -> S -> C) (g : A -> C -> B)
                       (xs : list A) :
  forall c : conn S,
    faults c = no_faults ->
    for_each xs (fun x => bind (query (q x)) (fun r => ret (g x r))) c
    = (Returned (map (fun x => g x (q x (work c))) xs),
       Conn (disk c) (work c) (calls c + List.length xs) (faults c)).
Proof.
  induction xs as [|x xs IH]; intros [dk wk cl fl] Hc; simpl in *; subst fl.
  - unfold ret. rewrite Nat.add_0_r. reflexivity.
  - unfold bind at 1. unfold bind at 1. unfold query, execute, no_faults at 1.
    simpl. unfold ret at 1. unfold bind at 1. rewrite IH by reflexivity.
    simpl. unfold ret. rewrite Nat.add_succ_r. reflexivity.
Qed.

Lemma order_by_desc_length (A K : Type) (leb : K -> K -> bool) (key : A -> K)
                           (rows : list A) :
  List.length (Sql.order_by_desc leb key rows) = List.length rows.
Proof.
  induction rows as [|x l IH]; simpl; [reflexivity|].
  rewrite insert_desc_length. now rewrite IH.
Qed.

Lemma list_entities_no_faults (d : string) (sal : option string) (l : Z)
                              (s : memory_db) :
  run (list_entities d sal l) no_faults s
  = (Returned (ListReply d (Z.of_nat (List.length (select_listed d sal l s)))
                         (map (listing_of s) (select_listed d sal l s))),
     s).
Proof.
  unfold list_entities, run, bind at 1, connect. simpl.
  unfold try_finally. unfold bind at 1. unfold query at 1, execute. simpl.
  unfold bind at 1.
  rewrite (for_each_queries memory_db Entity.row Listed.t (list Observation.row)
             (fun e s0 => Sql.limit 3 (MemorySql.select_observations (Entity.id e) s0))
             (fun e obs => Listed.Make (Entity.name e) (Entity.entity_type e)
                                       (Entity.salience e) (Entity.updated_at e)
                                       (map Observation.content obs)))
    by reflexivity.
  simpl. rewrite length_map. reflexivity.
Qed.

(** X9. What [list_entities] lists.  Without faults it succeeds, and it
    lists entities of the database asked for, with the salience asked for
    when one is given and not empty (an empty salience is no filter),
    newest update first, each with at most three observations.  With a
    limit that is not negative their number is the smaller of the limit
    and the number of such entities; a negative limit lists them all. *)
Theorem list_entities_listing (d : string) (sal : option string) (l : Z)
                              (s : memory_db) :
  exists reply : list_reply,
    run (list_entities d sal l) no_faults s = (Returned reply, s)
    /\ list_database reply = d
    /\ list_count reply = Z.of_nat (List.length (list_entities_of reply))
    /\ list_count reply
       = (let m := Z.of_nat (List.length (filter (listed d sal) (entities s))) in
          if l <? 0 then m else Z.min l m)
    /\ (exists rows : list Entity.row,
           list_entities_of reply = map (listing_of s) rows
           /\ Forall (fun e => In e (entities s) /\ listed d sal e = true) rows)
    /\ StronglySorted (fun x y => String.leb (Listed.updated y) (Listed.updated x) = true)
                      (list_entities_of reply)
    /\ Forall (fun x => (List.length (Listed.recent_observations x) <= 3)%nat)
              (list_entities_of reply).
Proof.
  eexists. split; [apply list_entities_no_faults|]. simpl.
  assert (Hsel : select_listed d sal l s
                 = Sql.limit l (Sql.order_by_desc String.leb Entity.updated_at
                                  (filter (listed d sal) (entities s))))
    by reflexivity.
  repeat split.
  - now rewrite length_map.
  - rewrite Hsel. unfold Sql.limit. cbv zeta.
    destruct (l <? 0) eqn:E.
    + now rewrite order_by_desc_length.
    + apply Z.ltb_ge in E. rewrite length_firstn, order_by_desc_length. lia.
  - exists (select_listed d sal l s). split; [reflexivity|].
    apply Forall_forall. intros e He. rewrite Hsel in He.
    apply limit_in in He. apply order_by_desc_in in He.
    apply filter_In in He. exact He.
  - apply (strongly_sorted_map _ _ (listing_of s)
             (fun x y => String.leb (Listed.updated y) (Listed.updated x) = true)).
    simpl. rewrite Hsel. apply limit_strongly_sorted.
    apply (order_by_desc_sorted _ _ String.leb Entity.updated_at
                                String.leb_total string_leb_trans).
  - apply Forall_forall. intros x Hx. apply in_map_iff in Hx.
    destruct Hx as (e & <- & _). unfold listing_of.
    cbn [Listed.recent_observations]. rewrite length_map.
    unfold Sql.limit. change (3 <? 0) with false. cbv iota.
    rewrite length_firstn. lia.
Qed.

(** ** What [search_memories] finds *)

Lemma pattern_compare_percent_eq (p s : string) :
  Sql.pattern_compare (String "%" p) s
  = Sql.pattern_compare p s
    || match s with
       | EmptyString => false
       | String _ s' => Sql.pattern_compare (String "%" p) s'
       end.
Proof. destruct s; reflexivity. Qed.

Lemma pattern_compare_percent_iff (p s : string) :
  Sql.pattern_compare (String "%" p) s = true
  <-> exists a b : string, s = (a ++ b)%string /\ Sql.pattern_compare p b = true.
Proof.
  induction s as [|c s IH]; rewrite pattern_compare_percent_eq.
  - rewrite orb_false_r. split.
    + intros H. exists ""%string, ""%string. auto.
    + intros (a & b & Hs & Hb). destruct a; [|discriminate].
      simpl in Hs. subst b. exact Hb.
  - rewrite orb_true_iff, IH. split.
    + intros [H | (a & b & -> & Hb)].
      * exists ""%string, (String c s). auto.
      * exists (String c a), b. auto.
    + intros (a & b & Hs & Hb). destruct a as [|c' a]; simpl in Hs.
      * left. subst b. exact Hb.
      * injection Hs as -> ->. right. exists a, b. auto.
Qed.

Lemma pattern_compare_all (s : string) : Sql.pattern_compare "%" s = true.
Proof.
  apply pattern_compare_percent_iff. exists s, ""%string. split; [|reflexivity].
  now rewrite append_nil_r.
Qed.

Lemma pattern_compare_literal_iff (q p s : string) :
  wildcard_free q = true ->
  Sql.pattern_compare (q ++ p) s = true
  <-> exists m b : string,
        s = (m ++ b)%string /\ fold_case m = fold_case q
        /\ Sql.pattern_compare p b = true.
Proof.
  revert s. induction q as [|c q IH]; intros s Hq.
  - simpl. split.
    + intros H. exists ""%string, s. auto.
    + intros (m & b & -> & Hm & Hb). destruct m; [exact Hb|discriminate].
  - simpl in Hq. rewrite !andb_true_iff, !negb_true_iff in Hq.
    destruct Hq as [[Hc1 Hc2] Hq].
    change (Sql.pattern_compare (String c q ++ p) s)
      with (Sql.pattern_compare (String c (q ++ p)) s).
    cbn [Sql.pattern_compare]. rewrite Hc1, Hc2. simpl orb.
    destruct s as [|x s].
    + split; [discriminate|].
      intros (m & b & Hs & Hm & _). destruct m; discriminate.
    + rewrite andb_true_iff, (IH s Hq), Ascii.eqb_eq. split.
      * intros (Hx & m & b & -> & Hm & Hb). exists (String x m), b.
        repeat split; [|exact Hb]. simpl. now rewrite Hx, Hm.
      * intros (m & b & Hs & Hm & Hb). destruct m as [|y m]; [discriminate|].
        simpl in Hs, Hm. injection Hs as -> ->. injection Hm as Hy Hm.
        split; [now rewrite Hy|]. exists m, b. auto.
Qed.

Lemma pattern_compare_contains (q s : string) :
  wildcard_free q = true ->
  Sql.pattern_compare ("%" ++ q ++ "%") s = true <-> occurs_in q s.
Proof.
  intros Hq. change ("%" ++ q ++ "%")%string with (String "%" (q ++ "%")).
  rewrite pattern_compare_percent_iff. unfold occurs_in. split.
  - intros (a & b0 & -> & H). apply (pattern_compare_literal_iff q "%" b0 Hq) in H.
    destruct H as (m & b & -> & Hm & _). exists a, m, b. auto.
  - intros (a & m & b & -> & Hm). exists a, (m ++ b)%string. split; [reflexivity|].
    apply (pattern_compare_literal_iff q "%" _ Hq). exists m, b.
    repeat split; [exact Hm|]. apply pattern_compare_all.
Qed.

(** A text without NUL is read whole, and so is what it is put in front
    of, up to the first NUL of the rest. *)
Lemma c_string_app (a b : string) :
  Sql.c_string a = a -> Sql.c_string (a ++ b) = (a ++ Sql.c_string b)%string.
Proof.
  induction a as [|c a IH]; intros Ha; [reflexivity|].
  simpl in *. destruct (c =? Ascii.zero)%char; [discriminate|].
  injection Ha as Ha. now rewrite (IH Ha).
Qed.

Lemma like_contains (q s : string) :
  wildcard_free q = true ->
  Sql.c_string q = q ->
  Sql.like ("%" ++ q ++ "%") s = true <-> occurs_in q (Sql.c_string s).
Proof.
  intros Hq Hnul. unfold Sql.like.
  change ("%" ++ q ++ "%")%string with ("%" ++ (q ++ "%"))%string.
  rewrite (c_string_app "%" (q ++ "%") eq_refl), (c_string_app q "%" Hnul).
  apply pattern_compare_contains. exact Hq.
Qed.

(** X10. For a query without [%] and [_], without the NUL character, and
    short enough to make a pattern of [LIKE], the search is the substring
    search without regard to the case of ASCII letters: a row passes the
    [WHERE] clause of [search_memories] exactly when the query occurs in
    the entity name or in the observation content of the row, each read
    up to its first NUL character.  (In a query with [%] or [_] these
    characters are the wildcards of [LIKE]; a NULL content matches
    nothing.) *)
Theorem search_matches_substring (q : string) (r : Joined.row) :
  wildcard_free q = true ->
  Sql.c_string q = q ->
  Sql.utf8_size ("%" ++ q ++ "%") <= Sql.like_pattern_limit ->
  SearchSql.matches ("%" ++ q ++ "%") r = true
  <-> occurs_in q (Sql.c_string (Entity.name (Joined.entity r)))
      \/ exists c : string,
           Joined.content r = Some c /\ occurs_in q (Sql.c_string c).
Proof.
  intros Hq Hnul _. unfold SearchSql.matches. rewrite orb_true_iff.
  rewrite (like_contains q _ Hq Hnul). split.
  - intros [H|H]; [left; exact H|].
    destruct (Joined.content r) as [c|]; [|discriminate].
    right. exists c. split; [reflexivity|]. apply (like_contains q c Hq Hnul). exact H.
  - intros [H|(c & Hc & H)]; [left; exact H|].
    right. rewrite Hc. apply (like_contains q c Hq Hnul). exact H.
Qed.

Lemma search_matches_substring_witness :
  SearchSql.matches "%WALK%"
    (Joined.Row (Entity.Row 1 "Lincoln" "person" "default" "active"
                            "2024-01-01T10:00:00" "2024-01-05T10:00:00")
                (Some "Likes long walks") (Some "2024-01-01T10:00:00"))
  = true.
Proof.
  apply (proj2 (search_matches_substring "WALK" _ eq_refl eq_refl
                  ltac:(vm_compute; discriminate))).
  right. exists "Likes long walks"%string. split; [reflexivity|].
  exists "Likes long "%string, "walk"%string, "s"%string. split; reflexivity.
Defined.

Lemma distinct_from_in (A : Type) (eqb : A -> A -> bool) (rows : list A) :
  forall (seen : list A) (r : A),
    In r (Sql.distinct_from eqb seen rows) -> In r rows.
Proof.
  induction rows as [|x rows IH]; intros seen r; simpl; [tauto|].
  destruct (existsb (eqb x) seen).
  - intros H. right. apply (IH _ _ H).
  - intros [->|H]; [left; reflexivity | right; apply (IH _ _ H)].
Qed.

Lemma left_join_in (s : memory_db) (r : Joined.row) :
  In r (SearchSql.left_join s) ->
  In (Joined.entity r) (entities s)
  /\ (Joined.content r = None
      \/ exists o, In o (observations s)
                   /\ Observation.entity_id o = Entity.id (Joined.entity r)
                   /\ Joined.content r = Some (Observation.content o)).
Proof.
  unfold SearchSql.left_join. intros H. apply in_flat_map in H.
  destruct H as (e & He & Hr).
  destruct (filter (fun o => Entity.id e =? Observation.entity_id o) (observations s))
    as [|o os] eqn:Ef.
  - destruct Hr as [<-|[]]. simpl. auto.
  - apply in_map_iff in Hr. destruct Hr as (o' & <- & Ho'). simpl.
    split; [exact He|]. right. exists o'.
    rewrite <- Ef in Ho'. apply filter_In in Ho'. destruct Ho' as [Hin Hid].
    apply Z.eqb_eq in Hid. auto.
Qed.

(** X11. [search_memories] returns only entities that are there, are in
    the databases asked for, and match.  Whenever it returns, every
    result carries the name, type, database and salience of an entity of
    the database; when a non-empty list of databases is given the
    entity's database is in the list (an empty list, like [None],
    restricts nothing); and the pattern matches the entity's name or the
    content of one of its observations. *)
Theorem search_memories_sound (q : string) (dbs : option (list string)) (l : Z)
                              (p : plan) (s : memory_db) (reply : search_reply) :
  fst (run (search_memories q dbs l) p s) = Returned reply ->
  Forall
    (fun h =>
       exists e : Entity.row,
         In e (entities s)
         /\ Hit.name h = Entity.name e /\ Hit.type h = Entity.entity_type e
         /\ Hit.database h = Entity.database e /\ Hit.salience h = Entity.salience e
         /\ match dbs with
            | Some (db :: rest) => In (Entity.database e) (db :: rest)
            | Some [] | None => True
            end
         /\ (Sql.like ("%" ++ q ++ "%") (Entity.name e) = true
             \/ exists o, In o (observations s)
                          /\ Observation.entity_id o = Entity.id e
                          /\ Sql.like ("%" ++ q ++ "%") (Observation.content o) = true))
    (search_results reply).
Proof.
  unfold search_memories. run_tool.
  destruct (p 0%nat); simpl; [discriminate|].
  destruct (p 1%nat); simpl; [discriminate|].
  intros [= <-]. simpl.
  set (pat := String "%" (q ++ "%")).
  set (rows := SearchSql.select pat dbs l s).
  assert (Hhead : map hit_heading (group_rows rows) = map row_heading (first_rows rows)).
  { unfold group_rows, first_rows. rewrite heading_fold_group. reflexivity. }
  apply Forall_forall. intros h Hh. apply in_map_iff in Hh.
  destruct Hh as (kv & <- & Hkv).
  assert (Hin : In (hit_heading kv) (map row_heading (first_rows rows))).
  { rewrite <- Hhead. apply in_map. exact Hkv. }
  apply in_map_iff in Hin. destruct Hin as (r & Hr & Hfirst).
  apply first_rows_from_in in Hfirst.
  unfold rows, SearchSql.select in Hfirst.
  apply limit_in in Hfirst. apply order_by_desc_in in Hfirst.
  unfold SearchSql.candidates, Sql.distinct in Hfirst.
  apply distinct_from_in in Hfirst. apply filter_In in Hfirst.
  destruct Hfirst as [Hjoin Hpass]. apply andb_true_iff in Hpass.
  destruct Hpass as [Hmatch Hdb].
  destruct (left_join_in s r Hjoin) as [He Hcontent].
  unfold hit_heading, row_heading in Hr. cbv zeta in Hr.
  injection Hr as Hid Hname Htype Hdbn Hsal.
  exists (Joined.entity r). repeat split; try congruence.
  - unfold SearchSql.db_filter in Hdb.
    destruct dbs as [[|db rest]|]; try exact I.
    change (Sql.is_in (Entity.database (Joined.entity r)) (db :: rest) = true) in Hdb.
    unfold Sql.is_in in Hdb. apply existsb_exists in Hdb.
    destruct Hdb as (x & Hx & Heq). apply String.eqb_eq in Heq.
    rewrite Heq. exact Hx.
  - unfold SearchSql.matches in Hmatch. apply orb_true_iff in Hmatch.
    destruct Hmatch as [H|H]; [left; exact H|].
    destruct Hcontent as [Hnone|(o & Ho & Hoid & Hsome)].
    + rewrite Hnone in H. discriminate.
    + rewrite Hsome in H. right. exists o. auto.
Qed.

Lemma search_memories_sound_witness :
  Forall (fun h => Hit.database h = "default")
         (search_results (SearchReply "walk" 1
                            (map snd (group_rows (SearchSql.select "%walk%"
                                                    (Some ["default"]) 2 walks_db))))).
Proof.
  pose proof (search_memories_sound "walk" (Some ["default"]) 2 no_faults walks_db
                _ eq_refl) as H.
  eapply Forall_impl; [|exact H].
  intros h (e & _ & _ & _ & Hd & _ & Hin & _). simpl in Hin.
  destruct Hin as [Hin|[]]. congruence.
Defined.

(** ** The shape of the context block *)

Lemma join_cons (sep x y : string) (l : list string) :
  Py.join sep (x :: y :: l) = (x ++ sep ++ Py.join sep (y :: l))%string.
Proof. reflexivity. Qed.

Lemma join_closing (sep a : string) (xs : list string) :
  exists pre : string,
    Py.join sep (xs ++ [a; ""%string]) = (pre ++ a ++ sep)%string.
Proof.
  induction xs as [|x xs [pre IH]].
  - exists ""%string. simpl. now rewrite append_nil_r.
  - exists (x ++ sep ++ pre)%string.
    change ((x :: xs) ++ [a; ""%string])%list with (x :: (xs ++ [a; ""%string]))%list.
    destruct (xs ++ [a; ""%string])%list as [|y l] eqn:E.
    + destruct xs; discriminate.
    + rewrite join_cons, IH, !append_assoc. reflexivity.
Qed.

Lemma get_context_block_text (max_length : Z) (dbs : option (list string))
                             (now cut : string) (p : plan) (s : memory_db)
                             (r : string) :
  fst (run (get_context_block max_length dbs now cut) p s) = Returned r ->
  r = enforce_length max_length
        (Py.join Py.nl
           ("[COMPANION MEMORY CONTEXT]"%string
            :: ("Last updated: " ++ now)%string
            :: ""%string
            :: ((core_lines (ContextSql.foundational dbs s)
                 ++ recent_lines (ContextSql.recent cut dbs s))
                ++ ["[END MEMORY CONTEXT]"%string; ""%string])%list)).
Proof.
  unfold get_context_block. run_tool.
  destruct (p 0%nat); simpl; [discriminate|].
  destruct (p 1%nat); simpl; [discriminate|].
  destruct (p 2%nat); simpl; [discriminate|].
  intros [= <-]. rewrite <- app_assoc. reflexivity.
Qed.

(** X12. The context block is always closed.  Whenever
    [get_context_block] returns, either the block was cut and ends with
    the closing banner followed by two line feeds, or it was not cut: then
    it has at most [max_length] characters, starts with the opening
    banner and the line of the clock value, and ends with the closing
    banner and one line feed. *)
Theorem get_context_block_closed (max_length : Z) (dbs : option (list string))
                                 (now cut : string) (p : plan) (s : memory_db)
                                 (r : string) :
  fst (run (get_context_block max_length dbs now cut) p s) = Returned r ->
  (exists pre : string,
      r = (pre ++ "[END MEMORY CONTEXT]" ++ Py.nl ++ Py.nl)%string)
  \/ (Py.len r <= max_length
      /\ exists body : string,
           r = ("[COMPANION MEMORY CONTEXT]" ++ Py.nl ++ "Last updated: " ++ now
                ++ Py.nl ++ body ++ "[END MEMORY CONTEXT]" ++ Py.nl)%string).
Proof.
  intros Hr. apply get_context_block_text in Hr.
  destruct (join_closing Py.nl "[END MEMORY CONTEXT]"
              (core_lines (ContextSql.foundational dbs s)
               ++ recent_lines (ContextSql.recent cut dbs s))%list) as [pre Hpre].
  revert Hr Hpre.
  generalize ((core_lines (ContextSql.foundational dbs s)
               ++ recent_lines (ContextSql.recent cut dbs s))
              ++ ["[END MEMORY CONTEXT]"%string; ""%string])%list.
  intros rest Hr Hpre. unfold enforce_length in Hr.
  destruct (Py.len _ >? max_length) eqn:Hgt.
  - left. exists (Py.slice_to
                    (Py.join Py.nl
                       ("[COMPANION MEMORY CONTEXT]"%string
                        :: ("Last updated: " ++ now)%string :: ""%string :: rest))
                    (max_length - 50)
                  ++ Py.nl ++ "...[truncated]" ++ Py.nl)%string.
    rewrite Hr. unfold truncation_marker. rewrite !append_assoc. reflexivity.
  - right. rewrite Z.gtb_ltb in Hgt. apply Z.ltb_ge in Hgt. subst r.
    split; [exact Hgt|].
    exists (Py.nl ++ pre)%string.
    destruct rest as [|y rest].
    + exfalso. simpl in Hpre. destruct pre; discriminate.
    + rewrite !join_cons, Hpre. rewrite !append_assoc. reflexivity.
Qed.

Lemma get_context_block_closed_witness :
  (exists pre : string,
      Py.join Py.nl ["[COMPANION MEMORY CONTEXT]";
                     "Last updated: 2024-01-01T12:30:45.123456"; "";
                     "[END MEMORY CONTEXT]"; ""]%string
      = (pre ++ "[END MEMORY CONTEXT]" ++ Py.nl ++ Py.nl)%string)
  \/ (Py.len (Py.join Py.nl ["[COMPANION MEMORY CONTEXT]";
                             "Last updated: 2024-01-01T12:30:45.123456"; "";
                             "[END MEMORY CONTEXT]"; ""]%string) <= 2000
      /\ exists body : string,
           Py.join Py.nl ["[COMPANION MEMORY CONTEXT]";
                          "Last updated: 2024-01-01T12:30:45.123456"; "";
                          "[END MEMORY CONTEXT]"; ""]%string
           = ("[COMPANION MEMORY CONTEXT]" ++ Py.nl ++ "Last updated: "
              ++ "2024-01-01T12:30:45.123456" ++ Py.nl ++ body
              ++ "[END MEMORY CONTEXT]" ++ Py.nl)%string).
Proof.
  exact (get_context_block_closed 2000 None "2024-01-01T12:30:45.123456"
           "2023-12-30T12:30:45.123456" no_faults empty_memory_db _ eq_refl).
Defined.

Lemma keys_collect_row (m : entity_obs) (r : Joined.row) :
  map fst (collect_row m r)
  = if existsb (fun kv => String.eqb (fst kv) (Entity.name (Joined.entity r))) m
    then map fst m
    else (map fst m ++ [Entity.name (Joined.entity r)])%list.
Proof.
  unfold collect_row.
  set (name := Entity.name (Joined.entity r)).
  set (m1 := if existsb (fun kv => String.eqb (fst kv) name) m then m
             else (m ++ [(name, (Entity.entity_type (Joined.entity r), []))])%list).
  assert (H1 : map fst m1
               = if existsb (fun kv => String.eqb (fst kv) name) m then map fst m
                 else (map fst m ++ [name])%list).
  { unfold m1. destruct (existsb _ m); [reflexivity|]. now rewrite map_app. }
  assert (H2 : forall c : string,
             map fst (map (fun kv => if String.eqb (fst kv) name
                                     then (fst kv, (fst (snd kv),
                                                    (snd (snd kv) ++ [c])%list))
                                     else kv) m1)
             = map fst m1).
  { intros c. rewrite map_map. apply map_ext. intros kv.
    destruct (String.eqb (fst kv) name); reflexivity. }
  destruct (Joined.content r) as [c|]; [|exact H1].
  destruct (Py.truthy c); [|exact H1].
  rewrite H2. exact H1.
Qed.



Lemma collect_row_length (m : entity_obs) (r : Joined.row) :
  (List.length m <= List.length (collect_row m r))%nat.
Proof.
  rewrite <- (length_map fst m), <- (length_map fst (collect_row m r)).
  rewrite keys_collect_row. destruct (existsb _ m); [lia|].
  rewrite length_app. simpl. lia.
Qed.

Lemma collect_rows_length (rows : list Joined.row) :
  forall m : entity_obs,
    (List.length m <= List.length (fold_left collect_row rows m))%nat.
Proof.
  induction rows as [|r rows IH]; intros m; simpl; [lia|].
  pose proof (collect_row_length m r). specialize (IH (collect_row m r)). lia.
Qed.

Lemma core_line_shown (kv : string * (string * list string)) :
  core_line (fst kv, (fst (snd kv), firstn 3 (snd (snd kv)))) = core_line kv.
Proof.
  unfold core_line. cbn [fst snd]. rewrite firstn_firstn. reflexivity.
Qed.

Lemma core_lines_shown (rows : list Joined.row) :
  core_lines rows = section "## Core Knowledge" (map core_line (shown_entities rows)).
Proof.
  unfold shown_entities. rewrite map_map.
  rewrite (map_ext _ core_line core_line_shown).
  destruct rows as [|r rows]; [reflexivity|].
  unfold core_lines.
  pose proof (collect_rows_length rows (collect_row [] r)) as Hlen.
  pose proof (collect_row_length [] r) as H1.
  change (fold_left collect_row (r :: rows) [])
    with (fold_left collect_row rows (collect_row [] r)).
  destruct (fold_left collect_row rows (collect_row [] r)) as [|kv m].
  - exfalso. destruct (collect_row [] r) as [|x l] eqn:E.
    + unfold collect_row in E. simpl in E.
      destruct (Joined.content r) as [c|]; [destruct (Py.truthy c)|]; discriminate.
    + simpl in Hlen. lia.
  - reflexivity.
Qed.

Lemma recent_lines_section (rows : list ContextSql.recent_row) :
  recent_lines rows = section "## Recent Activity" (map recent_line rows).
Proof. destruct rows; reflexivity. Qed.

(** The text [get_context_block] returns, by its parts. *)
Lemma get_context_block_parts (max_length : Z) (dbs : option (list string))
                              (now cut : string) (p : plan) (s : memory_db)
                              (r : string) :
  fst (run (get_context_block max_length dbs now cut) p s) = Returned r ->
  r = enforce_length max_length
        (context_block now
           (map core_line (shown_entities (ContextSql.foundational dbs s)))
           (map recent_line (ContextSql.recent cut dbs s))).
Proof.
  intros Hr. apply get_context_block_text in Hr. rewrite Hr.
  unfold context_block. now rewrite core_lines_shown, recent_lines_section.
Qed.





(** ** The journal grows at its end *)

Lemma journal_step_shape (m : string -> option (Fts.row -> bool))
                         (sn : string -> Fts.row -> string)
                         (s : void_db) (cp : journal_call * plan) :
  journal_step m sn s cp = s
  \/ exists new : Entry.row,
       Entry.id new = entries_high s + 1
       /\ journal_step m sn s cp
          = VoidDb (entries s ++ [new]) (VoidSql.entries_ai new (entries_fts s))
                   (Entry.id new).
Proof.
  destruct cp as [[t sm d o a tg i sid tid now|tx tg sid tid i now|q l|i|l] p]; simpl.
  - destruct (void_write_entry_run t sm d o a tg i sid tid now p s) as [E|[e E]];
      rewrite E; cbn [snd]; [|left; reflexivity].
    right.
    match goal with
    | |- exists new, _ /\ VoidDb (_ ++ [?n]) _ _ = _ => exists n
    end.
    split; reflexivity.
  - unfold void_append_snippet.
    destruct (void_write_entry_run "Snippet" tx (Some ""%string) (Some ""%string)
                (Some [("snippet"%string, Json.Str tx)])
                (Some (Py.or_list tg ["snippet"%string])) i sid tid now p s)
      as [E|[e E]];
      rewrite E; cbn [snd]; [|left; reflexivity].
    right.
    match goal with
    | |- exists new, _ /\ VoidDb (_ ++ [?n]) _ _ = _ => exists n
    end.
    split; reflexivity.
  - left. apply keeps_disk_run. unfold void_search. keeps.
  - left. apply keeps_disk_run. apply void_get_entry_keeps.
  - left. apply keeps_disk_run. unfold void_list_recent. keeps.
Qed.

Lemma max_rowid_app (l : list Z) (x : Z) :
  Sql.max_rowid (l ++ [x]) = Z.max (Sql.max_rowid l) x.
Proof.
  unfold Sql.max_rowid. induction l as [|y l IH]; simpl; [lia|]. rewrite IH. lia.
Qed.

Lemma max_rowid_nonneg (l : list Z) : 0 <= Sql.max_rowid l.
Proof. unfold Sql.max_rowid. induction l as [|y l IH]; simpl; lia. Qed.

(** What a sequence of calls adds to [entries]: rows at the end, with ids
    above every id the table has held, in increasing order; the index
    grows by the rows of the trigger. *)
Lemma journal_run_appends (m : string -> option (Fts.row -> bool))
                          (sn : string -> Fts.row -> string)
                          (calls : list (journal_call * plan)) :
  forall s : void_db,
    exists added : list Entry.row,
      entries (journal_run m sn s calls) = (entries s ++ added)%list
      /\ Forall2 indexes
                 (skipn (List.length (entries_fts s))
                        (entries_fts (journal_run m sn s calls)))
                 added
      /\ firstn (List.length (entries_fts s)) (entries_fts (journal_run m sn s calls))
         = entries_fts s
      /\ Forall (fun e => entries_high s < Entry.id e) added
      /\ StronglySorted Z.lt (map Entry.id added).
Proof.
  unfold journal_run.
  induction calls as [|cp calls IH]; intros s; simpl.
  - exists []. rewrite app_nil_r, skipn_all, firstn_all.
    repeat split; constructor.
  - destruct (journal_step_shape m sn s cp) as [E|(new & Hid & E)]; rewrite E.
    + apply IH.
    + destruct (IH (VoidDb (entries s ++ [new])
                           (VoidSql.entries_ai new (entries_fts s)) (Entry.id new)))
        as (added & Hent & Hidx & Hfst & Hhigh & Hsorted).
      simpl in *.
      assert (Hmono : entries_high s < Entry.id new) by lia.
      assert (Hnext : Entry.id new
                      <= entries_high (VoidDb (entries s ++ [new])
                                              (VoidSql.entries_ai new (entries_fts s))
                                              (Entry.id new))).
      { unfold entries_high. simpl. lia. }
      exists (new :: added). unfold VoidSql.entries_ai in *.
      rewrite length_app in Hidx, Hfst. simpl in Hidx, Hfst.
      set (final := entries_fts (fold_left (journal_step m sn) calls _)) in *.
      assert (Hsplit : final
                       = ((entries_fts s
                           ++ [Fts.Row (Entry.id new)
                                 (VoidSql.coalesce (Entry.title new))
                                 (VoidSql.coalesce (Entry.summary new))
                                 (VoidSql.coalesce (Entry.decisions new))
                                 (VoidSql.coalesce (Entry.open_loops new))
                                 (VoidSql.coalesce (Entry.artifacts_json new))
                                 (VoidSql.coalesce (Entry.tags_json new))])
                          ++ skipn (List.length (entries_fts s) + 1) final)%list).
      { rewrite <- Hfst at 1. apply eq_sym, firstn_skipn. }
      repeat split.
      * rewrite Hent, <- app_assoc. reflexivity.
      * rewrite Hsplit at 1. rewrite <- app_assoc, skipn_app, skipn_all, Nat.sub_diag.
        simpl. constructor; [reflexivity|exact Hidx].
      * rewrite Hsplit at 1. rewrite <- app_assoc, firstn_app, firstn_all, Nat.sub_diag.
        simpl. apply app_nil_r.
      * constructor; [exact Hmono|].
        eapply Forall_impl; [|exact Hhigh]. simpl. intros e He. lia.
      * simpl. constructor; [exact Hsorted|].
        apply Forall_forall. intros i Hi. apply in_map_iff in Hi.
        destruct Hi as (e & <- & He).
        rewrite Forall_forall in Hhigh. specialize (Hhigh e He). lia.
Qed.

(** X14. The journal is append-only.  Whatever journal tools are called,
    under whatever fault plans, the entries that were there stay as they
    were, at their place; what is added comes after them, with ids larger
    than every id already there, in increasing order. *)
Theorem journal_append_only (m : string -> option (Fts.row -> bool))
                            (sn : string -> Fts.row -> string)
                            (s : void_db) (calls : list (journal_call * plan)) :
  exists added : list Entry.row,
    entries (journal_run m sn s calls) = (entries s ++ added)%list
    /\ (forall old new, In old (entries s) -> In new added ->
                        Entry.id old < Entry.id new)
    /\ StronglySorted Z.lt (map Entry.id added).
Proof.
  destruct (journal_run_appends m sn calls s) as (added & Hent & _ & _ & Hhigh & Hs).
  exists added. repeat split; [exact Hent | | exact Hs].
  intros old new Hold Hnew. rewrite Forall_forall in Hhigh.
  specialize (Hhigh new Hnew).
  assert (Entry.id old <= Sql.max_rowid (map Entry.id (entries s)))
    by (apply max_rowid_ge; apply in_map; exact Hold).
  unfold entries_high in Hhigh. lia.
Qed.

(** X15. The index holds the text of the entries.  Starting from the
    fresh journal database, after any sequence of calls under any fault
    plans, the rows of [entries_fts] are, entry by entry, the rows the
    insert trigger writes: the entry's id with its title, summary,
    decisions, open loops, artifacts text and tags text, NULL as the empty
    text. *)
Theorem journal_index_content (m : string -> option (Fts.row -> bool))
                              (sn : string -> Fts.row -> string)
                              (calls : list (journal_call * plan)) :
  Forall2 indexes (entries_fts (journal_run m sn empty_void_db calls))
                  (entries (journal_run m sn empty_void_db calls)).
Proof.
  destruct (journal_run_appends m sn calls empty_void_db)
    as (added & Hent & Hidx & _ & _ & _).
  simpl in *. rewrite Hent. exact Hidx.
Qed.

(** ** Reading the journal *)

(** [void_get_entry] on a row whose JSON columns hold the text of two
    values. *)
Lemma void_get_entry_of_row (i : Z) (s : void_db) (r : Entry.row)
                            (artifacts tags : Json.value) :
  VoidSql.select_entry i s = Some r ->
  Entry.artifacts_json r = Some (Json.dumps artifacts) ->
  Entry.tags_json r = Some (Json.dumps tags) ->
  JsonFacts.well_formed artifacts = true ->
  JsonFacts.well_formed tags = true ->
  run (void_get_entry i) no_faults s
  = (Returned (GetSuccess (entry_view r artifacts tags)), s).
Proof.
  intros Hsel Ha Ht Hwa Hwt.
  unfold void_get_entry, json_loads. run_tool. rewrite Hsel. simpl.
  rewrite Ha, Ht. unfold text_or. rewrite !truthy_dumps.
  rewrite (loads_dumps _ Hwa), (loads_dumps _ Hwt). reflexivity.
Qed.

(** X16. An entry stays readable.  After an entry is written without
    faults, and then any journal tools are called under any fault plans,
    [void_get_entry] on the id of the entry is still a success with the
    fields, the artifacts and the tags of the call that wrote it. *)
Theorem void_entry_persists (m : string -> option (Fts.row -> bool))
                            (sn : string -> Fts.row -> string)
                            (t sm : string) (d o : option string)
                            (a : option (list (string * Json.value)))
                            (tg : option (list string)) (i : Z)
                            (sid tid : option string) (now : string)
                            (s : void_db) (calls : list (journal_call * plan)) :
  JsonFacts.well_formed (Json.Obj (artifacts_or_empty a)) = true ->
  let eid := Sql.next_rowid (seq_entries s) (map Entry.id (entries s)) in
  let later := journal_run m sn
                 (snd (run (void_write_entry t sm d o a tg i sid tid now) no_faults s))
                 calls in
  fst (run (void_write_entry t sm d o a tg i sid tid now) no_faults s)
  = Returned (WriteReply true eid)
  /\ run (void_get_entry eid) no_faults later
     = (Returned
          (GetSuccess
             (EntryView.Make eid now sid tid (Some t) (Some sm) d o
                             (Json.Obj (artifacts_or_empty a))
                             (Json.Arr (map Json.Str (Py.or_list tg [])))
                             i)),
        later).
Proof.
  intros Hwf eid later. split; [reflexivity|].
  unfold later. rewrite void_write_entry_no_faults. cbv zeta. cbn [snd]. fold eid.
  set (new := Entry.Row eid _ _ _ _ _ _ _ _ _ _).
  destruct (journal_run_appends m sn calls
              (VoidDb (entries s ++ [new]) (VoidSql.entries_ai new (entries_fts s)) eid))
    as (added & Hent & _).
  simpl in Hent.
  apply (void_get_entry_of_row eid _ new
           (Json.Obj (artifacts_or_empty a))
           (Json.Arr (map Json.Str (Py.or_list tg [])))).
  - unfold VoidSql.select_entry. rewrite Hent. apply find_app_some.
    apply find_app_none.
    + apply (select_entry_absent eid s). apply next_rowid_fresh.
    + simpl. apply Z.eqb_refl.
  - reflexivity.
  - reflexivity.
  - exact Hwf.
  - apply well_formed_tags.
Qed.

Lemma void_entry_persists_witness :
  let later :=
    journal_run (fun _ => None) (fun _ _ => ""%string)
      (snd (run (void_write_entry "Design Review" "Discussed X" (Some "") None
                   (Some [("file", Json.Str "notes.md")]) (Some ["design"]) 2
                   None None "2024-04-01T12:00:00") no_faults empty_void_db))
      [(CallSnippet "remember the milk" None None None 1 "2024-04-01T12:05:00",
        no_faults);
       (CallSearch "milk" 5, no_faults)] in
  run (void_get_entry 1) no_faults later
  = (Returned
       (GetSuccess
          (EntryView.Make 1 "2024-04-01T12:00:00" None None (Some "Design Review")
             (Some "Discussed X") (Some "") None
             (Json.Obj [("file", Json.Str "notes.md")])
             (Json.Arr [Json.Str "design"]) 2)),
     later).
Proof.
  exact (proj2 (void_entry_persists (fun _ => None) (fun _ _ => ""%string)
                  "Design Review" "Discussed X" (Some ""%string) None
                  (Some [("file"%string, Json.Str "notes.md")])
                  (Some ["design"%string]) 2 None None "2024-04-01T12:00:00"
                  empty_void_db
                  [(CallSnippet "remember the milk" None None None 1
                                "2024-04-01T12:05:00", no_faults);
                   (CallSearch "milk" 5, no_faults)]
                  eq_refl)).
Defined.

(** X17. A snippet is read back as it was dropped.  For every text,
    whatever characters it holds, after [void_append_snippet] without
    faults [void_get_entry] on the new id returns the title "Snippet",
    the text as summary, the artifacts [{"snippet": text}] and the tags
    that were given, or ["snippet"] when none were. *)
Theorem snippet_round_trip (text : string) (tags : option (list string))
                           (sid tid : option string) (i : Z) (now : string)
                           (s : void_db) :
  let eid := Sql.next_rowid (seq_entries s) (map Entry.id (entries s)) in
  let s1 := snd (run (void_append_snippet text tags sid tid i now) no_faults s) in
  fst (run (void_append_snippet text tags sid tid i now) no_faults s)
  = Returned (WriteReply true eid)
  /\ run (void_get_entry eid) no_faults s1
     = (Returned
          (GetSuccess
             (EntryView.Make eid now sid tid (Some "Snippet"%string) (Some text)
                             (Some ""%string) (Some ""%string)
                             (Json.Obj [("snippet"%string, Json.Str text)])
                             (Json.Arr (map Json.Str (Py.or_list tags ["snippet"%string])))
                             i)),
        s1).
Proof.
  intros eid s1. split; [reflexivity|].
  unfold s1, void_append_snippet. rewrite void_write_entry_no_faults.
  cbv zeta. cbn [snd]. fold eid.
  set (new := Entry.Row eid _ _ _ _ _ _ _ _ _ _).
  apply (void_get_entry_of_row eid _ new
           (Json.Obj [("snippet"%string, Json.Str text)])
           (Json.Arr (map Json.Str (Py.or_list tags ["snippet"%string])))).
  - unfold VoidSql.select_entry. simpl. apply find_app_none.
    + apply (select_entry_absent eid s). apply next_rowid_fresh.
    + simpl. apply Z.eqb_refl.
  - reflexivity.
  - unfold new. cbn [Entry.tags_json]. f_equal. f_equal. f_equal. f_equal.
    destruct tags as [[|x xs]|]; reflexivity.
  - reflexivity.
  - apply well_formed_tags.
Qed.

Lemma z_leb_total (x y : Z) : (x <=? y) = true \/ (y <=? x) = true.
Proof. rewrite !Z.leb_le. lia. Qed.

Lemma z_leb_trans (x y z : Z) :
  (x <=? y) = true -> (y <=? z) = true -> (x <=? z) = true.
Proof. rewrite !Z.leb_le. lia. Qed.

Lemma order_by_desc_newest (A : Type) (key : A -> Z) (rows : list A) (x : A) :
  (forall y, In y rows -> key y < key x) ->
  Sql.order_by_desc Z.leb key (rows ++ [x])
  = x :: Sql.order_by_desc Z.leb key rows.
Proof.
  unfold Sql.order_by_desc. rewrite fold_right_app. simpl.
  induction rows as [|y rows IH]; intros Hlt; simpl; [reflexivity|].
  rewrite IH by (intros z Hz; apply Hlt; right; exact Hz).
  simpl.
  assert (H : (key x <=? key y) = false).
  { apply Z.leb_gt. apply Hlt. left. reflexivity. }
  now rewrite H.
Qed.

Lemma void_list_recent_no_faults (l : Z) (s : void_db) :
  run (void_list_recent l) no_faults s = (Returned (VoidSql.select_recent l s), s).
Proof. reflexivity. Qed.

(** X18. The newest entry comes first.  After an entry is written without
    faults, [void_list_recent] with a limit of at least one returns the
    line of that entry first: its id, the clock value of the write, its
    title and its importance. *)
Theorem void_list_recent_newest (t sm : string) (d o : option string)
                                (a : option (list (string * Json.value)))
                                (tg : option (list string)) (i : Z)
                                (sid tid : option string) (now : string)
                                (s : void_db) (l : Z) :
  1 <= l ->
  let eid := Sql.next_rowid (seq_entries s) (map Entry.id (entries s)) in
  let s1 := snd (run (void_write_entry t sm d o a tg i sid tid now) no_faults s) in
  exists rest : list (Z * string * option string * Z),
    run (void_list_recent l) no_faults s1
    = (Returned ((eid, now, Some t, i) :: rest), s1).
Proof.
  intros Hl eid s1. rewrite void_list_recent_no_faults.
  unfold s1. rewrite void_write_entry_no_faults. cbv zeta. cbn [snd]. fold eid.
  set (new := Entry.Row eid _ _ _ _ _ _ _ _ _ _).
  unfold VoidSql.select_recent. cbn [entries].
  rewrite order_by_desc_newest.
  - unfold Sql.limit. destruct (l <? 0) eqn:E; [apply Z.ltb_lt in E; lia|].
    destruct (Z.to_nat l) as [|k] eqn:Ek; [lia|].
    simpl. eexists. reflexivity.
  - intros y Hy. change (Entry.id new) with eid. unfold eid.
    assert (Entry.id y <= Sql.max_rowid (map Entry.id (entries s)))
      by (apply max_rowid_ge; apply in_map; exact Hy).
    unfold Sql.next_rowid. lia.
Qed.

Lemma void_list_recent_newest_witness :
  exists rest : list (Z * string * option string * Z),
    run (void_list_recent 1) no_faults
        (snd (run (void_write_entry "Design Review" "Discussed X" None None None None 3
                     None None "2024-04-01T12:00:00") no_faults empty_void_db))
    = (Returned ((1, "2024-04-01T12:00:00"%string, Some "Design Review"%string, 3)
                 :: rest),
       snd (run (void_write_entry "Design Review" "Discussed X" None None None None 3
                   None None "2024-04-01T12:00:00") no_faults empty_void_db)).
Proof.
  apply (void_list_recent_newest "Design Review" "Discussed X" None None None None 3
           None None "2024-04-01T12:00:00" empty_void_db 1).
  lia.
Defined.

(** X19. [void_list_recent] lists entries, newest first.  Whenever it
    returns, every line is the id, creation time, title and importance of
    an entry of the database, the ids never increase along the list, and
    with a limit that is not negative there are at most [limit] lines and
    exactly the smaller of the limit and the number of entries; a negative
    limit lists all entries. *)
Theorem void_list_recent_listing (l : Z) (p : plan) (s : void_db)
                                 (r : list (Z * string * option string * Z)) :
  fst (run (void_list_recent l) p s) = Returned r ->
  (exists rows : list Entry.row,
      r = map recent_line_of rows /\ Forall (fun e => In e (entries s)) rows)
  /\ StronglySorted (fun x y => fst (fst (fst y)) <= fst (fst (fst x))) r
  /\ Z.of_nat (List.length r)
     = (if l <? 0 then Z.of_nat (List.length (entries s))
        else Z.min l (Z.of_nat (List.length (entries s)))).
Proof.
  unfold void_list_recent. run_tool.
  destruct (p 0%nat); simpl; [discriminate|].
  destruct (p 1%nat); simpl; [discriminate|].
  intros [= <-]. unfold VoidSql.select_recent. repeat split.
  - exists (Sql.limit l (Sql.order_by_desc Z.leb Entry.id (entries s))).
    split; [reflexivity|]. apply Forall_forall. intros e He.
    apply limit_in in He. apply order_by_desc_in in He. exact He.
  - apply (strongly_sorted_map _ _
             (fun e => (Entry.id e, Entry.created_at e, Entry.title e,
                        Entry.importance e))
             (fun x y => fst (fst (fst y)) <= fst (fst (fst x)))).
    simpl. apply limit_strongly_sorted.
    pose proof (order_by_desc_sorted _ _ Z.leb Entry.id z_leb_total z_leb_trans
                                     (entries s)) as Hs.
    eapply StronglySorted_ind with (P := StronglySorted _); [constructor| |exact Hs].
    intros x rows _ IH Hall. constructor; [exact IH|].
    eapply Forall_impl; [|exact Hall]. simpl. intros y Hy. apply Z.leb_le. exact Hy.
  - rewrite length_map. unfold Sql.limit.
    destruct (l <? 0) eqn:E.
    + now rewrite order_by_desc_length.
    + apply Z.ltb_ge in E. rewrite length_firstn, order_by_desc_length. lia.
Qed.

Lemma void_list_recent_listing_witness :
  Z.of_nat (List.length (VoidSql.select_recent 5 empty_void_db)) = 0.
Proof.
  destruct (void_list_recent_listing 5 no_faults empty_void_db
              (VoidSql.select_recent 5 empty_void_db) eq_refl) as (_ & _ & H).
  exact H.
Defined.









(** ** What the context block draws on *)

Lemma inner_join_in (s : memory_db) (oe : Observation.row * Entity.row) :
  In oe (ContextSql.inner_join s) ->
  In (fst oe) (observations s) /\ In (snd oe) (entities s)
  /\ Observation.entity_id (fst oe) = Entity.id (snd oe).
Proof.
  unfold ContextSql.inner_join. intros H. apply in_flat_map in H.
  destruct H as (o & Ho & Hin). apply in_map_iff in Hin.
  destruct Hin as (e & <- & He). apply filter_In in He. destruct He as [He Hid].
  apply Z.eqb_eq in Hid. simpl. auto.
Qed.

Lemma db_filter_in_databases (dbs : option (list string)) (e : Entity.row) :
  SearchSql.db_filter dbs e = true -> in_databases dbs e.
Proof.
  unfold SearchSql.db_filter, in_databases.
  destruct dbs as [[|db rest]|]; try (intros _; exact I).
  change (Sql.is_in (Entity.database e) (db :: rest) = true
          -> In (Entity.database e) (db :: rest)).
  unfold Sql.is_in. intros H. apply existsb_exists in H.
  destruct H as (x & Hx & Heq). apply String.eqb_eq in Heq. rewrite Heq. exact Hx.
Qed.

Lemma truthy_nonempty (c : string) : Py.truthy c = true -> c <> ""%string.
Proof. destruct c; [discriminate|]. intros _. discriminate. Qed.

(** One turn of the loop over the rows of "Core Knowledge" keeps what the
    dictionary holds drawn from the rows. *)
Lemma collect_row_drawn (all : list Joined.row) (m : entity_obs) (r : Joined.row) :
  In r all -> Forall (drawn_from all) m -> Forall (drawn_from all) (collect_row m r).
Proof.
  intros Hr Hm. unfold collect_row.
  set (name := Entity.name (Joined.entity r)).
  set (m1 := if existsb (fun kv => String.eqb (fst kv) name) m then m
             else (m ++ [(name, (Entity.entity_type (Joined.entity r), []))])%list).
  assert (H1 : Forall (drawn_from all) m1).
  { unfold m1. destruct (existsb _ m); [exact Hm|].
    apply Forall_app. split; [exact Hm|]. constructor; [|constructor].
    split; [exists r; auto | constructor]. }
  destruct (Joined.content r) as [c|] eqn:Ec; [|exact H1].
  destruct (Py.truthy c) eqn:Et; [|exact H1].
  apply Forall_forall. intros kv' Hin. apply in_map_iff in Hin.
  destruct Hin as (kv & <- & Hkv).
  rewrite Forall_forall in H1. specialize (H1 kv Hkv).
  destruct (String.eqb (fst kv) name) eqn:En; [|exact H1].
  apply String.eqb_eq in En. destruct H1 as [Hhead Hobs].
  split; [exact Hhead|]. cbn [fst snd].
  apply Forall_app. split; [exact Hobs|]. constructor; [|constructor].
  split; [apply truthy_nonempty; exact Et|]. exists r. auto.
Qed.

Lemma collect_rows_drawn (all rows : list Joined.row) :
  (forall r, In r rows -> In r all) ->
  forall m : entity_obs,
    Forall (drawn_from all) m -> Forall (drawn_from all) (fold_left collect_row rows m).
Proof.
  induction rows as [|r rows IH]; intros Hsub m Hm; simpl; [exact Hm|].
  apply IH.
  - intros x Hx. apply Hsub. right. exact Hx.
  - apply collect_row_drawn; [apply Hsub; left; reflexivity | exact Hm].
Qed.

Lemma shown_entities_drawn (rows : list Joined.row) :
  Forall (drawn_from rows) (shown_entities rows).
Proof.
  pose proof (collect_rows_drawn rows rows (fun r H => H) [] (Forall_nil _)) as H.
  rewrite Forall_forall in H. apply Forall_forall. intros kv Hkv.
  unfold shown_entities in Hkv. apply in_map_iff in Hkv.
  destruct Hkv as (kv0 & <- & Hkv0). apply in_firstn in Hkv0.
  destruct (H kv0 Hkv0) as [Hhead Hobs]. split; [exact Hhead|]. cbn [fst snd].
  rewrite Forall_forall in Hobs. apply Forall_forall. intros c Hc.
  apply in_firstn in Hc. exact (Hobs c Hc).
Qed.

(** A row of the query of "Core Knowledge". *)
Lemma foundational_in (dbs : option (list string)) (s : memory_db) (r : Joined.row) :
  In r (ContextSql.foundational dbs s) ->
  In (Joined.entity r) (entities s)
  /\ Entity.salience (Joined.entity r) = "foundational"%string
  /\ in_databases dbs (Joined.entity r)
  /\ (Joined.content r = None
      \/ exists o, In o (observations s)
                   /\ Observation.entity_id o = Entity.id (Joined.entity r)
                   /\ Joined.content r = Some (Observation.content o)).
Proof.
  intros Hr. unfold ContextSql.foundational in Hr.
  apply order_by_desc_in in Hr. apply filter_In in Hr. destruct Hr as [Hj Hp].
  apply andb_true_iff in Hp. destruct Hp as [Hsal Hdb].
  apply String.eqb_eq in Hsal. apply db_filter_in_databases in Hdb.
  destruct (left_join_in s r Hj) as [He Hc]. auto.
Qed.

(** X21. What the context block is made from.  Whenever
    [get_context_block] returns, the block is, before the cut to
    [max_length], the header, the two sections and the closing banner,
    where every part of "Core Knowledge" shows the name and the type of an
    entity of the database whose salience is "foundational", with texts
    each of which is the non-empty content of an observation of a
    "foundational" entity of that name; every part of "Recent Activity"
    shows the name of an entity of the database and the content of one of
    its observations, added after the cutoff; the parts of "Recent
    Activity" come newest first; and when a non-empty list of databases
    is given, all these entities are in a database of the list. *)
Theorem context_block_sources (max_length : Z) (dbs : option (list string))
                              (now cut : string) (p : plan) (s : memory_db)
                              (r : string) :
  fst (run (get_context_block max_length dbs now cut) p s) = Returned r ->
  exists (shown : entity_obs) (recent : list ContextSql.recent_row),
    r = enforce_length max_length
          (context_block now (map core_line shown) (map recent_line recent))
    /\ Forall
         (fun kv =>
            (exists e : Entity.row,
                In e (entities s)
                /\ Entity.name e = fst kv /\ Entity.entity_type e = fst (snd kv)
                /\ Entity.salience e = "foundational"%string
                /\ in_databases dbs e)
            /\ Forall
                 (fun c =>
                    c <> ""%string
                    /\ exists (e : Entity.row) (o : Observation.row),
                         In e (entities s) /\ Entity.name e = fst kv
                         /\ Entity.salience e = "foundational"%string
                         /\ in_databases dbs e
                         /\ In o (observations s)
                         /\ Observation.entity_id o = Entity.id e
                         /\ Observation.content o = c)
                 (snd (snd kv)))
         shown
    /\ Forall
         (fun row =>
            exists (o : Observation.row) (e : Entity.row),
              In o (observations s) /\ In e (entities s)
              /\ Observation.entity_id o = Entity.id e
              /\ String.ltb cut (Observation.added_at o) = true
              /\ in_databases dbs e
              /\ ContextSql.r_name row = Entity.name e
              /\ ContextSql.r_content row = Observation.content o
              /\ ContextSql.r_added_at row = Observation.added_at o)
         recent
    /\ StronglySorted (fun x y => String.leb (ContextSql.r_added_at y)
                                             (ContextSql.r_added_at x) = true)
                      recent.
Proof.
  intros Hr. apply get_context_block_parts in Hr.
  exists (shown_entities (ContextSql.foundational dbs s)), (ContextSql.recent cut dbs s).
  split; [exact Hr|]. repeat split.
  - pose proof (shown_entities_drawn (ContextSql.foundational dbs s)) as Hd.
    eapply Forall_impl; [|exact Hd]. intros kv [(r0 & Hr0 & Hn & Ht) Hobs].
    destruct (foundational_in dbs s r0 Hr0) as (He & Hsal & Hdb & _).
    split; [exists (Joined.entity r0); auto|].
    eapply Forall_impl; [|exact Hobs]. intros c (Hc & r1 & Hr1 & Hn1 & Hc1).
    split; [exact Hc|].
    destruct (foundational_in dbs s r1 Hr1) as (He1 & Hsal1 & Hdb1 & Hcontent).
    destruct Hcontent as [Hnone|(o & Ho & Hoid & Hsome)]; [congruence|].
    exists (Joined.entity r1), o. repeat split; try assumption. congruence.
  - apply Forall_forall. intros row Hrow. unfold ContextSql.recent in Hrow.
    apply limit_in in Hrow. apply order_by_desc_in in Hrow. apply in_map_iff in Hrow.
    destruct Hrow as ([o e] & <- & Hoe). apply filter_In in Hoe.
    destruct Hoe as [Hj Hp]. apply andb_true_iff in Hp. destruct Hp as [Hcut Hdb].
    destruct (inner_join_in s (o, e) Hj) as (Ho & He & Hid). simpl in *.
    apply db_filter_in_databases in Hdb.
    exists o, e. auto 10.
  - unfold ContextSql.recent. apply limit_strongly_sorted.
    apply (order_by_desc_sorted _ _ String.leb ContextSql.r_added_at
                                String.leb_total string_leb_trans).
Qed.

Lemma context_block_sources_witness :
  exists (shown : entity_obs) (recent : list ContextSql.recent_row),
    fst (run (get_context_block 2000 (Some ["default"])
                                "2024-01-03T09:00:00.000001"
                                "2024-01-01T09:00:00.000001")
             no_faults two_people_db)
    = Returned (enforce_length 2000
                  (context_block "2024-01-03T09:00:00.000001"
                                 (map core_line shown) (map recent_line recent)))
    /\ Forall (fun kv => exists e : Entity.row,
                           In e (entities two_people_db)
                           /\ Entity.name e = fst kv
                           /\ Entity.salience e = "foundational"%string)
              shown
    /\ Forall (fun row => exists o : Observation.row,
                            In o (observations two_people_db)
                            /\ ContextSql.r_content row = Observation.content o)
              recent.
Proof.
  destruct (context_block_sources 2000 (Some ["default"%string])
              "2024-01-03T09:00:00.000001" "2024-01-01T09:00:00.000001"
              no_faults two_people_db _ eq_refl)
    as (shown & recent & Hr & Hshown & Hrecent & _).
  exists shown, recent. split; [rewrite <- Hr; reflexivity|]. split.
  - eapply Forall_impl; [|exact Hshown].
    intros kv [(e & He & Hn & _ & Hsal & _) _]. exists e. auto.
  - eapply Forall_impl; [|exact Hrecent].
    intros row (o & e & Ho & _ & _ & _ & _ & _ & Hc & _). exists o. auto.
Defined.
